(** * Route planner: normalisation and persistence layer

    A shallow embedding of
    - [services/amapService.js]: [parseRealRouteData], [decodePolyline],
      [calculateBounds];
    - [server.js], in the part that is the store module
      [models/database.js]: [createTables], [saveRouteToDB],
      [getRouteByIdFromDB], [updateRouteInDB], [deleteRouteFromDB],
      [saveRouteMarkerToDB], [getRouteMarkersFromDB], [searchRoutesFromDB],
      and further [getRoutesFromDB], [updateRouteMarkerInDB],
      [deleteRouteMarkerFromDB];
    - [server.js], the endpoints: [adminOnly], the endpoints of the routes
      and of the markers that write or fetch by id, the planning and the
      geocoding endpoints;
    - [services/amapService.js], [planDrivingRoute], [geocode],
      [reverseGeocode], and [services/routeService.js];
    together with the parts of the JavaScript number and string semantics
    and of the SQLite statement semantics these functions rest on. *)

From Stdlib Require Import ZArith QArith Qround Qreduction List String Ascii Bool Lia.
From Stdlib Require Import DecimalString.
From Stdlib Require Import Permutation Sorted.
Import ListNotations.

Local Open Scope Z_scope.

(* ================================================================== *)
(** * JavaScript numbers *)
(* ================================================================== *)

(** A Number is an IEEE 754 binary64 value.  A finite one is held by its
    exact rational value, in lowest terms; the two zeros are identified. *)
Module JsNum.

Inductive num : Type :=
| NaN
| Inf (negative : bool)
| Fin (q : Q).

Definition of_Z (z : Z) : num := Fin (inject_Z z).

Definition precision : Z := 53.
Definition emin : Z := -1074.   (* exponent of the least subnormal *)
Definition emax : Z := 971.     (* exponent of the last binade's unit *)

(** [n / d] scaled by [2^-e], kept as a fraction of integers. *)
Definition scaled (n d e : Z) : Z * Z :=
  if e <? 0 then (n * 2 ^ (- e), d) else (n, d * 2 ^ e).

(** Nearest integer to [n / d], ties to even ([0 <= n], [0 < d]). *)
Definition round_nearest_even (n d : Z) : Z :=
  let q := n / d in
  let r := n mod d in
  match 2 * r ?= d with
  | Lt => q
  | Gt => q + 1
  | Eq => if Z.even q then q else q + 1
  end.

(** The exponent [e] of the unit in the last place of [n / d]:
    [2^52 <= (n/d) / 2^e < 2^53], but never below [emin]. *)
Definition exponent_of (n d : Z) : Z :=
  let e0 := Z.log2 n - Z.log2 d - precision in
  let '(n', d') := scaled n d e0 in
  let e := if n' / d' <? 2 ^ precision then e0 else e0 + 1 in
  Z.max e emin.

(** The value [m * 2^e]. *)
Definition dyadic (m e : Z) : Q :=
  if e <? 0 then Qred (m # Z.to_pos (2 ^ (- e))) else inject_Z (m * 2 ^ e).

(** Round-to-nearest-even of the positive rational [n / d]. *)
Definition round_pos (n d : Z) : num :=
  let e := exponent_of n d in
  let '(n', d') := scaled n d e in
  let m := round_nearest_even n' d' in
  if (emax <? e) || ((e =? emax) && (2 ^ precision <=? m))
  then Inf false
  else Fin (dyadic m e).

Definition neg (x : num) : num :=
  match x with
  | NaN => NaN
  | Inf b => Inf (negb b)
  | Fin q => Fin (Qred (- q))
  end.

(** The binary64 value nearest to the rational [q]. *)
Definition round_double (q : Q) : num :=
  match Qnum q with
  | Z0 => Fin 0
  | Zpos n => round_pos (Zpos n) (Zpos (Qden q))
  | Zneg n => neg (round_pos (Zpos n) (Zpos (Qden q)))
  end.

Definition is_zero (q : Q) : bool := Qnum q =? 0.
Definition is_neg (q : Q) : bool := Qnum q <? 0.

(** [x / y] *)
Definition div (x y : num) : num :=
  match x, y with
  | NaN, _ | _, NaN => NaN
  | Inf _, Inf _ => NaN
  | Inf b, Fin q => Inf (xorb b (is_neg q))
  | Fin _, Inf _ => Fin 0
  | Fin p, Fin q =>
      if is_zero q
      then if is_zero p then NaN else Inf (is_neg p)
      else round_double (p / q)
  end.

(** [Math.ceil] *)
Definition Math_ceil (x : num) : num :=
  match x with
  | Fin q => of_Z (Qceiling q)
  | _ => x
  end.

(** [x <= y] on numbers; false as soon as one side is [NaN]. *)
Definition leb (x y : num) : bool :=
  match x, y with
  | NaN, _ | _, NaN => false
  | Inf true, _ => true
  | _, Inf false => true
  | Inf false, _ => false
  | _, Inf true => false
  | Fin p, Fin q => Qle_bool p q
  end.

Definition ltb (x y : num) : bool :=
  match x, y with
  | NaN, _ | _, NaN => false
  | _, _ => negb (leb y x)
  end.

Definition is_nan (x : num) : bool :=
  match x with NaN => true | _ => false end.

Definition is_finite (x : num) : bool :=
  match x with Fin _ => true | _ => false end.

Definition min2 (acc x : num) : num :=
  if is_nan acc || is_nan x then NaN else if ltb x acc then x else acc.

Definition max2 (acc x : num) : num :=
  if is_nan acc || is_nan x then NaN else if ltb acc x then x else acc.

(** [Math.min(...xs)] and [Math.max(...xs)]: the fold starts from plus,
    respectively minus, infinity; any [NaN] argument gives [NaN]. *)
Definition Math_min (xs : list num) : num := fold_left min2 xs (Inf false).
Definition Math_max (xs : list num) : num := fold_left max2 xs (Inf true).

(** Truthiness of a Number: [0] and [NaN] are falsy. *)
Definition truthy (x : num) : bool :=
  match x with
  | NaN => false
  | Inf _ => true
  | Fin q => negb (is_zero q)
  end.

End JsNum.

Import JsNum.
Local Open Scope string_scope.
Local Open Scope list_scope.
Local Open Scope Z_scope.

(* ================================================================== *)
(** * JavaScript strings *)
(* ================================================================== *)

(** A string is held as its UTF-8 bytes.  The code only ever tests
    [length] against zero, which is the same in bytes and in UTF-16
    code units. *)

(** [s.split(sep)] for a one-character separator: never empty. *)
Fixpoint split (sep : ascii) (s : string) : list string :=
  match s with
  | EmptyString => [EmptyString]
  | String c s' =>
      if Ascii.eqb c sep then EmptyString :: split sep s'
      else match split sep s' with
           | [] => [String c EmptyString]
           | w :: ws => String c w :: ws
           end
  end.

Arguments split sep%_char s%_string.

(** [xs.join(sep)] on strings. *)
Definition join (sep : string) (xs : list string) : string :=
  String.concat sep xs.

Definition starts_with (p s : string) : bool := String.prefix p s.

Definition drop (n : nat) (s : string) : string :=
  substring n (String.length s - n) s.

(** White space and line terminators of ECMAScript, in UTF-8. *)
Definition white_space : list string :=
  [ String "009" EmptyString; String "010" EmptyString; String "011" EmptyString;
    String "012" EmptyString; String "013" EmptyString; " ";
    String "194" (String "160" EmptyString);                    (* U+00A0 *)
    String "225" (String "154" (String "128" EmptyString));     (* U+1680 *)
    String "226" (String "128" (String "128" EmptyString));     (* U+2000 .. *)
    String "226" (String "128" (String "129" EmptyString));
    String "226" (String "128" (String "130" EmptyString));
    String "226" (String "128" (String "131" EmptyString));
    String "226" (String "128" (String "132" EmptyString));
    String "226" (String "128" (String "133" EmptyString));
    String "226" (String "128" (String "134" EmptyString));
    String "226" (String "128" (String "135" EmptyString));
    String "226" (String "128" (String "136" EmptyString));
    String "226" (String "128" (String "137" EmptyString));
    String "226" (String "128" (String "138" EmptyString));     (* .. U+200A *)
    String "226" (String "128" (String "168" EmptyString));     (* U+2028 *)
    String "226" (String "128" (String "169" EmptyString));     (* U+2029 *)
    String "226" (String "128" (String "175" EmptyString));     (* U+202F *)
    String "226" (String "129" (String "159" EmptyString));     (* U+205F *)
    String "227" (String "128" (String "128" EmptyString));     (* U+3000 *)
    String "239" (String "187" (String "191" EmptyString)) ].   (* U+FEFF *)

(** Length of the white-space character [s] starts with, if any. *)
Definition ws_prefix (s : string) : option nat :=
  match find (fun w => starts_with w s) white_space with
  | Some w => Some (String.length w)
  | None => None
  end.

(** Drop leading white space.  The fuel is the length of the string. *)
Fixpoint skip_ws_fuel (fuel : nat) (s : string) : string :=
  match fuel with
  | O => s
  | S fuel' =>
      match ws_prefix s with
      | Some k => skip_ws_fuel fuel' (drop k s)
      | None => s
      end
  end.

Definition skip_ws (s : string) : string := skip_ws_fuel (String.length s) s.

(** [s.trim() === ''] *)
Definition blank (s : string) : bool :=
  String.eqb (skip_ws s) EmptyString.

(** ** Numeric literals *)

Definition digit_of (base : Z) (c : ascii) : option Z :=
  let n := Z.of_nat (nat_of_ascii c) in
  let v := if (48 <=? n) && (n <=? 57) then n - 48
           else if (97 <=? n) && (n <=? 122) then n - 87
           else if (65 <=? n) && (n <=? 90) then n - 55
           else base in
  if v <? base then Some v else None.

(** The longest run of digits in front of [s]: its value, its length,
    and what follows. *)
Fixpoint take_digits (base : Z) (s : string) (acc : Z) (len : nat)
  : Z * nat * string :=
  match s with
  | EmptyString => (acc, len, s)
  | String c s' =>
      match digit_of base c with
      | Some d => take_digits base s' (base * acc + d) (S len)
      | None => (acc, len, s)
      end
  end.

Definition take_sign (s : string) : bool * string :=
  match s with
  | String "-" s' => (true, s')
  | String "+" s' => (false, s')
  | _ => (false, s)
  end.

(** [ExponentPart], when one is there: [e] or [E], a sign, digits. *)
Definition take_exponent (s : string) : Z * string :=
  match s with
  | String c s' =>
      if Ascii.eqb c "e" || Ascii.eqb c "E" then
        let '(sg, s1) := take_sign s' in
        match take_digits 10 s1 0 0 with
        | (_, O, _) => (0, s)
        | (v, _, rest) => ((if sg then - v else v), rest)
        end
      else (0, s)
  | EmptyString => (0, s)
  end.

(** The rational [m * 10^k]. *)
Definition decimal_value (m k : Z) : Q :=
  if k <? 0 then m # Z.to_pos (10 ^ (- k)) else inject_Z (m * 10 ^ k).

(** The longest prefix of [s] that is a [StrUnsignedDecimalLiteral]. *)
Definition parse_unsigned (s : string) : option (num * string) :=
  if starts_with "Infinity" s then Some (Inf false, drop 8 s) else
  let '(ip, ilen, r1) := take_digits 10 s 0 0 in
  match r1 with
  | String "." r1' =>
      let '(m, flen, r2) := take_digits 10 r1' ip 0 in
      match ilen, flen with
      | O, O => None
      | _, _ =>
          let '(e, r3) := take_exponent r2 in
          Some (round_double (decimal_value m (e - Z.of_nat flen)), r3)
      end
  | _ =>
      match ilen with
      | O => None
      | _ =>
          let '(e, r3) := take_exponent r1 in
          Some (round_double (decimal_value ip e), r3)
      end
  end.

(** The longest prefix of [s] that is a [StrDecimalLiteral]. *)
Definition parse_decimal (s : string) : option (num * string) :=
  let '(sg, s') := take_sign s in
  match parse_unsigned s' with
  | Some (v, rest) => Some ((if sg then neg v else v), rest)
  | None => None
  end.

(** [parseFloat(s)] on a string. *)
Definition parseFloat (s : string) : num :=
  match parse_decimal (skip_ws s) with
  | Some (v, _) => v
  | None => NaN
  end.

(** [0x], [0o] and [0b] literals, which [Number] reads and [parseFloat]
    does not. *)
Definition parse_radix (s : string) : option (num * string) :=
  match s with
  | String "0" (String c s') =>
      let base := if Ascii.eqb c "x" || Ascii.eqb c "X" then 16
                  else if Ascii.eqb c "o" || Ascii.eqb c "O" then 8
                  else if Ascii.eqb c "b" || Ascii.eqb c "B" then 2
                  else 0 in
      if base =? 0 then None else
      match take_digits base s' 0 0 with
      | (_, O, _) => None
      | (v, _, rest) => Some (round_double (inject_Z v), rest)
      end
  | _ => None
  end.

(** [Number(s)] on a string ([StringToNumber]). *)
Definition Number (s : string) : num :=
  let s' := skip_ws s in
  if String.eqb s' EmptyString then Fin 0 else
  match parse_radix s' with
  | Some (v, rest) => if blank rest then v else NaN
  | None =>
      match parse_decimal s' with
      | Some (v, rest) => if blank rest then v else NaN
      | None => NaN
      end
  end.

(** Decimal digits of a non-negative integer. *)
Definition Z_to_string (z : Z) : string :=
  NilZero.string_of_int (Z.to_int z).

(** Steps 10.b to 10.d of [Number.prototype.toFixed] for one fraction
    digit: the digits of [n], padded to two, with the point set before
    the last one. *)
Definition fixed1_digits (n : Z) : string :=
  let m := Z_to_string n in
  let m := if (String.length m <=? 1)%nat then ("0" ++ m)%string else m in
  let k := String.length m in
  (substring 0 (k - 1) m ++ "." ++ substring (k - 1) 1 m)%string.

(** The integer [n] for which [n / 10 - x] is closest to zero, the
    larger one when there are two ([0 <= x]). *)
Definition nearest_tenth (x : Q) : Z := Qfloor (x * 10 + (1 # 2)).

(** [s.replace(/<[^>]*>/g, '')] *)
Fixpoint after_gt (s : string) : option string :=
  match s with
  | EmptyString => None
  | String c s' => if Ascii.eqb c ">" then Some s' else after_gt s'
  end.

Fixpoint strip_tags_fuel (fuel : nat) (s : string) : string :=
  match fuel with
  | O => s
  | S fuel' =>
      match s with
      | EmptyString => EmptyString
      | String c s' =>
          if Ascii.eqb c "<" then
            match after_gt s' with
            | Some rest => strip_tags_fuel fuel' rest
            | None => String c (strip_tags_fuel fuel' s')
            end
          else String c (strip_tags_fuel fuel' s')
      end
  end.

Definition strip_tags (s : string) : string :=
  strip_tags_fuel (String.length s) s.

(* ================================================================== *)
(** * JavaScript values *)
(* ================================================================== *)

Local Set Warnings "-register-all".

(** The values a JSON document can carry, and [undefined]. *)
Inductive JsVal : Type :=
| JUndefined
| JNull
| JBool (b : bool)
| JNum (x : num)
| JStr (s : string)
| JArr (xs : list JsVal)
| JObj (props : list (string * JsVal)).

(** An object is its property list, in insertion order. *)
Definition object : Type := list (string * JsVal).

(** [o[k]] *)
Fixpoint obj_get (o : object) (k : string) : JsVal :=
  match o with
  | [] => JUndefined
  | (k', v) :: o' => if String.eqb k' k then v else obj_get o' k
  end.

(** [o[k] = v]: an existing key keeps its place. *)
Fixpoint obj_set (o : object) (k : string) (v : JsVal) : object :=
  match o with
  | [] => [(k, v)]
  | (k', v') :: o' =>
      if String.eqb k' k then (k', v) :: o' else (k', v') :: obj_set o' k v
  end.

(** [{...o, ...o'}] *)
Definition spread (o o' : object) : object :=
  fold_left (fun acc kv => obj_set acc (fst kv) (snd kv)) o' o.

(** [Object.keys(o)] *)
Definition Object_keys (o : object) : list string := map fst o.

(** [ToBoolean] *)
Definition js_truthy (v : JsVal) : bool :=
  match v with
  | JUndefined | JNull => false
  | JBool b => b
  | JNum x => JsNum.truthy x
  | JStr s => negb (String.eqb s EmptyString)
  | JArr _ | JObj _ => true
  end.

(** [a || b] *)
Definition js_or (a b : JsVal) : JsVal := if js_truthy a then a else b.

(** A destructuring default: taken only when the property is
    [undefined]. *)
Definition default_to (v d : JsVal) : JsVal :=
  match v with JUndefined => d | _ => v end.

(** [typeof v === 'string'] *)
Definition is_string (v : JsVal) : bool :=
  match v with JStr _ => true | _ => false end.

(** [v.length] of a value that is neither [undefined] nor [null].  For a
    string the model counts bytes where the language counts UTF-16 code
    units; the two are zero together. *)
Definition js_length (v : JsVal) : JsVal :=
  match v with
  | JStr s => JNum (of_Z (Z.of_nat (String.length s)))
  | JArr xs => JNum (of_Z (Z.of_nat (List.length xs)))
  | JObj props => obj_get props "length"
  | _ => JUndefined
  end.

(** [v === 0] *)
Definition strict_eq_zero (v : JsVal) : bool :=
  match v with
  | JNum (Fin q) => is_zero q
  | _ => false
  end.

(** What the embedding takes from its host rather than models:
    [Number::toString], the shortest decimal text that reads back as the
    same binary64 value; [JSON.parse], [None] when it throws; the text
    SQLite gives a number where an operator wants text; the text the
    driver binds for an array or an object. *)
Class Host : Type := {
  Number_toString : num -> string;
  JSON_parse : string -> option JsVal;
  sqlite_text : num -> string;
  bind_object : JsVal -> string
}.

Section Program.

Context {host : Host}.

(** [x.toFixed(1)] *)
Definition toFixed1 (x : num) : string :=
  match x with
  | Fin q =>
      let neg := is_neg q in
      let a := if neg then Qopp q else q in
      let m := if Qle_bool (inject_Z (10 ^ 21)) a
               then Number_toString (Fin a)
               else fixed1_digits (nearest_tenth a) in
      if neg then ("-" ++ m)%string else m
  | _ => Number_toString x
  end.

(** [ToString] *)
Fixpoint ToString (v : JsVal) : string :=
  match v with
  | JUndefined => "undefined"
  | JNull => "null"
  | JBool true => "true"
  | JBool false => "false"
  | JNum x => Number_toString x
  | JStr s => s
  | JArr xs =>
      join ","
        (map (fun e => match e with
                       | JUndefined | JNull => EmptyString
                       | _ => ToString e
                       end) xs)
  | JObj _ => "[object Object]"
  end.

(** [ToNumber] *)
Definition ToNumber (v : JsVal) : num :=
  match v with
  | JUndefined => NaN
  | JNull => Fin 0
  | JBool true => Fin 1
  | JBool false => Fin 0
  | JNum x => x
  | JStr s => Number s
  | JArr _ | JObj _ => Number (ToString v)
  end.

(** [a / b] *)
Definition js_div (a b : JsVal) : num := JsNum.div (ToNumber a) (ToNumber b).

(** [a > 0] *)
Definition js_gt_zero (a : JsVal) : bool := JsNum.ltb (Fin 0) (ToNumber a).

(** [xs.join(sep)] on values. *)
Definition js_join (sep : string) (xs : list JsVal) : string :=
  join sep
    (map (fun e => match e with
                   | JUndefined | JNull => EmptyString
                   | _ => ToString e
                   end) xs).

(* ================================================================== *)
(** * services/amapService.js *)
(* ================================================================== *)

Inductive exn : Type :=
| Error (message : string)
| TypeError
| SyntaxError
| SqliteError (message : string).

Inductive result (A : Type) : Type :=
| Ok (a : A)
| Throw (e : exn).
#[global] Arguments Ok {A} a.
#[global] Arguments Throw {A} e.

Definition bind {A B} (r : result A) (f : A -> result B) : result B :=
  match r with
  | Ok a => f a
  | Throw e => Throw e
  end.

Notation "'do' x <- r ; k" := (bind r (fun x => k))
  (at level 10, x name, r at level 100, k at level 200).

Fixpoint mapM {A B} (f : A -> result B) (xs : list A) : result (list B) :=
  match xs with
  | [] => Ok []
  | x :: xs' => do y <- f x; do ys <- mapM f xs'; Ok (y :: ys)
  end.

(** The provider's payload.  [route] is absent or an object, [paths] and
    [steps] are absent or arrays of objects; every other property is any
    value. *)
Record Step : Type := {
  step_instruction : JsVal;
  step_distance : JsVal;
  step_duration : JsVal;
  step_road : JsVal;
  step_orientation : JsVal;
  step_polyline : JsVal
}.

Record Path : Type := {
  path_distance : JsVal;
  path_duration : JsVal;
  path_tolls : JsVal;
  path_traffic_lights : JsVal;
  path_polyline : JsVal;
  path_steps : option (list Step)
}.

Record Route : Type := {
  paths : option (list Path)
}.

Record Response : Type := {
  status : JsVal;
  info : JsVal;
  route : option Route
}.

(** What [parseRealRouteData] returns. *)
Record PlanStep : Type := {
  instruction : string;
  distance : string;
  time : num;
  road : JsVal;
  orientation : JsVal
}.

Record Coord : Type := { lng : num; lat : num }.

Record Bounds : Type := { southwest : Coord; northeast : Coord }.

Record RoutePlan : Type := {
  plan_distance : string;
  plan_time : num;
  plan_tolls : JsVal;
  plan_traffic_lights : JsVal;
  plan_steps : list PlanStep;
  plan_polyline : list (num * num);
  plan_bounds : option Bounds;
  plan_source : string
}.

(** The guard that opens [decodePolyline] and [calculateBounds]:
    [!polyline || typeof polyline !== 'string' || polyline.length === 0]. *)
Definition no_polyline (polyline : JsVal) : bool :=
  negb (js_truthy polyline) || negb (is_string polyline)
  || strict_eq_zero (js_length polyline).

(** The first two components of [point.split(',')]; the second is
    [undefined] when the point has no comma. *)
Definition components (point : string) : string * option string :=
  match split "," point with
  | a :: b :: _ => (a, Some b)
  | a :: [] => (a, None)
  | [] => (EmptyString, None)
  end.

(** [parseFloat(undefined)] reads the text [undefined]: [NaN]. *)
Definition parseFloat_opt (s : option string) : num :=
  match s with Some s => parseFloat s | None => NaN end.

(** [decodePolyline].  Neither [split] nor [parseFloat] throws on text,
    so the [catch] branch is never entered. *)
Definition decodePolyline (polyline : JsVal) : list (num * num) :=
  if no_polyline polyline then []
  else match polyline with
       | JStr s =>
           map (fun point =>
                  let '(lng, lat) := components point in
                  (parseFloat lng, parseFloat_opt lat))
               (split ";" s)
       | _ => []
       end.

(** A missing latitude stays [undefined] in the point and becomes [NaN]
    once handed to [Math.min] and [Math.max]. *)
Definition Number_opt (s : option string) : num :=
  match s with Some s => Number s | None => NaN end.

(** [calculateBounds].  The points are taken to be few enough for the
    spread [Math.min(...lngs)] to stay within the engine's argument
    limit. *)
Definition calculateBounds (polyline : JsVal) : option Bounds :=
  if no_polyline polyline then None
  else match polyline with
       | JStr s =>
           let points := map (fun point =>
                                let '(lng, lat) := components point in
                                {| lng := Number lng; lat := Number_opt lat |})
                             (split ";" s) in
           let lngs := map lng points in
           let lats := map lat points in
           let southwest := {| lng := Math_min lngs; lat := Math_min lats |} in
           let northeast := {| lng := Math_max lngs; lat := Math_max lats |} in
           Some {| southwest := southwest; northeast := northeast |}
       | _ => None
       end.

Definition no_path_message : string :=
  "高德API返回成功，但未找到可规划的路径。请检查起点、终点是否在中国大陆可达，或起点终点是否重叠。".

(** The error the specification calls [NoPathFoundError]. *)
Definition NoPathFoundError : exn := Error no_path_message.

(** [path.steps.map(step => step.polyline).filter(p => p && p.length > 0)
    .join(';')] *)
Definition aggregate_steps (steps : list Step) : string :=
  js_join ";"
    (filter (fun p => js_truthy p && js_gt_zero (js_length p))
            (map step_polyline steps)).

(** [path.steps], on which [map] is then called. *)
Definition steps_of (path : Path) : result (list Step) :=
  match path_steps path with
  | Some steps => Ok steps
  | None => Throw TypeError
  end.

Definition parse_step (step : Step) : result PlanStep :=
  match step_instruction step with
  | JStr text =>
      Ok {| instruction := strip_tags text;
            distance := toFixed1 (js_div (step_distance step) (JNum (of_Z 1000)));
            time := Math_ceil (js_div (step_duration step) (JNum (of_Z 60)));
            road := js_or (step_road step) (JStr EmptyString);
            orientation := js_or (step_orientation step) (JStr EmptyString) |}
  | _ => Throw TypeError
  end.

(** The polyline that is decoded: the path's own, or the steps' joined
    when that one is missing or empty. *)
Definition aggregatePolyline (path : Path) : result JsVal :=
  let aggregatedPolyline := path_polyline path in
  if negb (js_truthy aggregatedPolyline)
     || strict_eq_zero (js_length aggregatedPolyline)
  then do steps <- steps_of path; Ok (JStr (aggregate_steps steps))
  else Ok aggregatedPolyline.

Definition parseRealRouteData (data : Response) : result RoutePlan :=
  match route data with
  | None => Throw NoPathFoundError
  | Some route =>
      match paths route with
      | None | Some [] => Throw NoPathFoundError
      | Some (path :: _) =>
          do aggregatedPolyline <- aggregatePolyline path;
          do raw_steps <- steps_of path;
          do steps <- mapM parse_step raw_steps;
          Ok {| plan_distance :=
                  toFixed1 (js_div (path_distance path) (JNum (of_Z 1000)));
                plan_time :=
                  Math_ceil (js_div (path_duration path) (JNum (of_Z 60)));
                plan_tolls := js_or (path_tolls path) (JNum (of_Z 0));
                plan_traffic_lights :=
                  js_or (path_traffic_lights path) (JNum (of_Z 0));
                plan_steps := steps;
                plan_polyline := decodePolyline aggregatedPolyline;
                plan_bounds := calculateBounds aggregatedPolyline;
                plan_source := "高德地图真实API" |}
      end
  end.

(** What [planDrivingRoute] does with the provider's answer, once it has
    it: [data.status !== '1'] is the error the specification calls
    [ProviderError], anything else goes to [parseRealRouteData]; the
    [catch] logs and throws the error on. *)
Definition planDrivingRoute_response (data : Response) : result RoutePlan :=
  match status data with
  | JStr "1" => parseRealRouteData data
  | _ =>
      Throw (Error ("高德API错误: "
                    ++ ToString (js_or (info data) (JStr "未知错误"))))
  end.

(* ================================================================== *)
(** * The SQLite engine, as far as the statements of the program go *)
(* ================================================================== *)

(** Storage classes.  Integers and reals are not told apart, and a value
    is stored as it is bound: the conversions of column affinity are
    left out. *)
Inductive SqlVal : Type :=
| SNull
| SNum (x : num)
| SText (s : string).

(** How the driver binds a parameter. *)
Definition bind_param (v : JsVal) : SqlVal :=
  match v with
  | JUndefined | JNull => SNull
  | JBool true => SNum (Fin 1)
  | JBool false => SNum (Fin 0)
  | JNum NaN => SNull
  | JNum x => SNum x
  | JStr s => SText s
  | JArr _ | JObj _ => SText (bind_object v)
  end.

(** How the driver hands a column back. *)
Definition column_value (v : SqlVal) : JsVal :=
  match v with
  | SNull => JNull
  | SNum x => JNum x
  | SText s => JStr s
  end.

Definition row : Type := list (string * SqlVal).

Fixpoint row_get (r : row) (c : string) : SqlVal :=
  match r with
  | [] => SNull
  | (c', v) :: r' => if String.eqb c' c then v else row_get r' c
  end.

Fixpoint row_set (r : row) (c : string) (v : SqlVal) : row :=
  match r with
  | [] => []
  | (c', v') :: r' =>
      if String.eqb c' c then (c', v) :: r' else (c', v') :: row_set r' c v
  end.

Definition row_object (r : row) : object :=
  map (fun cv => (fst cv, column_value (snd cv))) r.

Inductive default : Type :=
| NoDefault
| Default (v : SqlVal)
| DefaultCurrentTimestamp.

Record column : Type := {
  col_name : string;
  col_not_null : bool;
  col_default : default
}.

Definition col (name : string) (not_null : bool) (d : default) : column :=
  {| col_name := name; col_not_null := not_null; col_default := d |}.

(** A table: its rows in rowid order and the largest rowid ever given
    out ([AUTOINCREMENT]). *)
Record table : Type := {
  tbl_rows : list row;
  tbl_seq : Z
}.

Definition empty_table : table := {| tbl_rows := []; tbl_seq := 0 |}.

(** The two tables of the core.  [users] belongs to the authentication
    layer and is left out. *)
Record store : Type := {
  routes : table;
  route_markers : table
}.

(** A connection.  SQLite enforces foreign keys on a connection only
    after [PRAGMA foreign_keys = ON] has been run on it. *)
Record connection : Type := {
  foreign_keys : bool;
  content : store
}.

(** What the statement reads of the world. *)
Record clock : Type := {
  Date_getTime : Z;              (* [new Date().getTime()] *)
  CURRENT_TIMESTAMP : string     (* as text, [YYYY-MM-DD HH:MM:SS] *)
}.

(** [=] of SQL; [NULL] equals nothing. *)
Definition sql_eq (a b : SqlVal) : bool :=
  match a, b with
  | SNum x, SNum y => JsNum.leb x y && JsNum.leb y x
  | SText s, SText t => String.eqb s t
  | _, _ => false
  end.

(** The sort order of values: [NULL], then numbers, then text. *)
Definition sql_compare (a b : SqlVal) : comparison :=
  match a, b with
  | SNull, SNull => Eq
  | SNull, _ => Lt
  | _, SNull => Gt
  | SNum x, SNum y =>
      if JsNum.ltb x y then Lt else if JsNum.ltb y x then Gt else Eq
  | SNum _, SText _ => Lt
  | SText _, SNum _ => Gt
  | SText s, SText t => String.compare s t
  end.

(** [r1] comes no later than [r2] under [ORDER BY k1 DESC, k2 DESC ...]. *)
Fixpoint before_desc (keys : list string) (r1 r2 : row) : bool :=
  match keys with
  | [] => true
  | k :: keys' =>
      match sql_compare (row_get r1 k) (row_get r2 k) with
      | Gt => true
      | Lt => false
      | Eq => before_desc keys' r1 r2
      end
  end.

Fixpoint insert_sorted (le : row -> row -> bool) (x : row) (l : list row)
  : list row :=
  match l with
  | [] => [x]
  | y :: l' => if le x y then x :: l else y :: insert_sorted le x l'
  end.

Definition order_by_desc (keys : list string) (rows : list row) : list row :=
  fold_right (insert_sorted (before_desc keys)) [] rows.

(** [LIMIT limit OFFSET offset]: a negative limit is no limit, a negative
    offset is no offset. *)
Definition limit_offset (limit offset : Z) (rows : list row) : list row :=
  let rest := skipn (Z.to_nat offset) rows in
  if limit <? 0 then rest else firstn (Z.to_nat limit) rest.

(** ** LIKE *)

Definition upper (c : ascii) : ascii :=
  let n := nat_of_ascii c in
  if (97 <=? n)%nat && (n <=? 122)%nat then ascii_of_nat (n - 32) else c.

(** Skip the continuation bytes of a UTF-8 character. *)
Fixpoint skip_continuation (s : string) : string :=
  match s with
  | String c s' =>
      let n := nat_of_ascii c in
      if (128 <=? n)%nat && (n <=? 191)%nat then skip_continuation s' else s
  | EmptyString => s
  end.

(** [s LIKE p]: [%] is any run of characters, [_] any one character,
    ASCII letters match without regard to case. *)
Fixpoint like (p s : string) : bool :=
  match p with
  | EmptyString => match s with EmptyString => true | _ => false end
  | String "%" p' =>
      (fix any (s : string) : bool :=
         like p' s
         || match s with
            | EmptyString => false
            | String _ s' => any s'
            end) s
  | String "_" p' =>
      match s with
      | EmptyString => false
      | String _ s' => like p' (skip_continuation s')
      end
  | String c p' =>
      match s with
      | EmptyString => false
      | String d s' => Ascii.eqb (upper c) (upper d) && like p' s'
      end
  end.

(** [v LIKE p] on stored values; [NULL] on either side is not a match. *)
Definition sql_like (v p : SqlVal) : bool :=
  match p with
  | SNull => false
  | SNum x =>
      match v with
      | SNull => false
      | SNum y => like (sqlite_text x) (sqlite_text y)
      | SText s => like (sqlite_text x) s
      end
  | SText pat =>
      match v with
      | SNull => false
      | SNum y => like pat (sqlite_text y)
      | SText s => like pat s
      end
  end.

(** ** INSERT, UPDATE, DELETE *)

Definition constraint_not_null : exn :=
  SqliteError "SQLITE_CONSTRAINT: NOT NULL constraint failed".
Definition constraint_foreign_key : exn :=
  SqliteError "SQLITE_CONSTRAINT: FOREIGN KEY constraint failed".
Definition no_such_column : exn :=
  SqliteError "SQLITE_ERROR: no such column".

Fixpoint zip {A B} (xs : list A) (ys : list B) : list (A * B) :=
  match xs, ys with
  | x :: xs', y :: ys' => (x, y) :: zip xs' ys'
  | _, _ => []
  end.

Fixpoint assoc {A} (k : string) (kvs : list (string * A)) : option A :=
  match kvs with
  | [] => None
  | (k', v) :: kvs' => if String.eqb k' k then Some v else assoc k kvs'
  end.

(** The value a new row gets in column [c]: the one given for it, or the
    column's default. *)
Definition initial_value (now : clock) (given : list (string * SqlVal))
  (c : column) : SqlVal :=
  match assoc (col_name c) given with
  | Some v => v
  | None =>
      match col_default c with
      | NoDefault => SNull
      | Default v => v
      | DefaultCurrentTimestamp => SText (CURRENT_TIMESTAMP now)
      end
  end.

Definition violates_not_null (schema : list column) (r : row) : bool :=
  existsb (fun c => col_not_null c
                    && match row_get r (col_name c) with
                       | SNull => true
                       | _ => false
                       end) schema.

(** [INSERT INTO t (columns) VALUES (?, ...)] with the parameters bound
    in order; gives the new table and [lastID]. *)
Definition sql_insert (schema : list column) (now : clock) (t : table)
  (columns : list string) (params : list JsVal) : result (table * Z) :=
  let given := zip columns (map bind_param params) in
  let id := tbl_seq t + 1 in
  let r := ("id", SNum (of_Z id))
           :: map (fun c => (col_name c, initial_value now given c)) schema in
  if violates_not_null schema r then Throw constraint_not_null
  else Ok ({| tbl_rows := tbl_rows t ++ [r]; tbl_seq := id |}, id).

(** The right-hand side of an assignment in [SET]. *)
Inductive rhs : Type :=
| Placeholder            (* [?] *)
| CurrentTimestamp.      (* [CURRENT_TIMESTAMP] *)

(** Apply the assignments of [SET] to one row, taking the parameters in
    order; what is left of the parameters comes back. *)
Fixpoint apply_set (now : clock) (sets : list (string * rhs))
  (params : list SqlVal) (r : row) : row * list SqlVal :=
  match sets with
  | [] => (r, params)
  | (c, CurrentTimestamp) :: sets' =>
      apply_set now sets' params (row_set r c (SText (CURRENT_TIMESTAMP now)))
  | (c, Placeholder) :: sets' =>
      match params with
      | v :: params' => apply_set now sets' params' (row_set r c v)
      | [] => apply_set now sets' [] (row_set r c SNull)
      end
  end.

Definition id_is (id : SqlVal) (r : row) : bool := sql_eq (row_get r "id") id.

Definition has_column (schema : list column) (c : string) : bool :=
  existsb (fun c' => String.eqb (col_name c') c) schema.

(** [UPDATE t SET ... WHERE id = ?]; gives the new table and [changes]. *)
Definition sql_update (schema : list column) (now : clock) (t : table)
  (sets : list (string * rhs)) (params : list JsVal) : result (table * Z) :=
  let bound := map bind_param params in
  let placeholders :=
    List.length (filter (fun s => match snd s with
                                  | Placeholder => true
                                  | CurrentTimestamp => false
                                  end) sets) in
  let id := nth placeholders bound SNull in
  if negb (forallb (fun s => has_column schema (fst s)) sets)
  then Throw no_such_column
  else
    let rows := map (fun r => if id_is id r
                              then fst (apply_set now sets bound r) else r)
                    (tbl_rows t) in
    if existsb (fun r => id_is id r && violates_not_null schema r) rows
    then Throw constraint_not_null
    else Ok ({| tbl_rows := rows; tbl_seq := tbl_seq t |},
             Z.of_nat (List.length (filter (id_is id) (tbl_rows t)))).

(** [DELETE FROM t WHERE c = ?]; gives the new table and [changes]. *)
Definition sql_delete (t : table) (c : string) (v : SqlVal) : table * Z :=
  let hit := fun r => sql_eq (row_get r c) v in
  ({| tbl_rows := filter (fun r => negb (hit r)) (tbl_rows t);
      tbl_seq := tbl_seq t |},
   Z.of_nat (List.length (filter hit (tbl_rows t)))).
(* ================================================================== *)
(** * server.js: the store module (models/database.js) *)
(* ================================================================== *)

(** ** [createTables] *)

Definition zero : SqlVal := SNum (of_Z 0).

(** [CREATE TABLE routes]; [id INTEGER PRIMARY KEY AUTOINCREMENT] is the
    rowid and is kept apart. *)
Definition routes_schema : list column :=
  [ col "name" true NoDefault;
    col "description" false NoDefault;
    col "route_type" false (Default (SText "driving"));
    col "city" false NoDefault;
    col "district" false NoDefault;
    col "district_type" false NoDefault;
    col "intersections" false (Default zero);
    col "right_turns" false (Default zero);
    col "left_turns" false (Default zero);
    col "u_turns" false (Default zero);
    col "roundabouts" false (Default zero);
    col "special_traffic_lights" false (Default zero);
    col "special_intersections" false (Default zero);
    col "start_lng" true NoDefault;
    col "start_lat" true NoDefault;
    col "end_lng" true NoDefault;
    col "end_lat" true NoDefault;
    col "waypoints" false NoDefault;
    col "distance" false NoDefault;
    col "duration" false NoDefault;
    col "polyline" false NoDefault;
    col "steps" false NoDefault;
    col "tolls" false (Default zero);
    col "traffic_lights" false (Default zero);
    col "created_by" false (Default (SText "system"));
    col "created_at" false DefaultCurrentTimestamp;
    col "updated_at" false DefaultCurrentTimestamp ].

(** [CREATE TABLE route_markers], with
    [FOREIGN KEY (route_id) REFERENCES routes (id) ON DELETE CASCADE]. *)
Definition route_markers_schema : list column :=
  [ col "route_id" true NoDefault;
    col "lng" true NoDefault;
    col "lat" true NoDefault;
    col "marker_type" false (Default (SText "important"));
    col "name" true NoDefault;
    col "description" false NoDefault;
    col "image_url" false NoDefault;
    col "contact" false NoDefault;
    col "importance" false (Default (SNum (of_Z 1)));
    col "category" false NoDefault;
    col "created_at" false DefaultCurrentTimestamp ].

(** [CREATE TABLE IF NOT EXISTS] on a database file that is new ([None])
    or already holds the tables. *)
Definition createTables (file : option store) : store :=
  match file with
  | Some s => s
  | None => {| routes := empty_table; route_markers := empty_table |}
  end.

(** [connectDatabase] then [createTables]: the program runs no [PRAGMA]
    on the connection it opens. *)
Definition initDatabase (file : option store) : option connection :=
  Some {| foreign_keys := false; content := createTables file |}.

(** ** Statements on a connection *)

Definition with_routes (conn : connection) (t : table) : connection :=
  {| foreign_keys := foreign_keys conn;
     content := {| routes := t;
                   route_markers := route_markers (content conn) |} |}.

Definition with_markers (conn : connection) (t : table) : connection :=
  {| foreign_keys := foreign_keys conn;
     content := {| routes := routes (content conn);
                   route_markers := t |} |}.

Definition insert_route (now : clock) (conn : connection)
  (columns : list string) (params : list JsVal)
  : result (connection * Z) :=
  do r <- sql_insert routes_schema now (routes (content conn)) columns params;
  Ok (with_routes conn (fst r), snd r).

(** With foreign keys enforced, a marker needs its parent route. *)
Definition insert_marker (now : clock) (conn : connection)
  (columns : list string) (params : list JsVal)
  : result (connection * Z) :=
  let given := zip columns (map bind_param params) in
  let parent := match assoc "route_id" given with
                | Some v => v
                | None => SNull
                end in
  do r <- sql_insert route_markers_schema now
            (route_markers (content conn)) columns params;
  if foreign_keys conn
     && negb (existsb (id_is parent) (tbl_rows (routes (content conn))))
  then Throw constraint_foreign_key
  else Ok (with_markers conn (fst r), snd r).

Definition update_route (now : clock) (conn : connection)
  (sets : list (string * rhs)) (params : list JsVal)
  : result (connection * Z) :=
  do r <- sql_update routes_schema now (routes (content conn)) sets params;
  Ok (with_routes conn (fst r), snd r).

(** [DELETE FROM routes WHERE id = ?].  [ON DELETE CASCADE] removes the
    markers of the deleted routes when foreign keys are enforced on the
    connection, and only then. *)
Definition delete_route (conn : connection) (id : SqlVal) : connection * Z :=
  let '(routes', changes) := sql_delete (routes (content conn)) "id" id in
  let deleted := filter (id_is id) (tbl_rows (routes (content conn))) in
  let orphan := fun m =>
    existsb (fun r => sql_eq (row_get m "route_id") (row_get r "id")) deleted in
  let markers := route_markers (content conn) in
  let markers' :=
    if foreign_keys conn
    then {| tbl_rows := filter (fun m => negb (orphan m)) (tbl_rows markers);
            tbl_seq := tbl_seq markers |}
    else markers in
  ({| foreign_keys := foreign_keys conn;
      content := {| routes := routes'; route_markers := markers' |} |},
   changes).

(** ** Promises *)

(** How a call ends: the promise resolves, the promise rejects, or an
    exception leaves a driver callback and the promise never settles. *)
Inductive outcome (A : Type) : Type :=
| Resolved (a : A)
| Rejected (e : exn)
| Uncaught (e : exn).
#[global] Arguments Resolved {A} a.
#[global] Arguments Rejected {A} e.
#[global] Arguments Uncaught {A} e.

Definition not_connected : exn := Error "数据库未连接".

(** The error the specification calls [ValidationError], on a route. *)
Definition route_required : exn :=
  Error "路线名称、路径点数据和起终点坐标是必填字段".

(** The same, on a marker. *)
Definition marker_required : exn := Error "经纬度和名称为必填字段".

(** The same, on an update that names no allowed field. *)
Definition nothing_to_update : exn := Error "没有有效的更新字段".

(** The error the specification calls [NotFoundError]. *)
Definition route_not_found : exn := Error "路线不存在".

Definition num_val (z : Z) : JsVal := JNum (of_Z z).

(** ** [saveRouteToDB] *)

Definition route_columns : list string :=
  [ "name"; "description"; "route_type"; "city"; "district"; "district_type";
    "intersections"; "right_turns"; "left_turns"; "u_turns"; "roundabouts";
    "special_traffic_lights"; "special_intersections"; "created_by";
    "start_lng"; "start_lat"; "end_lng"; "end_lat"; "waypoints"; "distance";
    "duration"; "polyline"; "steps"; "tolls"; "traffic_lights" ].

Definition saveRouteToDB (now : clock) (db : option connection)
  (routeData : object) : outcome object * option connection :=
  match db with
  | None => (Rejected not_connected, db)
  | Some conn =>
      let field := fun k d => default_to (obj_get routeData k) d in
      let name :=
        field "name" (JStr ("路线_" ++ Z_to_string (Date_getTime now))) in
      let description := field "description" (JStr EmptyString) in
      let route_type := field "route_type" (JStr "driving") in
      let city := field "city" (JStr EmptyString) in
      let district := field "district" (JStr EmptyString) in
      let district_type := field "district_type" (JStr "区") in
      let intersections := field "intersections" (num_val 0) in
      let right_turns := field "right_turns" (num_val 0) in
      let left_turns := field "left_turns" (num_val 0) in
      let u_turns := field "u_turns" (num_val 0) in
      let roundabouts := field "roundabouts" (num_val 0) in
      let special_traffic_lights :=
        field "special_traffic_lights" (num_val 0) in
      let special_intersections := field "special_intersections" (num_val 0) in
      let created_by := field "created_by" (JStr "路线规划员") in
      let start_lng := obj_get routeData "start_lng" in
      let start_lat := obj_get routeData "start_lat" in
      let end_lng := obj_get routeData "end_lng" in
      let end_lat := obj_get routeData "end_lat" in
      let waypoints := obj_get routeData "waypoints" in
      let distance := field "distance" (num_val 0) in
      let duration := field "duration" (num_val 0) in
      let polyline := field "polyline" (JStr EmptyString) in
      let steps := field "steps" (JStr "[]") in
      let tolls := field "tolls" (num_val 0) in
      let traffic_lights := field "traffic_lights" (num_val 0) in
      if negb (js_truthy name) || negb (js_truthy waypoints)
         || negb (js_truthy start_lng) || negb (js_truthy end_lng)
      then (Rejected route_required, db)
      else
        let params :=
          [ name; description; route_type; city; district; district_type;
            intersections; right_turns; left_turns; u_turns; roundabouts;
            special_traffic_lights; special_intersections; created_by;
            start_lng; start_lat; end_lng; end_lat; waypoints; distance;
            duration; polyline; steps; tolls; traffic_lights ] in
        match insert_route now conn route_columns params with
        | Throw err => (Rejected err, db)
        | Ok (conn', lastID) =>
            (Resolved (spread [("id", num_val lastID)] routeData), Some conn')
        end
  end.

(** ** [getRouteByIdFromDB] *)

(** [v ? JSON.parse(v) : []] *)
Definition parse_or_empty (v : JsVal) : result JsVal :=
  if js_truthy v then
    match JSON_parse (ToString v) with
    | Some parsed => Ok parsed
    | None => Throw SyntaxError
    end
  else Ok (JArr []).

(** The object the readers build from a row, [creator] being what each
    of them writes there. *)
Definition route_object (creator : JsVal) (r : object) : result object :=
  do waypoints <- parse_or_empty (obj_get r "waypoints");
  do steps <- parse_or_empty (obj_get r "steps");
  Ok (spread r
        [ ("waypoints", waypoints);
          ("steps", steps);
          ("polyline", js_or (obj_get r "polyline") (JStr EmptyString));
          ("creator", creator);
          ("city", js_or (obj_get r "city") (JStr EmptyString));
          ("district", js_or (obj_get r "district") (JStr EmptyString));
          ("district_type", js_or (obj_get r "district_type") (JStr "区"));
          ("intersections", js_or (obj_get r "intersections") (num_val 0));
          ("right_turns", js_or (obj_get r "right_turns") (num_val 0));
          ("left_turns", js_or (obj_get r "left_turns") (num_val 0));
          ("u_turns", js_or (obj_get r "u_turns") (num_val 0));
          ("roundabouts", js_or (obj_get r "roundabouts") (num_val 0));
          ("special_traffic_lights",
           js_or (obj_get r "special_traffic_lights") (num_val 0));
          ("special_intersections",
           js_or (obj_get r "special_intersections") (num_val 0)) ]).

(** In [getRouteByIdFromDB]: [creator: row.created_by]. *)
Definition route_of_row (r : object) : result object :=
  route_object (obj_get r "created_by") r.

Definition getRouteByIdFromDB (db : option connection) (id : JsVal)
  : outcome object :=
  match db with
  | None => Rejected not_connected
  | Some conn =>
      match find (id_is (bind_param id)) (tbl_rows (routes (content conn))) with
      | None => Rejected route_not_found
      | Some r =>
          match route_of_row (row_object r) with
          | Ok route => Resolved route
          | Throw e => Uncaught e
          end
      end
  end.

(** ** [updateRouteInDB] *)

Definition allowedFields : list string :=
  [ "name"; "description"; "route_type"; "city"; "district"; "district_type";
    "intersections"; "right_turns"; "left_turns"; "u_turns"; "roundabouts";
    "special_traffic_lights"; "special_intersections"; "created_by";
    "start_lng"; "start_lat"; "end_lng"; "end_lat"; "waypoints"; "distance";
    "duration"; "polyline"; "steps"; "tolls"; "traffic_lights" ].

Definition includes (xs : list string) (k : string) : bool :=
  existsb (String.eqb k) xs.

(** The body of [Object.keys(updates).forEach]: one key, pushed on
    [updateFields] and [params] when it is allowed. *)
Definition push_field (updates : object)
  (acc : list (string * rhs) * list JsVal) (key : string)
  : list (string * rhs) * list JsVal :=
  let '(updateFields, params) := acc in
  if includes allowedFields key then
    if String.eqb key "description" then
      (updateFields ++ [("description", Placeholder)],
       params ++ [obj_get updates key])
    else if String.eqb key "creator" then
      (updateFields ++ [("created_by", Placeholder)],
       params ++ [obj_get updates key])
    else
      (updateFields ++ [(key, Placeholder)], params ++ [obj_get updates key])
  else acc.

Record changed : Type := { changed_id : JsVal; changes : Z }.

Definition updateRouteInDB (now : clock) (db : option connection)
  (id : JsVal) (updates : object) : outcome changed * option connection :=
  match db with
  | None => (Rejected not_connected, db)
  | Some conn =>
      let '(updateFields, params) :=
        fold_left (push_field updates) (Object_keys updates) ([], []) in
      if (List.length updateFields =? 0)%nat
      then (Rejected nothing_to_update, db)
      else
        let updateFields := updateFields ++ [("updated_at", CurrentTimestamp)] in
        let params := params ++ [id] in
        match update_route now conn updateFields params with
        | Throw err => (Rejected err, db)
        | Ok (conn', n) =>
            (Resolved {| changed_id := id; changes := n |}, Some conn')
        end
  end.

(** ** [deleteRouteFromDB] *)

Definition deleteRouteFromDB (db : option connection) (id : JsVal)
  : outcome changed * option connection :=
  match db with
  | None => (Rejected not_connected, db)
  | Some conn =>
      let '(conn', n) := delete_route conn (bind_param id) in
      (Resolved {| changed_id := id; changes := n |}, Some conn')
  end.

(** ** [saveRouteMarkerToDB] *)

Definition marker_columns : list string :=
  [ "route_id"; "lng"; "lat"; "marker_type"; "name"; "description";
    "image_url"; "contact"; "importance"; "category" ].

Definition saveRouteMarkerToDB (now : clock) (db : option connection)
  (routeId : JsVal) (markerData : object)
  : outcome object * option connection :=
  match db with
  | None => (Rejected not_connected, db)
  | Some conn =>
      let field := fun k d => default_to (obj_get markerData k) d in
      let lng := obj_get markerData "lng" in
      let lat := obj_get markerData "lat" in
      let marker_type := field "marker_type" (JStr "important") in
      let name := obj_get markerData "name" in
      let description := field "description" (JStr EmptyString) in
      let image_url := field "image_url" (JStr EmptyString) in
      let contact := field "contact" (JStr EmptyString) in
      let importance := field "importance" (num_val 1) in
      let category := field "category" (JStr "other") in
      if negb (js_truthy lng) || negb (js_truthy lat) || negb (js_truthy name)
      then (Rejected marker_required, db)
      else
        let params := [ routeId; lng; lat; marker_type; name; description;
                        image_url; contact; importance; category ] in
        match insert_marker now conn marker_columns params with
        | Throw err => (Rejected err, db)
        | Ok (conn', lastID) =>
            (Resolved (spread [("id", num_val lastID); ("route_id", routeId)]
                              markerData),
             Some conn')
        end
  end.

(** ** [getRouteMarkersFromDB] *)

Definition getRouteMarkersFromDB (db : option connection) (routeId : JsVal)
  : outcome (list object) :=
  match db with
  | None => Rejected not_connected
  | Some conn =>
      let rows :=
        filter (fun m => sql_eq (row_get m "route_id") (bind_param routeId))
               (tbl_rows (route_markers (content conn))) in
      Resolved (map row_object
                    (order_by_desc ["importance"; "created_at"] rows))
  end.
(** ** [searchRoutesFromDB] *)

(** The statements it builds: [SELECT * FROM routes] or
    [SELECT COUNT( * ) as total FROM routes], then [WHERE c1 LIKE ? OR c2
    LIKE ? ...] over [q_like] when that is not empty, then
    [ORDER BY created_at DESC LIMIT ? OFFSET ?] when [q_page] is set. *)
Record query : Type := {
  q_count : bool;
  q_like : list string;
  q_page : bool
}.

Definition add_where (q : query) (columns : list string) : query :=
  {| q_count := q_count q; q_like := columns; q_page := q_page q |}.

Definition add_page (q : query) : query :=
  {| q_count := q_count q; q_like := q_like q; q_page := true |}.

(** The rows a statement selects, its parameters bound in order. *)
Definition matching (q : query) (params : list SqlVal) (rows : list row)
  : list row :=
  match q_like q with
  | [] => rows
  | columns =>
      filter (fun r => existsb (fun cp => sql_like (row_get r (fst cp)) (snd cp))
                               (zip columns params))
             rows
  end.

Definition as_integer (v : SqlVal) : Z :=
  match v with
  | SNum (Fin q) => Qfloor q
  | _ => 0
  end.

(** [db.all(query, params)] on [routes]. *)
Definition select_all (conn : connection) (q : query) (params : list JsVal)
  : list object :=
  let bound := map bind_param params in
  let rows := matching q bound (tbl_rows (routes (content conn))) in
  let rows :=
    if q_page q then
      let rest := skipn (List.length (q_like q)) bound in
      limit_offset (as_integer (nth 0 rest SNull))
                   (as_integer (nth 1 rest SNull))
                   (order_by_desc ["created_at"] rows)
    else rows in
  map row_object rows.

(** [db.get(countQuery, countParams)] on [routes]: the [total] column of
    the one row it returns. *)
Definition select_count (conn : connection) (q : query) (params : list JsVal)
  : Z :=
  Z.of_nat (List.length
              (matching q (map bind_param params)
                        (tbl_rows (routes (content conn))))).

Record filters : Type := {
  keyword : option string;
  page : option Z;
  limit : option Z
}.

Record found : Type := {
  found_routes : list object;
  found_total : Z;
  found_page : Z;
  found_limit : Z
}.

Definition search_columns : list string :=
  [ "name"; "description"; "city"; "district"; "created_by" ].

(** In [searchRoutesFromDB]: [creator: route.created_by || '系统'], and
    a row whose JSON does not parse is returned as it is. *)
Definition found_of_row (r : object) : object :=
  match route_object (js_or (obj_get r "created_by") (JStr "系统")) r with
  | Ok route => route
  | Throw _ => r
  end.

(** A statement the driver was asked to run, with its parameters. *)
Definition statement : Type := query * list JsVal.

(** The search returns how its promise ends and the statements it ran,
    in order.  The page and the limit are integers, as the handler's
    [parseInt] leaves them. *)
Definition searchRoutesFromDB (db : option connection) (f : filters)
  : outcome found * list statement :=
  let keyword := match keyword f with Some k => k | None => EmptyString end in
  let page := match page f with Some p => p | None => 1 end in
  let limit := match limit f with Some l => l | None => 20 end in
  let offset := (page - 1) * limit in
  let pattern := JStr ("%" ++ keyword ++ "%") in
  let with_keyword :=
    negb (String.eqb keyword EmptyString) && negb (blank keyword) in
  let query := {| q_count := false; q_like := []; q_page := false |} in
  let params := [] in
  let '(query, params) :=
    if with_keyword
    then (add_where query search_columns,
          params ++ [pattern; pattern; pattern; pattern; pattern])
    else (query, params) in
  let query := add_page query in
  let params := params ++ [num_val limit; num_val offset] in
  let countQuery := {| q_count := true; q_like := []; q_page := false |} in
  let countParams := [] in
  let '(countQuery, countParams) :=
    if with_keyword
    then (add_where countQuery search_columns,
          countParams ++ [pattern; pattern; pattern; pattern; pattern])
    else (countQuery, countParams) in
  match db with
  | None => (Rejected TypeError, [])
  | Some conn =>
      let total := select_count conn countQuery countParams in
      if total =? 0
      then (Resolved {| found_routes := []; found_total := 0;
                        found_page := page; found_limit := limit |},
            [(countQuery, countParams)])
      else
        let rows := select_all conn query params in
        let routes := map found_of_row rows in
        (Resolved {| found_routes := routes; found_total := total;
                     found_page := page; found_limit := limit |},
         [(countQuery, countParams); (query, params)])
  end.

End Program.

(* ================================================================== *)
(** * server.js: the rest of the store module *)
(* ================================================================== *)

Section Store.

Context {host : Host}.

(** ** [getRoutesFromDB] *)

(** One test of its WHERE clause: [column = ?] or [column LIKE ?]. *)
Inductive test : Type :=
| Equals (column : string)
| Likes (column : string).

Definition holds (t : test) (p : SqlVal) (r : row) : bool :=
  match t with
  | Equals c => sql_eq (row_get r c) p
  | Likes c => sql_like (row_get r c) p
  end.

(** [db.all] on [SELECT * FROM routes WHERE 1=1], then [AND] each test,
    then [ORDER BY created_at DESC LIMIT ? OFFSET ?], the parameters
    bound in order. *)
Definition select_routes (conn : connection) (tests : list test)
  (params : list JsVal) : list object :=
  let bound := map bind_param params in
  let rows :=
    filter (fun r => forallb (fun tp => holds (fst tp) (snd tp) r)
                             (zip tests bound))
           (tbl_rows (routes (content conn))) in
  let rest := skipn (List.length tests) bound in
  map row_object
      (limit_offset (as_integer (nth 0 rest SNull))
                    (as_integer (nth 1 rest SNull))
                    (order_by_desc ["created_at"] rows)).

(** The filters of a listing.  The page and the limit are integers, as
    the handler's [parseInt(...) || default] leaves them. *)
Record listing : Type := {
  list_page : option Z;
  list_limit : option Z;
  list_type : JsVal;
  list_search : JsVal
}.

(** [rows.map(route => ...)]: the first row whose JSON does not parse
    throws, inside the driver's callback. *)
Definition getRoutesFromDB (db : option connection) (filters : listing)
  : outcome (list object) :=
  match db with
  | None => Rejected not_connected
  | Some conn =>
      let page := match list_page filters with Some p => p | None => 1 end in
      let limit := match list_limit filters with Some l => l | None => 20 end in
      let type := list_type filters in
      let search := list_search filters in
      let offset := (page - 1) * limit in
      let query := [] in
      let params := [] in
      let '(query, params) :=
        if js_truthy type
        then (query ++ [Equals "route_type"], params ++ [type])
        else (query, params) in
      let '(query, params) :=
        if js_truthy search
        then (query ++ [Likes "name"],
              params ++ [JStr ("%" ++ ToString search ++ "%")])
        else (query, params) in
      let params := params ++ [num_val limit; num_val offset] in
      match mapM route_of_row (select_routes conn query params) with
      | Ok routes => Resolved routes
      | Throw e => Uncaught e
      end
  end.

(** ** [updateRouteMarkerInDB] *)

Definition marker_allowedFields : list string :=
  [ "name"; "description"; "image_url"; "contact"; "importance"; "category";
    "marker_type" ].

Definition push_marker_field (updates : object)
  (acc : list (string * rhs) * list JsVal) (key : string)
  : list (string * rhs) * list JsVal :=
  let '(updateFields, params) := acc in
  if includes marker_allowedFields key
  then (updateFields ++ [(key, Placeholder)], params ++ [obj_get updates key])
  else acc.

Definition update_marker (now : clock) (conn : connection)
  (sets : list (string * rhs)) (params : list JsVal)
  : result (connection * Z) :=
  bind (sql_update route_markers_schema now
          (route_markers (content conn)) sets params)
       (fun r => Ok (with_markers conn (fst r), snd r)).

Definition updateRouteMarkerInDB (now : clock) (db : option connection)
  (markerId : JsVal) (updates : object)
  : outcome changed * option connection :=
  match db with
  | None => (Rejected not_connected, db)
  | Some conn =>
      let '(updateFields, params) :=
        fold_left (push_marker_field updates) (Object_keys updates) ([], []) in
      if (List.length updateFields =? 0)%nat
      then (Rejected nothing_to_update, db)
      else
        let params := params ++ [markerId] in
        match update_marker now conn updateFields params with
        | Throw err => (Rejected err, db)
        | Ok (conn', n) =>
            (Resolved {| changed_id := markerId; changes := n |}, Some conn')
        end
  end.

(** ** [deleteRouteMarkerFromDB] *)

Definition deleteRouteMarkerFromDB (db : option connection) (markerId : JsVal)
  : outcome changed * option connection :=
  match db with
  | None => (Rejected not_connected, db)
  | Some conn =>
      let '(markers, n) :=
        sql_delete (route_markers (content conn)) "id" (bind_param markerId) in
      (Resolved {| changed_id := markerId; changes := n |},
       Some (with_markers conn markers))
  end.

End Store.

(* ================================================================== *)
(** * The geocoding services *)
(* ================================================================== *)

(** [error.message] of an [Error] of the program or of the driver. *)
Definition message_of (e : exn) (engine : exn -> string) : string :=
  match e with
  | Error m => m
  | SqliteError m => m
  | _ => engine e
  end.

(** amapService.js, [geocode] and [reverseGeocode]: they throw whatever
    they are given. *)
Definition amap_geocode (address city : JsVal) : result JsVal :=
  Throw (Error "Geocode 功能未在此示例中完整实现，请自行检查其健壮性。").

Definition amap_reverseGeocode (lng lat : num) : result JsVal :=
  Throw (Error
    "ReverseGeocode 功能未在此示例中完整实现，请自行检查其健壮性。").

(* ================================================================== *)
(** * server.js: the endpoints *)
(* ================================================================== *)

(** What the endpoints take from the platform: [jwt.verify] under the
    secret of the server, [None] when it throws; [parseInt]; the HTTP
    request to the provider, which answers or throws; the message of an
    error the engine raises itself. *)
Record sent : Type := {
  sent_origin : string;
  sent_destination : string;
  sent_strategy : JsVal;
  sent_waypoints : option string
}.

Class Web : Type := {
  jwt_verify : string -> option JsVal;
  parseInt : string -> num;
  axios_get : sent -> result Response;
  engine_message : exn -> string
}.

Section Endpoints.

Context {host : Host} {web : Web}.

Notation "'do' x <- r ; k" := (bind r (fun x => k))
  (at level 10, x name, r at level 100, k at level 200).

Definition message (e : exn) : string := message_of e engine_message.

(** ** routeService.js *)

(** [geocodeAddress] and [reverseGeocode]: the answer wrapped, the error
    thrown again under a longer message. *)
Definition geocodeAddress (address city : JsVal) : result object :=
  match amap_geocode address city with
  | Ok found => Ok [("success", JBool true); ("data", found)]
  | Throw error => Throw (Error ("地址解析失败: " ++ message error))
  end.

Definition reverseGeocode (lng lat : num) : result object :=
  match amap_reverseGeocode lng lat with
  | Ok found => Ok [("success", JBool true); ("data", found)]
  | Throw error => Throw (Error ("坐标解析失败: " ++ message error))
  end.

(** ** Requests and answers *)

(** How an endpoint answers: [res.json] with [success: true] and the
    data; [res.status(code).json] with a message of the program;
    [res.status(code).json] with the message of the error caught; or not
    at all, the exception having left a driver callback. *)
Inductive reply (A : Type) : Type :=
| Success (data : A)
| Refused (code : Z) (text : string)
| Failed (code : Z) (error : exn)
| Pending (error : exn).
#[global] Arguments Success {A} data.
#[global] Arguments Refused {A} code text.
#[global] Arguments Failed {A} code error.
#[global] Arguments Pending {A} error.

(** [await] inside [try], the [catch] answering with [code]. *)
Definition settle {A} (o : outcome A) (code : Z) : reply A :=
  match o with
  | Resolved a => Success a
  | Rejected e => Failed code e
  | Uncaught e => Pending e
  end.

(** [v.k] for a name [k] that is not an index: [undefined] and [null]
    have no properties, text and arrays have [length]. *)
Definition member (v : JsVal) (k : string) : result JsVal :=
  match v with
  | JUndefined | JNull => Throw TypeError
  | JObj props => Ok (obj_get props k)
  | _ => Ok (if String.eqb k "length" then js_length v else JUndefined)
  end.

(** The named properties of a value, as destructuring and [Object.keys]
    see them among the names the program reads: text, arrays and other
    primitives have none of these. *)
Definition properties (v : JsVal) : result object :=
  match v with
  | JUndefined | JNull => Throw TypeError
  | JObj props => Ok props
  | _ => Ok []
  end.

(** [s.replace(pattern, replacement)] with text for a pattern: the first
    occurrence is replaced. *)
Fixpoint replace_first (pattern replacement s : string) : string :=
  if starts_with pattern s
  then replacement ++ drop (String.length pattern) s
  else match s with
       | EmptyString => EmptyString
       | String c s' => String c (replace_first pattern replacement s')
       end.

(** ** [adminOnly] *)

(** [auth] is [req.headers.authorization].  [None] is [next()], otherwise
    the code and the message of the answer.  A [TypeError] on the way is
    caught like a token that does not verify. *)
Definition adminOnly (auth : JsVal) : option (Z * string) :=
  if negb (js_truthy auth) then Some (401, "未登录")
  else
    match auth with
    | JStr header =>
        let token := replace_first "Bearer " EmptyString header in
        match jwt_verify token with
        | None => Some (401, "登录失效")
        | Some payload =>
            match member payload "is_admin" with
            | Throw _ => Some (401, "登录失效")
            | Ok is_admin =>
                if negb (js_truthy is_admin)
                then Some (403, "仅管理员可操作")
                else None
            end
        end
    | _ => Some (401, "登录失效")
    end.

(** A handler registered behind [adminOnly]. *)
Definition guarded {A S} (auth : JsVal) (db : S) (handler : reply A * S)
  : reply A * S :=
  match adminOnly auth with
  | Some refusal => (Refused (fst refusal) (snd refusal), db)
  | None => handler
  end.

(** ** The geocoding endpoints *)

(** [GET /api/geocode] *)
Definition GET_geocode (address city : JsVal) : reply object :=
  if negb (js_truthy address) then Refused 400 "需要提供地址参数"
  else match geocodeAddress address city with
       | Ok found => Success found
       | Throw error => Failed 500 error
       end.

(** [GET /api/reverse-geocode] *)
Definition GET_reverse_geocode (lng lat : JsVal) : reply object :=
  if negb (js_truthy lng) || negb (js_truthy lat)
  then Refused 400 "需要提供经纬度参数"
  else match reverseGeocode (parseFloat (ToString lng))
                            (parseFloat (ToString lat)) with
       | Ok found => Success found
       | Throw error => Failed 500 error
       end.

(** ** The endpoints of the routes *)

(** What the handler of [POST /api/routes] logs before it saves:
    [routeData.name], then the number of way points. *)
Definition logged (routeData : JsVal) : result (JsVal * JsVal) :=
  do name <- member routeData "name";
  do waypoints <- member routeData "waypoints";
  if js_truthy waypoints then
    match JSON_parse (ToString waypoints) with
    | None => Throw SyntaxError
    | Some parsed => do points <- member parsed "length"; Ok (name, points)
    end
  else Ok (name, num_val 0).

(** A function of the store module called with a value: it refuses a
    missing connection first, and then throws inside the promise, which
    rejects it, when the value has no properties to read. *)
Definition with_properties {A} (db : option connection) (v : JsVal)
  (call : object -> outcome A * option connection)
  : outcome A * option connection :=
  match db with
  | None => (Rejected not_connected, db)
  | Some _ =>
      match properties v with
      | Throw e => (Rejected e, db)
      | Ok props => call props
      end
  end.

Definition answered {A} (code : Z) (r : outcome A * option connection)
  : reply A * option connection :=
  (settle (fst r) code, snd r).

(** [POST /api/routes], registered behind [adminOnly] and no parser of
    the body. *)
Definition POST_routes (now : clock) (db : option connection)
  (auth routeData : JsVal) : reply object * option connection :=
  guarded auth db
    match logged routeData with
    | Throw error => (Failed 500 error, db)
    | Ok _ =>
        answered 500 (with_properties db routeData (saveRouteToDB now db))
    end.

(** [GET /api/routes/:id] *)
Definition GET_route (db : option connection) (id : string) : reply object :=
  settle (getRouteByIdFromDB db (JNum (parseInt id))) 404.

(** [PUT /api/routes/:id], behind [adminOnly] and [express.json()]. *)
Definition PUT_route (now : clock) (db : option connection)
  (auth : JsVal) (id : string) (updates : JsVal)
  : reply changed * option connection :=
  guarded auth db
    (answered 500
       (with_properties db updates
          (updateRouteInDB now db (JNum (parseInt id))))).

(** [DELETE /api/routes/:id], behind [adminOnly]. *)
Definition DELETE_route (db : option connection) (auth : JsVal) (id : string)
  : reply changed * option connection :=
  guarded auth db (answered 500 (deleteRouteFromDB db (JNum (parseInt id)))).

(** ** The endpoints of the markers *)

(** [POST /api/routes/:routeId/markers], behind [adminOnly] and no
    parser of the body. *)
Definition POST_marker (now : clock) (db : option connection)
  (auth : JsVal) (routeId : string) (markerData : JsVal)
  : reply object * option connection :=
  guarded auth db
    (if String.eqb routeId EmptyString || JsNum.is_nan (Number routeId)
     then (Refused 400 "routeId 非法", db)
     else answered 500
            (with_properties db markerData
               (saveRouteMarkerToDB now db (JNum (Number routeId))))).

(** [GET /api/routes/:routeId/markers] *)
Definition GET_markers (db : option connection) (routeId : string)
  : reply (list object) :=
  settle (getRouteMarkersFromDB db (JNum (parseInt routeId))) 500.

(** [PUT /api/markers/:markerId], behind [adminOnly] and
    [express.json()]. *)
Definition PUT_marker (now : clock) (db : option connection)
  (auth : JsVal) (markerId : string) (updates : JsVal)
  : reply changed * option connection :=
  guarded auth db
    (answered 500
       (with_properties db updates
          (updateRouteMarkerInDB now db (JNum (parseInt markerId))))).

(** [DELETE /api/markers/:markerId], behind [adminOnly]. *)
Definition DELETE_marker (db : option connection) (auth : JsVal)
  (markerId : string) : reply changed * option connection :=
  guarded auth db
    (answered 500 (deleteRouteMarkerFromDB db (JNum (parseInt markerId)))).

(** ** Planning *)

(** [`${lng},${lat}`] *)
Definition coordinates (lng lat : JsVal) : string :=
  ToString lng ++ "," ++ ToString lat.

(** [`${wp.lng},${wp.lat}`] *)
Definition point_text (wp : JsVal) : result string :=
  do lng <- member wp "lng";
  do lat <- member wp "lat";
  Ok (coordinates lng lat).

(** amapService.js, [planDrivingRoute]: the request it sends, the key
    and the constant fields left out, and what it makes of the answer. *)
Definition planDrivingRoute (origin destination : JsVal * JsVal)
  (waypoints : list JsVal) (strategy : JsVal) : result RoutePlan :=
  let strategy := default_to strategy (JStr "0") in
  do texts <- mapM point_text waypoints;
  do data <- axios_get
               {| sent_origin := coordinates (fst origin) (snd origin);
                  sent_destination :=
                    coordinates (fst destination) (snd destination);
                  sent_strategy := strategy;
                  sent_waypoints := match waypoints with
                                    | [] => None
                                    | _ => Some (join ";" texts)
                                    end |};
  planDrivingRoute_response data.

(** What is asked of the planner: [points] is absent or [null], or it is
    an array. *)
Record planning : Type := {
  plan_points : option (list JsVal);
  plan_strategy : JsVal
}.

(** [points.slice(1, points.length - 1)] *)
Definition middle (points : list JsVal) : list JsVal :=
  firstn (List.length points - 2) (skipn 1 points).

(** The origin, the destination and the way points, of two points or
    more. *)
Definition legs (points : list JsVal)
  : result ((JsVal * JsVal) * (JsVal * JsVal) * list JsVal) :=
  let first := nth 0 points JUndefined in
  let last := nth (List.length points - 1) points JUndefined in
  do origin_lng <- member first "lng";
  do origin_lat <- member first "lat";
  do destination_lng <- member last "lng";
  do destination_lat <- member last "lat";
  Ok ((origin_lng, origin_lat), (destination_lng, destination_lat),
      middle points).

Definition too_few_points : string := "至少需要起点和终点2个路径点".

(** The handler of [POST /api/plan-route]: it reads [points.length]
    before it asks whether there are [points].  The answer carries the
    plan and the points. *)
Definition plan_route (body : option planning)
  : reply (RoutePlan * list JsVal) :=
  match body with
  | None => Failed 500 TypeError
  | Some body =>
      let strategy := default_to (plan_strategy body) (JStr "0") in
      match plan_points body with
      | None => Failed 500 TypeError
      | Some points =>
          if (List.length points <? 2)%nat then Refused 400 too_few_points
          else
            match (do l <- legs points;
                   planDrivingRoute (fst (fst l)) (snd (fst l)) (snd l)
                                    strategy) with
            | Ok routeData => Success (routeData, points)
            | Throw error => Failed 500 error
            end
      end
  end.

(** [POST /api/plan-route], behind [adminOnly] and [express.json()]. *)
Definition POST_plan_route (auth : JsVal) (body : option planning)
  : reply (RoutePlan * list JsVal) :=
  match adminOnly auth with
  | Some refusal => Refused (fst refusal) (snd refusal)
  | None => plan_route body
  end.

(** routeService.js, [planRoute]: it asks whether there are [points]
    first, and throws every error again under a longer message. *)
Definition planRoute (points : option (list JsVal)) (strategy : JsVal)
  : result (RoutePlan * list JsVal) :=
  let strategy := default_to strategy (JStr "0") in
  let planned :=
    match points with
    | None => Throw (Error too_few_points)
    | Some points =>
        if (List.length points <? 2)%nat then Throw (Error too_few_points)
        else
          do l <- legs points;
          do routeData <- planDrivingRoute (fst (fst l)) (snd (fst l)) (snd l)
                                           strategy;
          Ok (routeData, points)
    end in
  match planned with
  | Ok data => Ok data
  | Throw error => Throw (Error ("路径规划失败: " ++ message error))
  end.

End Endpoints.

(* ================================================================== *)
(** * The vocabulary of the properties *)
(* ================================================================== *)

Section Vocabulary.

Context {host : Host}.

(** The candidate paths of a response; none when [route] or [paths] is
    absent. *)
Definition candidate_paths (data : Response) : list Path :=
  match route data with
  | Some r => match paths r with Some ps => ps | None => [] end
  | None => []
  end.









(** [t] is, from end to end, a decimal literal of finite value [q]. *)
Definition numeral (t : string) (q : Q) : Prop :=
  parse_decimal t = Some (Fin q, EmptyString).

(** What a decimal literal can start with. *)
Definition literal_start (c : ascii) : bool :=
  match digit_of 10 c with
  | Some _ => true
  | None => Ascii.eqb c "+" || Ascii.eqb c "-" || Ascii.eqb c "."
            || Ascii.eqb c "I"
  end.

(** [m] is a least element of [xs]. *)
Definition least (m : num) (xs : list num) : Prop :=
  In m xs /\ Forall (fun x => JsNum.leb m x = true) xs.

(** [m] is a greatest element of [xs]. *)
Definition greatest (m : num) (xs : list num) : Prop :=
  In m xs /\ Forall (fun x => JsNum.leb x m = true) xs.

Definition finite (x : num) : Prop := exists q, x = Fin q.

(** A point of the path: a longitude and a latitude, both numerals, with
    a comma between them.  What follows a second comma is never read. *)
Definition well_formed_point (point : string) : Prop :=
  exists a b rest qa qb,
    split "," point = a :: b :: rest /\ numeral a qa /\ numeral b qb.

(** A path all of whose points, separated by [;], are well formed. *)
Definition decodable (s : string) : Prop :=
  Forall well_formed_point (split ";" s).

Definition decode_point (point : string) : num * num :=
  let '(lng, lat) := components point in (parseFloat lng, parseFloat_opt lat).

Definition bounds_point (point : string) : Coord :=
  let '(lng, lat) := components point in
  {| lng := Number lng; lat := Number_opt lat |}.

(** The name [saveRouteToDB] works with: the one given, or one made
    from the clock. *)
Definition route_name (now : clock) (routeData : object) : JsVal :=
  default_to (obj_get routeData "name")
             (JStr ("路线_" ++ Z_to_string (Date_getTime now))).

(** What [saveRouteToDB] requires before it inserts. *)
Definition route_accepted (now : clock) (routeData : object) : bool :=
  js_truthy (route_name now routeData)
  && js_truthy (obj_get routeData "waypoints")
  && js_truthy (obj_get routeData "start_lng")
  && js_truthy (obj_get routeData "end_lng").

(** What [saveRouteMarkerToDB] requires before it inserts. *)
Definition marker_accepted (markerData : object) : bool :=
  js_truthy (obj_get markerData "lng")
  && js_truthy (obj_get markerData "lat")
  && js_truthy (obj_get markerData "name").

(** The parameters [saveRouteToDB] hands to its [INSERT], in order. *)
Definition route_params (now : clock) (routeData : object) : list JsVal :=
  let field := fun k d => default_to (obj_get routeData k) d in
  [ route_name now routeData;
    field "description" (JStr EmptyString);
    field "route_type" (JStr "driving");
    field "city" (JStr EmptyString);
    field "district" (JStr EmptyString);
    field "district_type" (JStr "区");
    field "intersections" (num_val 0);
    field "right_turns" (num_val 0);
    field "left_turns" (num_val 0);
    field "u_turns" (num_val 0);
    field "roundabouts" (num_val 0);
    field "special_traffic_lights" (num_val 0);
    field "special_intersections" (num_val 0);
    field "created_by" (JStr "路线规划员");
    obj_get routeData "start_lng";
    obj_get routeData "start_lat";
    obj_get routeData "end_lng";
    obj_get routeData "end_lat";
    obj_get routeData "waypoints";
    field "distance" (num_val 0);
    field "duration" (num_val 0);
    field "polyline" (JStr EmptyString);
    field "steps" (JStr "[]");
    field "tolls" (num_val 0);
    field "traffic_lights" (num_val 0) ].

(** The row that [INSERT] stores under rowid [id]. *)
Definition stored_route (now : clock) (routeData : object) (id : Z) : row :=
  ("id", SNum (of_Z id))
  :: map (fun c =>
            (col_name c,
             initial_value now
               (zip route_columns (map bind_param (route_params now routeData)))
               c))
         routes_schema.

(** No rowid of the table exceeds its sequence, as [AUTOINCREMENT]
    keeps it. *)
Definition rowids_bounded (t : table) : Prop :=
  Forall (fun r => exists i, row_get r "id" = SNum (of_Z i) /\ i <= tbl_seq t)
         (tbl_rows t).




Definition same_enforcement (db db' : option connection) : Prop :=
  match db, db' with
  | Some conn, Some conn' => foreign_keys conn' = foreign_keys conn
  | None, None => True
  | _, _ => False
  end.

Definition allowed (k : string) : bool := includes allowedFields k.

(** The column [updateRouteInDB] writes a key to. *)
Definition target (k : string) : string :=
  if String.eqb k "description" then "description"
  else if String.eqb k "creator" then "created_by"
  else k.

(** The allowed keys of an update, in the order they were given. *)
Definition allowed_keys (updates : object) : list string :=
  filter allowed (Object_keys updates).

Definition set_clause (keys : list string) : list (string * rhs) :=
  map (fun k => (k, Placeholder)) keys ++ [("updated_at", CurrentTimestamp)].

(** Every row of [routes] has the columns of the schema. *)
Definition conforms (t : table) : Prop :=
  Forall (fun r => map fst r = "id" :: map col_name routes_schema)
         (tbl_rows t).

(** The keyword is used when it is not blank. *)
Definition with_keyword (kw : string) : bool :=
  negb (String.eqb kw EmptyString) && negb (blank kw).

(** The keyword predicate: with a keyword, one of the five searched
    columns is [LIKE %keyword%]; without one, every route matches. *)
Definition keyword_matches (kw : string) (r : row) : bool :=
  if with_keyword kw
  then existsb (fun c => sql_like (row_get r c) (SText ("%" ++ kw ++ "%")))
               search_columns
  else true.

Definition matching_routes (conn : connection) (kw : string) : list row :=
  filter (keyword_matches kw) (tbl_rows (routes (content conn))).

Definition keyword_of (f : filters) : string :=
  match keyword f with Some k => k | None => EmptyString end.
Definition page_of (f : filters) : Z :=
  match page f with Some p => p | None => 1 end.
Definition limit_of (f : filters) : Z :=
  match limit f with Some l => l | None => 20 end.




(** The database handles the program can hold: the one [initDatabase]
    opens, and what the operations that write make of it. *)
Inductive opened : option connection -> Prop :=
| opened_init (file : option store) :
    opened (initDatabase file)
| opened_route (now : clock) (db : option connection) (o : object) :
    opened db -> opened (snd (saveRouteToDB now db o))
| opened_marker (now : clock) (db : option connection) (id : JsVal)
    (o : object) :
    opened db -> opened (snd (saveRouteMarkerToDB now db id o))
| opened_update (now : clock) (db : option connection) (id : JsVal)
    (o : object) :
    opened db -> opened (snd (updateRouteInDB now db id o))
| opened_delete (db : option connection) (id : JsVal) :
    opened db -> opened (snd (deleteRouteFromDB db id)).

(** ** More vocabulary *)

(** [s] holds a tag: a [<] with a [>] somewhere after it, which is what
    [/<[^>]*>/] matches. *)
Fixpoint has_tag (s : string) : bool :=
  match s with
  | EmptyString => false
  | String c s' =>
      (Ascii.eqb c "<" && match after_gt s' with
                          | Some _ => true
                          | None => false
                          end)
      || has_tag s'
  end.

(** ** The store over time *)

(** One call of a function of the store module that writes. *)
Inductive write : option connection -> option connection -> Prop :=
| write_route (now : clock) (db : option connection) (o : object) :
    write db (snd (saveRouteToDB now db o))
| write_route_update (now : clock) (db : option connection) (id : JsVal)
    (o : object) :
    write db (snd (updateRouteInDB now db id o))
| write_route_delete (db : option connection) (id : JsVal) :
    write db (snd (deleteRouteFromDB db id))
| write_marker (now : clock) (db : option connection) (id : JsVal)
    (o : object) :
    write db (snd (saveRouteMarkerToDB now db id o))
| write_marker_update (now : clock) (db : option connection) (id : JsVal)
    (o : object) :
    write db (snd (updateRouteMarkerInDB now db id o))
| write_marker_delete (db : option connection) (id : JsVal) :
    write db (snd (deleteRouteMarkerFromDB db id)).

(** [db'] is [db] after any number of such calls. *)
Inductive later (db : option connection) : option connection -> Prop :=
| later_now : later db db
| later_write (db1 db2 : option connection) :
    later db db1 -> write db1 db2 -> later db db2.

(** What the schema promises of a table: every row has its columns, no
    [NOT NULL] column holds [NULL], no rowid exceeds the sequence, and no
    two rows share a rowid. *)
Record table_sound (schema : list column) (t : table) : Prop := {
  sound_columns :
    Forall (fun r => map fst r = "id" :: map col_name schema) (tbl_rows t);
  sound_not_null :
    Forall (fun r => violates_not_null schema r = false) (tbl_rows t);
  sound_rowids : rowids_bounded t;
  sound_distinct : NoDup (map (fun r => row_get r "id") (tbl_rows t))
}.

Definition sound (conn : connection) : Prop :=
  table_sound routes_schema (routes (content conn))
  /\ table_sound route_markers_schema (route_markers (content conn)).

(** The last rowid given out in [routes]. *)
Definition last_route_id (db : option connection) : Z :=
  match db with
  | Some conn => tbl_seq (routes (content conn))
  | None => 0
  end.

(** What a write does to a connection: it stays one, stays sound, and
    the sequence of [routes] does not go back. *)
Definition carried (db db' : option connection) : Prop :=
  match db, db' with
  | Some conn, Some conn' =>
      (sound conn -> sound conn')
      /\ tbl_seq (routes (content conn)) <= tbl_seq (routes (content conn'))
  | None, None => True
  | _, _ => False
  end.

(** [a] is listed before [b] only when [b] does not come first under the
    keys. *)
Definition in_order (keys : list string) (a b : row) : Prop :=
  before_desc keys a b = true.

(** ** Markers *)

(** The parameters [saveRouteMarkerToDB] hands to its [INSERT], in order. *)
Definition marker_params (routeId : JsVal) (markerData : object)
  : list JsVal :=
  let field := fun k d => default_to (obj_get markerData k) d in
  [ routeId;
    obj_get markerData "lng";
    obj_get markerData "lat";
    field "marker_type" (JStr "important");
    obj_get markerData "name";
    field "description" (JStr EmptyString);
    field "image_url" (JStr EmptyString);
    field "contact" (JStr EmptyString);
    field "importance" (num_val 1);
    field "category" (JStr "other") ].

(** The row that [INSERT] stores under rowid [id]. *)
Definition stored_marker (now : clock) (routeId : JsVal) (markerData : object)
  (id : Z) : row :=
  ("id", SNum (of_Z id))
  :: map (fun c =>
            (col_name c,
             initial_value now
               (zip marker_columns
                    (map bind_param (marker_params routeId markerData)))
               c))
         route_markers_schema.

(** The fields a marker may carry beside the required ones. *)
Definition optional_marker_fields : list string :=
  [ "marker_type"; "description"; "image_url"; "contact"; "importance";
    "category" ].

(** A marker carrying the required fields and nothing else: a name as
    text, the coordinates as numbers. *)
Record only_required_marker (markerData : object) (name : string)
  (lng lat : Q) : Prop := {
  marker_has_name : obj_get markerData "name" = JStr name;
  marker_has_lng : obj_get markerData "lng" = JNum (Fin lng);
  marker_has_lat : obj_get markerData "lat" = JNum (Fin lat);
  marker_has_no_other :
    Forall (fun k => obj_get markerData k = JUndefined) optional_marker_fields
}.

Definition marker_allowed (k : string) : bool :=
  includes marker_allowedFields k.

(** The columns of a marker that [updateRouteMarkerInDB] has no
    assignment for. *)
Definition fixed_marker_columns : list string :=
  [ "id"; "route_id"; "lng"; "lat"; "created_at" ].

(** ** Updates of a route *)

(** The columns of [routes] declared [TEXT] among those an update may
    name; the others are [INTEGER] or [REAL]. *)
Definition text_columns : list string :=
  [ "name"; "description"; "route_type"; "city"; "district"; "district_type";
    "waypoints"; "polyline"; "steps"; "created_by" ].

(** A value of the storage class of its column, which SQLite stores as
    it is bound: text for a [TEXT] column, a finite number for a numeric
    one. *)
Definition fits_column (k : string) (v : JsVal) : bool :=
  match v with
  | JStr _ => includes text_columns k
  | JNum (Fin _) => negb (includes text_columns k)
  | _ => false
  end.

(** The columns of [routes] declared [NOT NULL] that an update may name. *)
Definition required_columns : list string :=
  [ "name"; "start_lng"; "start_lat"; "end_lng"; "end_lat" ].

(** ** The listing *)

(** The routes a listing selects: of the type asked for, when one is,
    and with a name that is [LIKE %search%], when a search is given. *)
Definition listed (f : listing) (r : row) : bool :=
  (if js_truthy (list_type f)
   then sql_eq (row_get r "route_type") (bind_param (list_type f))
   else true)
  && (if js_truthy (list_search f)
      then sql_like (row_get r "name")
                    (SText ("%" ++ ToString (list_search f) ++ "%"))
      else true).

Definition listing_page (f : listing) : Z :=
  match list_page f with Some p => p | None => 1 end.
Definition listing_limit (f : listing) : Z :=
  match list_limit f with Some l => l | None => 20 end.

(** The rows of the page a listing asks for. *)
Definition listed_rows (conn : connection) (f : listing) : list row :=
  limit_offset (listing_limit f) ((listing_page f - 1) * listing_limit f)
    (order_by_desc ["created_at"]
       (filter (listed f) (tbl_rows (routes (content conn))))).

(** The stored way points of a row are text that is not JSON. *)
Definition unparsable_waypoints (r : row) : Prop :=
  exists w, row_get r "waypoints" = SText w
            /\ w <> EmptyString /\ JSON_parse w = None.

(** The rows of the page a search asks for. *)
Definition found_rows (conn : connection) (f : filters) : list row :=
  limit_offset (limit_of f) ((page_of f - 1) * limit_of f)
    (order_by_desc ["created_at"] (matching_routes conn (keyword_of f))).


(** ** Keywords *)

(** The keyword holds neither [%] nor [_]. *)
Fixpoint literal (kw : string) : bool :=
  match kw with
  | EmptyString => true
  | String c kw' =>
      negb (Ascii.eqb c "%") && negb (Ascii.eqb c "_") && literal kw'
  end.

(** The same text up to the case of ASCII letters. *)
Fixpoint same_letters (a b : string) : bool :=
  match a, b with
  | EmptyString, EmptyString => true
  | String c a', String d b' =>
      Ascii.eqb (upper c) (upper d) && same_letters a' b'
  | _, _ => false
  end.

End Vocabulary.

(* ================================================================== *)
(** * Sample data *)
(* ================================================================== *)

(** The host functions on the values the examples meet:
    [Number::toString] and SQLite's text of a number on whole numbers,
    [JSON.parse] on two texts, the driver's text for an object. *)
Definition whole_toString (x : num) : string :=
  match x with
  | NaN => "NaN"
  | Inf false => "Infinity"
  | Inf true => "-Infinity"
  | Fin q => Z_to_string (Qfloor q)
  end.

Definition two_points : string := "[[116.397,39.909],[116.407,39.919]]".

Definition parse_sample (text : string) : option JsVal :=
  if String.eqb text "[]" then Some (JArr [])
  else if String.eqb text two_points
       then Some (JArr [JArr [JNum (Number "116.397"); JNum (Number "39.909")];
                        JArr [JNum (Number "116.407"); JNum (Number "39.919")]])
       else None.

Definition object_text (v : JsVal) : string := "[object Object]".

Definition sample_host : Host :=
  {| Number_toString := whole_toString;
     JSON_parse := parse_sample;
     sqlite_text := whole_toString;
     bind_object := object_text |}.

Definition noon : clock :=
  {| Date_getTime := 1700000000000;
     CURRENT_TIMESTAMP := "2023-11-14 22:13:20" |}.

Definition finite_part (x : num) : Q :=
  match x with Fin q => q | _ => 0 end.

Definition lng_a : Q := Eval vm_compute in finite_part (Number "116.397").
Definition lat_a : Q := Eval vm_compute in finite_part (Number "39.909").
Definition lng_b : Q := Eval vm_compute in finite_part (Number "116.407").
Definition lat_b : Q := Eval vm_compute in finite_part (Number "39.919").

(** The route of the specification's end-to-end example. *)
Definition route_A : object :=
  [ ("name", JStr "A");
    ("waypoints", JStr two_points);
    ("start_lng", JNum (Fin lng_a));
    ("start_lat", JNum (Fin lat_a));
    ("end_lng", JNum (Fin lng_b));
    ("end_lat", JNum (Fin lat_b)) ].

(** The same without its name. *)
Definition route_unnamed : object := tl route_A.

(** The connection to a new database, as [initDatabase] opens it. *)
Definition conn_new : connection :=
  {| foreign_keys := false; content := createTables None |}.

Definition the_connection (db : option connection) : connection :=
  match db with
  | Some conn => conn
  | None => conn_new
  end.

(** The same after [route_A] was saved. *)
Definition conn_A : connection :=
  Eval vm_compute in
    the_connection
      (snd (saveRouteToDB (host := sample_host) noon (Some conn_new) route_A)).

Definition marker_M : object :=
  [ ("lng", JNum (Fin lng_a)); ("lat", JNum (Fin lat_a)); ("name", JStr "M") ].

(** The same after a marker was put on that route. *)
Definition conn_M : connection :=
  Eval vm_compute in
    the_connection
      (snd (saveRouteMarkerToDB (host := sample_host) noon (Some conn_A)
              (num_val 1) marker_M)).

Definition route_named (name : string) : object :=
  obj_set route_A "name" (JStr name).

(** A database of three routes. *)
Definition conn_three : connection :=
  Eval vm_compute in
    let save := fun db name =>
      snd (saveRouteToDB (host := sample_host) noon db (route_named name)) in
    the_connection (save (save (save (Some conn_new) "Alpha") "Beta") "Gamma").

(** A response that reports success and holds no path. *)
Definition ok_without_paths : Response :=
  {| status := JStr "1"; info := JStr "OK";
     route := Some {| paths := Some [] |} |}.

Definition step_of (text metres seconds polyline : string) : Step :=
  {| step_instruction := JStr text;
     step_distance := JStr metres;
     step_duration := JStr seconds;
     step_road := JArr [];
     step_orientation := JUndefined;
     step_polyline := JStr polyline |}.

Definition two_steps : list Step :=
  [ step_of "go <b>north</b>" "1150" "61" "116.1,39.1";
    step_of "arrive" "250" "60" "116.2,39.3" ].

(** A path whose own polyline is the provider's empty list. *)
Definition path_by_steps : Path :=
  {| path_distance := JStr "12345";
     path_duration := JStr "3601";
     path_tolls := JStr "0";
     path_traffic_lights := JUndefined;
     path_polyline := JArr [];
     path_steps := Some two_steps |}.

Definition ok_with_path : Response :=
  {| status := JStr "1"; info := JStr "OK";
     route := Some {| paths := Some [path_by_steps] |} |}.

(** ** Further sample data *)

(** [parseInt] on text that is decimal digits, or starts with none. *)
Fixpoint leading_digits (s : string) (read : option Z) : option Z :=
  match s with
  | String c s' =>
      let n := Z.of_nat (nat_of_ascii c) in
      if (48 <=? n) && (n <=? 57)
      then leading_digits s'
             (Some (10 * match read with Some z => z | None => 0 end + (n - 48)))
      else read
  | EmptyString => read
  end.

Definition decimal_parseInt (s : string) : num :=
  match leading_digits s None with
  | Some z => of_Z z
  | None => NaN
  end.

(** Two tokens verify: the one of an administrator and the one of a
    reader. *)
Definition verify_sample (token : string) : option JsVal :=
  if String.eqb token "admin" then Some (JObj [("is_admin", JNum (of_Z 1))])
  else if String.eqb token "reader"
       then Some (JObj [("is_admin", JNum (of_Z 0))])
       else None.

Definition sample_web : Web :=
  {| jwt_verify := verify_sample;
     parseInt := decimal_parseInt;
     axios_get := fun _ => Ok ok_with_path;
     engine_message := fun _ => "TypeError" |}.

(** A route whose way points are not JSON. *)
Definition route_bad : object :=
  obj_set route_A "waypoints" (JStr "116.397,39.909").

(** A new database after [route_bad] was saved. *)
Definition conn_bad : connection :=
  Eval vm_compute in
    the_connection
      (snd (saveRouteToDB (host := sample_host) noon (Some conn_new)
              route_bad)).

(** The first row of [routes]. *)
Definition first_route (conn : connection) : row :=
  nth 0 (tbl_rows (routes (content conn))) [].

Definition point_of (lng lat : string) : JsVal :=
  JObj [("lng", JStr lng); ("lat", JStr lat)].

Definition three_points : list JsVal :=
  [ point_of "116.1" "39.1"; point_of "116.2" "39.2";
    point_of "116.3" "39.3" ].


Section Properties.

Context {host : Host}.

(** Case analysis on the eight bits of a character. *)
Ltac each_char c :=
  destruct c as [[] [] [] [] [] [] [] []].

(* ================================================================== *)
(** * Properties: numbers *)
(* ================================================================== *)






Lemma div_zero_of_Z (b : Z) : 0 < b -> JsNum.div (of_Z 0) (of_Z b) = Fin 0.
Proof.
  intros Hb. destruct b as [|b|b]; try lia. reflexivity.
Qed.






(* ================================================================== *)
(** * Properties: the route normaliser *)
(* ================================================================== *)

(** C2. A response whose list of candidate paths is empty or absent is
    refused with [NoPathFoundError] and gives no route plan, whatever
    its [status] and [info] say; when [status] reports success, that is
    the error [planDrivingRoute] ends with. *)
Theorem no_path_is_an_error (data : Response) :
  candidate_paths data = [] ->
  parseRealRouteData data = Throw NoPathFoundError
  /\ (forall plan, parseRealRouteData data <> Ok plan)
  /\ (status data = JStr "1" ->
      planDrivingRoute_response data = Throw NoPathFoundError).
Proof.
  intros H.
  assert (E : parseRealRouteData data = Throw NoPathFoundError).
  { unfold candidate_paths in H. unfold parseRealRouteData.
    destruct (route data) as [r|]; [destruct (paths r) as [[|p ps]|]|];
      try discriminate; reflexivity. }
  split; [exact E|]. split.
  - intros plan. rewrite E. discriminate.
  - intros Hs. unfold planDrivingRoute_response. rewrite Hs. exact E.
Qed.







Lemma length_positive (s : string) :
  s <> EmptyString -> (0 < Z.of_nat (String.length s))%Z.
Proof. destruct s; [congruence | cbn; lia]. Qed.

Lemma nonempty_text_kept (s : string) :
  s <> EmptyString ->
  js_truthy (JStr s) = true
  /\ strict_eq_zero (js_length (JStr s)) = false
  /\ js_gt_zero (js_length (JStr s)) = true.
Proof.
  intros H. pose proof (length_positive s H) as L.
  apply String.eqb_neq in H.
  unfold js_truthy, strict_eq_zero, js_gt_zero, js_length, of_Z, is_zero.
  cbn [ToNumber JsNum.ltb JsNum.leb inject_Z Qnum]. rewrite H.
  unfold Qle_bool. cbn [Qnum Qden inject_Z].
  repeat split; [apply Z.eqb_neq; lia|].
  apply negb_true_iff, Z.leb_gt. lia.
Qed.



(* ================================================================== *)
(** * Properties: the geometry decoder *)
(* ================================================================== *)

Lemma literal_starts (c : ascii) (t : string) :
  literal_start c = false -> parse_decimal (String c t) = None.
Proof. each_char c; intros H; try discriminate H; reflexivity. Qed.

Lemma literal_start_not_space (c : ascii) (t : string) :
  literal_start c = true -> ws_prefix (String c t) = None.
Proof. each_char c; intros H; try discriminate H; reflexivity. Qed.

Lemma numeral_not_padded (t : string) (r : num * string) :
  parse_decimal t = Some r -> skip_ws t = t /\ t <> EmptyString.
Proof.
  destruct t as [|c t]; [discriminate|]. intros H. split; [|discriminate].
  unfold skip_ws. cbn [String.length skip_ws_fuel].
  rewrite literal_start_not_space; [reflexivity|].
  destruct (literal_start c) eqn:E; [reflexivity|].
  rewrite (literal_starts c t E) in H. discriminate.
Qed.

Lemma numeral_not_radix (t : string) (q : Q) :
  numeral t q -> parse_radix t = None.
Proof.
  unfold numeral. destruct t as [|a [|c t]]; try reflexivity.
  - each_char a; reflexivity.
  - each_char a; try reflexivity.
    each_char c; try reflexivity; cbn; discriminate.
Qed.

(** On a numeral [parseFloat] and [Number] read the same number. *)
Lemma numeral_reads (t : string) (q : Q) :
  numeral t q -> parseFloat t = Fin q /\ Number t = Fin q.
Proof.
  intros H. destruct (numeral_not_padded t _ H) as [Ew Ht].
  unfold parseFloat, Number. rewrite Ew, (numeral_not_radix t q H).
  apply String.eqb_neq in Ht. rewrite Ht, H. split; reflexivity.
Qed.

(** ** Minimum and maximum *)

Lemma leb_refl (x : num) : x <> NaN -> JsNum.leb x x = true.
Proof.
  destruct x as [|[]|q]; try congruence; try reflexivity.
  intros _. apply Qle_bool_iff, Qle_refl.
Qed.

Lemma leb_trans (x y z : num) :
  JsNum.leb x y = true -> JsNum.leb y z = true -> JsNum.leb x z = true.
Proof.
  destruct x as [|[]|p], y as [|[]|q], z as [|[]|r]; cbn;
    try discriminate; try reflexivity.
  rewrite !Qle_bool_iff. apply Qle_trans.
Qed.

Lemma leb_total (x y : num) :
  x <> NaN -> y <> NaN -> JsNum.leb x y = false -> JsNum.leb y x = true.
Proof.
  destruct x as [|[]|p], y as [|[]|q]; cbn;
    try congruence; try reflexivity.
  intros _ _ H. apply Qle_bool_iff.
  destruct (Qlt_le_dec q p) as [L|L].
  - apply Qlt_le_weak. exact L.
  - apply Qle_bool_iff in L. congruence.
Qed.

Lemma ltb_false (x y : num) :
  x <> NaN -> y <> NaN -> JsNum.ltb x y = false -> JsNum.leb y x = true.
Proof.
  destruct x as [|[]|p], y as [|[]|q]; cbn; try congruence;
    intros _ _ H; apply negb_false_iff in H; exact H.
Qed.

Lemma ltb_true (x y : num) :
  x <> NaN -> y <> NaN -> JsNum.ltb x y = true -> JsNum.leb x y = true.
Proof.
  intros Hx Hy H. apply leb_total; try assumption.
  destruct x as [|[]|p], y as [|[]|q]; cbn in *; try congruence;
    apply negb_true_iff in H; exact H.
Qed.

Lemma fold_min2 (xs : list num) (acc : num) :
  acc <> NaN -> Forall (fun x => x <> NaN) xs ->
  let r := fold_left min2 xs acc in
  r <> NaN /\ (r = acc \/ In r xs) /\ JsNum.leb r acc = true
  /\ Forall (fun x => JsNum.leb r x = true) xs.
Proof.
  intros Ha H. revert acc Ha.
  induction H as [|x xs Hx _ IH]; intros acc Ha; cbn [fold_left].
  - repeat split; auto using leb_refl.
  - assert (Hm : min2 acc x <> NaN /\ (min2 acc x = acc \/ min2 acc x = x)
                 /\ JsNum.leb (min2 acc x) acc = true
                 /\ JsNum.leb (min2 acc x) x = true).
    { unfold min2.
      replace (is_nan acc) with false by (destruct acc; cbn; congruence).
      replace (is_nan x) with false by (destruct x; cbn; congruence).
      cbn [orb]. destruct (JsNum.ltb x acc) eqn:E.
      - repeat split; auto using leb_refl, ltb_true.
      - repeat split; auto using leb_refl, ltb_false. }
    destruct Hm as (N & C & La & Lx).
    destruct (IH (min2 acc x) N) as (N' & C' & L' & F').
    repeat split.
    + exact N'.
    + destruct C' as [->|I]; [destruct C as [->| ->]|]; cbn; auto.
    + eapply leb_trans; eassumption.
    + constructor; [eapply leb_trans; eassumption | exact F'].
Qed.

Lemma fold_max2 (xs : list num) (acc : num) :
  acc <> NaN -> Forall (fun x => x <> NaN) xs ->
  let r := fold_left max2 xs acc in
  r <> NaN /\ (r = acc \/ In r xs) /\ JsNum.leb acc r = true
  /\ Forall (fun x => JsNum.leb x r = true) xs.
Proof.
  intros Ha H. revert acc Ha.
  induction H as [|x xs Hx _ IH]; intros acc Ha; cbn [fold_left].
  - repeat split; auto using leb_refl.
  - assert (Hm : max2 acc x <> NaN /\ (max2 acc x = acc \/ max2 acc x = x)
                 /\ JsNum.leb acc (max2 acc x) = true
                 /\ JsNum.leb x (max2 acc x) = true).
    { unfold max2.
      replace (is_nan acc) with false by (destruct acc; cbn; congruence).
      replace (is_nan x) with false by (destruct x; cbn; congruence).
      cbn [orb]. destruct (JsNum.ltb acc x) eqn:E.
      - repeat split; auto using leb_refl, ltb_true.
      - repeat split; auto using leb_refl, ltb_false. }
    destruct Hm as (N & C & La & Lx).
    destruct (IH (max2 acc x) N) as (N' & C' & L' & F').
    repeat split.
    + exact N'.
    + destruct C' as [->|I]; [destruct C as [->| ->]|]; cbn; auto.
    + eapply leb_trans; eassumption.
    + constructor; [eapply leb_trans; eassumption | exact F'].
Qed.

Lemma finite_not_nan (xs : list num) :
  Forall finite xs -> Forall (fun x => x <> NaN) xs.
Proof.
  intros H. eapply Forall_impl; [|exact H].
  intros x [q ->]. discriminate.
Qed.

Lemma Math_min_least (xs : list num) :
  xs <> [] -> Forall finite xs -> least (Math_min xs) xs.
Proof.
  intros Hne Hf. unfold Math_min, least.
  destruct (fold_min2 xs (Inf false)) as (_ & C & _ & F);
    [discriminate | apply finite_not_nan; exact Hf |].
  split; [|exact F]. destruct C as [E|I]; [|exact I].
  destruct xs as [|x xs]; [congruence|]. exfalso.
  inversion Hf as [|? ? [q ->] _]; subst.
  inversion F as [|? ? L _]; subst. rewrite E in L. discriminate L.
Qed.

Lemma Math_max_greatest (xs : list num) :
  xs <> [] -> Forall finite xs -> greatest (Math_max xs) xs.
Proof.
  intros Hne Hf. unfold Math_max, greatest.
  destruct (fold_max2 xs (Inf true)) as (_ & C & _ & F);
    [discriminate | apply finite_not_nan; exact Hf |].
  split; [|exact F]. destruct C as [E|I]; [|exact I].
  destruct xs as [|x xs]; [congruence|]. exfalso.
  inversion Hf as [|? ? [q ->] _]; subst.
  inversion F as [|? ? L _]; subst. rewrite E in L. discriminate L.
Qed.

Lemma Math_min_single (x : num) : Math_min [x] = x.
Proof. destruct x as [|[]|q]; reflexivity. Qed.

Lemma Math_max_single (x : num) : Math_max [x] = x.
Proof. destruct x as [|[]|q]; reflexivity. Qed.

(** ** Decodable paths *)

Lemma no_polyline_text (s : string) :
  s <> EmptyString -> no_polyline (JStr s) = false.
Proof.
  intros H. unfold no_polyline.
  destruct (nonempty_text_kept s H) as (-> & -> & _). reflexivity.
Qed.

Lemma decodePolyline_text (s : string) :
  s <> EmptyString ->
  decodePolyline (JStr s) = map decode_point (split ";" s).
Proof.
  intros H. unfold decodePolyline. rewrite (no_polyline_text s H). reflexivity.
Qed.

Lemma calculateBounds_text (s : string) :
  s <> EmptyString ->
  calculateBounds (JStr s) =
  let points := map bounds_point (split ";" s) in
  Some {| southwest := {| lng := Math_min (map lng points);
                          lat := Math_min (map lat points) |};
          northeast := {| lng := Math_max (map lng points);
                          lat := Math_max (map lat points) |} |}.
Proof.
  intros H. unfold calculateBounds. rewrite (no_polyline_text s H). reflexivity.
Qed.

Lemma well_formed_point_reads (point : string) :
  well_formed_point point ->
  exists qa qb,
    decode_point point = (Fin qa, Fin qb)
    /\ bounds_point point = {| lng := Fin qa; lat := Fin qb |}.
Proof.
  intros (a & b & rest & qa & qb & E & Ha & Hb).
  destruct (numeral_reads a qa Ha) as [Fa Na].
  destruct (numeral_reads b qb Hb) as [Fb Nb].
  exists qa, qb. unfold decode_point, bounds_point, components. rewrite E.
  cbn [parseFloat_opt Number_opt]. rewrite Fa, Fb, Na, Nb. split; reflexivity.
Qed.

Lemma decodable_points (points : list string) :
  Forall well_formed_point points ->
  map lng (map bounds_point points) = map fst (map decode_point points)
  /\ map lat (map bounds_point points) = map snd (map decode_point points)
  /\ Forall finite (map fst (map decode_point points))
  /\ Forall finite (map snd (map decode_point points)).
Proof.
  induction 1 as [|pt pts Hpt _ (IH1 & IH2 & IH3 & IH4)]; cbn [map].
  - repeat split; constructor.
  - destruct (well_formed_point_reads pt Hpt) as (qa & qb & -> & ->).
    cbn [lng lat fst snd]. rewrite IH1, IH2.
    repeat split; constructor; try assumption; eexists; reflexivity.
Qed.

Lemma split_not_empty (sep : ascii) (s : string) : split sep s <> [].
Proof.
  destruct s as [|c s]; cbn; [discriminate|].
  destruct (Ascii.eqb c sep); [discriminate|].
  destruct (split sep s); discriminate.
Qed.

(** C8. Nothing is decoded from the empty text and it has no bounds;
    [116.1,39.1] decodes to one coordinate; the bounds of a decodable,
    non-empty path are the least and the greatest longitude and latitude
    among its decoded points, southwest taking the least and northeast
    the greatest; a path of one point has its southwest equal to its
    northeast. *)
Theorem decode_and_bounds :
  decodePolyline (JStr EmptyString) = []
  /\ calculateBounds (JStr EmptyString) = None
  /\ decodePolyline (JStr "116.1,39.1")
     = [(Fin (4084905599513395 # 35184372088832),
         Fin (5502835794693325 # 140737488355328))]
  /\ (forall s,
        s <> EmptyString -> decodable s ->
        exists b,
          calculateBounds (JStr s) = Some b
          /\ least (lng (southwest b)) (map fst (decodePolyline (JStr s)))
          /\ least (lat (southwest b)) (map snd (decodePolyline (JStr s)))
          /\ greatest (lng (northeast b)) (map fst (decodePolyline (JStr s)))
          /\ greatest (lat (northeast b)) (map snd (decodePolyline (JStr s))))
  /\ (forall s b,
        calculateBounds (JStr s) = Some b ->
        List.length (decodePolyline (JStr s)) = 1%nat ->
        southwest b = northeast b).
Proof.
  split; [reflexivity|]. split; [reflexivity|].
  split; [vm_compute; reflexivity|]. split.
  - intros s Hs Hd.
    rewrite (calculateBounds_text s Hs), (decodePolyline_text s Hs).
    destruct (decodable_points _ Hd) as (El & Ea & Fl & Fa).
    cbv zeta. rewrite El, Ea.
    assert (Nl : map fst (map decode_point (split ";" s)) <> []).
    { pose proof (split_not_empty ";" s). destruct (split ";" s);
        [congruence | discriminate]. }
    assert (Na : map snd (map decode_point (split ";" s)) <> []).
    { pose proof (split_not_empty ";" s). destruct (split ";" s);
        [congruence | discriminate]. }
    eexists. split; [reflexivity|]. cbn [southwest northeast lng lat].
    auto using Math_min_least, Math_max_greatest.
  - intros s b. destruct (String.eqb_spec s EmptyString) as [->|Hs];
      [discriminate|].
    rewrite (calculateBounds_text s Hs), (decodePolyline_text s Hs).
    cbv zeta. intros [= <-]. rewrite length_map.
    destruct (split ";" s) as [|pt [|pt' pts]]; try discriminate.
    intros _. cbn [map southwest northeast].
    rewrite !Math_min_single, !Math_max_single. reflexivity.
Qed.

(* ================================================================== *)
(** * Properties: creating routes and markers *)
(* ================================================================== *)

Lemma zero_is_falsy (v : JsVal) :
  strict_eq_zero v = true -> js_truthy v = false.
Proof.
  destruct v as [| | |[| |q]| | |]; try discriminate.
  cbn. intros ->. reflexivity.
Qed.

Lemma save_route_refused (now : clock) (conn : connection)
  (routeData : object) :
  route_accepted now routeData = false ->
  saveRouteToDB now (Some conn) routeData
  = (Rejected route_required, Some conn).
Proof.
  unfold route_accepted, route_name, saveRouteToDB. cbv zeta. intros H.
  destruct (js_truthy (default_to (obj_get routeData "name") _));
    destruct (js_truthy (obj_get routeData "waypoints"));
    destruct (js_truthy (obj_get routeData "start_lng"));
    destruct (js_truthy (obj_get routeData "end_lng"));
    try discriminate H; reflexivity.
Qed.

Lemma save_route_resolved (now : clock) (conn : connection)
  (routeData : object) (o : object) (db' : option connection) :
  saveRouteToDB now (Some conn) routeData = (Resolved o, db') ->
  route_accepted now routeData = true.
Proof.
  destruct (route_accepted now routeData) eqn:E; [reflexivity|].
  rewrite (save_route_refused now conn routeData E). discriminate.
Qed.

Lemma save_marker_refused (now : clock) (conn : connection)
  (routeId : JsVal) (markerData : object) :
  marker_accepted markerData = false ->
  saveRouteMarkerToDB now (Some conn) routeId markerData
  = (Rejected marker_required, Some conn).
Proof.
  unfold marker_accepted, saveRouteMarkerToDB. cbv zeta. intros H.
  destruct (js_truthy (obj_get markerData "lng"));
    destruct (js_truthy (obj_get markerData "lat"));
    destruct (js_truthy (obj_get markerData "name"));
    try discriminate H; reflexivity.
Qed.

(** C10. The required fields are tested for truthiness: a route whose
    [start_lng] or [end_lng] is the number zero, and a marker whose
    [lng] or [lat] is the number zero, are refused as lacking required
    fields, and the store is left as it was. *)
Theorem zero_coordinate_refused (now : clock) (conn : connection) :
  (forall routeData,
     strict_eq_zero (obj_get routeData "start_lng") = true
     \/ strict_eq_zero (obj_get routeData "end_lng") = true ->
     saveRouteToDB now (Some conn) routeData
     = (Rejected route_required, Some conn))
  /\ (forall routeId markerData,
        strict_eq_zero (obj_get markerData "lng") = true
        \/ strict_eq_zero (obj_get markerData "lat") = true ->
        saveRouteMarkerToDB now (Some conn) routeId markerData
        = (Rejected marker_required, Some conn)).
Proof.
  split.
  - intros routeData H. apply save_route_refused. unfold route_accepted.
    destruct H as [H|H]; apply zero_is_falsy in H; rewrite H;
      rewrite ?andb_false_r; reflexivity.
  - intros routeId markerData H. apply save_marker_refused.
    unfold marker_accepted.
    destruct H as [H|H]; apply zero_is_falsy in H; rewrite H;
      rewrite ?andb_false_r; reflexivity.
Qed.

Lemma saveRouteToDB_unfold (now : clock) (conn : connection)
  (routeData : object) :
  saveRouteToDB now (Some conn) routeData =
  if route_accepted now routeData then
    match insert_route now conn route_columns (route_params now routeData) with
    | Throw err => (Rejected err, Some conn)
    | Ok (conn', lastID) =>
        (Resolved (spread [("id", num_val lastID)] routeData), Some conn')
    end
  else (Rejected route_required, Some conn).
Proof.
  destruct (route_accepted now routeData) eqn:E.
  - unfold route_accepted, route_name in E.
    unfold saveRouteToDB, route_params, route_name. cbv zeta.
    repeat (apply andb_prop in E; destruct E as [E ?]).
    repeat match goal with H : js_truthy _ = true |- _ => rewrite H; clear H end.
    reflexivity.
  - apply save_route_refused. exact E.
Qed.

Lemma truthy_binds (v : JsVal) : js_truthy v = true -> bind_param v <> SNull.
Proof.
  destruct v as [| |[]|[| |q]| | |]; cbn; try discriminate.
Qed.

(** The route is stored when it is accepted and its two latitudes are
    there. *)
Lemma save_route_stores (now : clock) (conn : connection)
  (routeData : object) :
  route_accepted now routeData = true ->
  bind_param (obj_get routeData "start_lat") <> SNull ->
  bind_param (obj_get routeData "end_lat") <> SNull ->
  let id := tbl_seq (routes (content conn)) + 1 in
  saveRouteToDB now (Some conn) routeData =
  (Resolved (spread [("id", num_val id)] routeData),
   Some (with_routes conn
           {| tbl_rows := tbl_rows (routes (content conn))
                          ++ [stored_route now routeData id];
              tbl_seq := id |})).
Proof.
  intros Ha Hs He id. rewrite saveRouteToDB_unfold, Ha.
  unfold insert_route, sql_insert. fold id. fold (stored_route now routeData id).
  replace (violates_not_null routes_schema (stored_route now routeData id))
    with false; [reflexivity|].
  symmetry. unfold route_accepted in Ha.
  repeat (apply andb_prop in Ha; destruct Ha as [Ha ?]).
  repeat match goal with
         | H : js_truthy _ = true |- _ => apply truthy_binds in H
         end.
  unfold violates_not_null, routes_schema.
  cbn [existsb col col_name col_not_null andb].
  change (row_get (stored_route now routeData id) "name")
    with (bind_param (route_name now routeData)).
  change (row_get (stored_route now routeData id) "start_lng")
    with (bind_param (obj_get routeData "start_lng")).
  change (row_get (stored_route now routeData id) "start_lat")
    with (bind_param (obj_get routeData "start_lat")).
  change (row_get (stored_route now routeData id) "end_lng")
    with (bind_param (obj_get routeData "end_lng")).
  change (row_get (stored_route now routeData id) "end_lat")
    with (bind_param (obj_get routeData "end_lat")).
  destruct (bind_param (route_name now routeData)); try congruence;
    destruct (bind_param (obj_get routeData "start_lng")); try congruence;
    destruct (bind_param (obj_get routeData "start_lat")); try congruence;
    destruct (bind_param (obj_get routeData "end_lng")); try congruence;
    destruct (bind_param (obj_get routeData "end_lat")); try congruence;
    reflexivity.
Qed.

(** C5, as the code has it. A route whose [waypoints], [start_lng] or
    [end_lng] is absent, or whose [name] is given as [null] or as the
    empty text, is refused with the validation error and nothing is
    stored.  An absent [name] is not refused: the route is stored under
    a name made from the clock.  A route is stored only if [waypoints],
    [start_lng] and [end_lng] are present. *)
Theorem create_requires_fields (now : clock) (conn : connection)
  (routeData : object) :
  (obj_get routeData "waypoints" = JUndefined
   \/ obj_get routeData "start_lng" = JUndefined
   \/ obj_get routeData "end_lng" = JUndefined
   \/ obj_get routeData "name" = JNull
   \/ obj_get routeData "name" = JStr EmptyString ->
   saveRouteToDB now (Some conn) routeData
   = (Rejected route_required, Some conn))
  /\ (forall o db',
        saveRouteToDB now (Some conn) routeData = (Resolved o, db') ->
        obj_get routeData "waypoints" <> JUndefined
        /\ obj_get routeData "start_lng" <> JUndefined
        /\ obj_get routeData "end_lng" <> JUndefined)
  /\ (obj_get routeData "name" = JUndefined ->
      js_truthy (obj_get routeData "waypoints") = true ->
      js_truthy (obj_get routeData "start_lng") = true ->
      js_truthy (obj_get routeData "end_lng") = true ->
      bind_param (obj_get routeData "start_lat") <> SNull ->
      bind_param (obj_get routeData "end_lat") <> SNull ->
      exists o conn',
        saveRouteToDB now (Some conn) routeData = (Resolved o, Some conn')
        /\ exists r,
             tbl_rows (routes (content conn'))
             = tbl_rows (routes (content conn)) ++ [r]
             /\ row_get r "name"
                = SText ("路线_" ++ Z_to_string (Date_getTime now))).
Proof.
  split; [|split].
  - intros H. apply save_route_refused. unfold route_accepted, route_name.
    destruct H as [H|[H|[H|[H|H]]]]; rewrite H; cbn [js_truthy default_to];
      rewrite ?andb_false_r; reflexivity.
  - intros o db' H. apply save_route_resolved in H.
    unfold route_accepted in H.
    repeat (apply andb_prop in H; destruct H as [H ?]).
    repeat split; intros E;
      match goal with
      | T : js_truthy ?v = true |- _ => rewrite E in T; discriminate T
      end.
  - intros Hn Hw Hs He Hsl Hel.
    assert (Ha : route_accepted now routeData = true).
    { unfold route_accepted, route_name. rewrite Hn, Hw, Hs, He. reflexivity. }
    rewrite (save_route_stores now conn routeData Ha Hsl Hel).
    eexists. eexists. split; [reflexivity|].
    eexists. split; [reflexivity|].
    change (row_get (stored_route now routeData
                       (tbl_seq (routes (content conn)) + 1)) "name")
      with (bind_param (route_name now routeData)).
    unfold route_name. rewrite Hn. reflexivity.
Qed.

(* ================================================================== *)
(** * Properties: create, then fetch *)
(* ================================================================== *)

Lemma obj_get_set_other (o : object) (k k' : string) (v : JsVal) :
  k <> k' -> obj_get (obj_set o k' v) k = obj_get o k.
Proof.
  intros H. induction o as [|[k0 v0] o IH]; cbn.
  - destruct (String.eqb_spec k' k); [congruence | reflexivity].
  - destruct (String.eqb_spec k0 k') as [->|N]; cbn.
    + destruct (String.eqb_spec k' k); [congruence | reflexivity].
    + destruct (String.eqb_spec k0 k); [reflexivity | exact IH].
Qed.

Lemma obj_get_spread_other (o o' : object) (k : string) :
  includes (Object_keys o') k = false ->
  obj_get (spread o o') k = obj_get o k.
Proof.
  unfold spread. revert o.
  induction o' as [|[k' v'] o' IH]; intros o H; [reflexivity|].
  cbn in H. apply orb_false_elim in H as [N H].
  cbn [fold_left fst snd]. rewrite (IH _ H).
  apply obj_get_set_other. apply String.eqb_neq. exact N.
Qed.

Lemma find_last {A} (f : A -> bool) (xs : list A) (x : A) :
  Forall (fun y => f y = false) xs -> f x = true ->
  find f (xs ++ [x]) = Some x.
Proof.
  induction 1 as [|y ys Hy _ IH]; intros Hx; cbn.
  - rewrite Hx. reflexivity.
  - rewrite Hy. apply IH. exact Hx.
Qed.

Lemma sql_eq_of_Z (i j : Z) :
  sql_eq (SNum (of_Z i)) (SNum (of_Z j)) = (i =? j).
Proof.
  unfold sql_eq, of_Z, JsNum.leb, Qle_bool, inject_Z. cbn [Qnum Qden].
  rewrite !Z.mul_1_r.
  destruct (Z.eqb_spec i j) as [->|N].
  - rewrite Z.leb_refl. reflexivity.
  - destruct (Z.leb_spec i j), (Z.leb_spec j i); try reflexivity; lia.
Qed.

Lemma next_rowid_fresh (t : table) :
  rowids_bounded t ->
  Forall (fun r => id_is (SNum (of_Z (tbl_seq t + 1))) r = false) (tbl_rows t).
Proof.
  unfold rowids_bounded. apply Forall_impl.
  intros r (i & E & L). unfold id_is. rewrite E, sql_eq_of_Z.
  apply Z.eqb_neq. lia.
Qed.



(* ================================================================== *)
(** * Properties: deleting a route *)
(* ================================================================== *)

(** The program runs no [PRAGMA]: the connection it opens does not
    enforce foreign keys, and none of its operations changes that. *)
Lemma initDatabase_unenforced (file : option store) :
  exists conn, initDatabase file = Some conn /\ foreign_keys conn = false.
Proof. eexists. split; reflexivity. Qed.

Lemma same_enforcement_refl (db : option connection) : same_enforcement db db.
Proof. destruct db; cbn; auto. Qed.

Lemma operations_keep_enforcement (now : clock) (db : option connection)
  (id : JsVal) (o : object) :
  same_enforcement db (snd (saveRouteToDB now db o))
  /\ same_enforcement db (snd (saveRouteMarkerToDB now db id o))
  /\ same_enforcement db (snd (updateRouteInDB now db id o))
  /\ same_enforcement db (snd (deleteRouteFromDB db id)).
Proof.
  destruct db as [conn|]; [cbn [same_enforcement] | cbn; auto].
  split; [|split; [|split]].
  - rewrite saveRouteToDB_unfold.
    destruct (route_accepted now o); [|reflexivity].
    unfold insert_route.
    destruct (sql_insert _ _ _ _ _) as [[t i]|]; reflexivity.
  - unfold saveRouteMarkerToDB. cbv zeta.
    destruct (_ || _); [reflexivity|].
    unfold insert_marker.
    destruct (sql_insert _ _ _ _ _) as [[t i]|]; [|reflexivity].
    cbn [bind]. destruct (_ && _); reflexivity.
  - unfold updateRouteInDB.
    destruct (fold_left _ _ _) as [fields params].
    destruct (_ =? _)%nat; [reflexivity|].
    unfold update_route.
    destruct (sql_update _ _ _ _ _) as [[t i]|]; reflexivity.
  - unfold deleteRouteFromDB, delete_route.
    destruct (sql_delete _ _ _). reflexivity.
Qed.

(** Without enforcement a delete leaves the markers table alone. *)
Lemma delete_route_keeps_markers (conn : connection) (id : SqlVal) :
  foreign_keys conn = false ->
  route_markers (content (fst (delete_route conn id)))
  = route_markers (content conn).
Proof.
  intros H. unfold delete_route.
  destruct (sql_delete _ _ _). rewrite H. reflexivity.
Qed.

Lemma sql_eq_common (a b c : SqlVal) :
  sql_eq a c = true -> sql_eq b c = true -> sql_eq a b = true.
Proof.
  destruct a as [|x|s], b as [|y|t], c as [|z|u]; cbn; try discriminate.
  - intros H1 H2. apply andb_prop in H1 as [A B], H2 as [C D].
    apply andb_true_intro. split; eapply leb_trans; eassumption.
  - intros H1 H2. apply String.eqb_eq in H1, H2. subst.
    apply String.eqb_refl.
Qed.

Lemma filter_none {A} (f : A -> bool) (l : list A) :
  (forall x, In x l -> f x = false) -> filter f l = [].
Proof.
  induction l as [|x l IH]; intros H; [reflexivity|]. cbn.
  rewrite (H x (or_introl eq_refl)). apply IH.
  intros y Hy. apply H. right. exact Hy.
Qed.

(** With enforcement the markers of a deleted route go with it: the
    cascade is in the engine, and is reached only when the connection
    enforces foreign keys. *)
Lemma delete_route_cascades (conn : connection) (id : JsVal) :
  foreign_keys conn = true ->
  existsb (id_is (bind_param id)) (tbl_rows (routes (content conn))) = true ->
  getRouteMarkersFromDB (snd (deleteRouteFromDB (Some conn) id)) id
  = Resolved [].
Proof.
  intros Hf Hex. unfold deleteRouteFromDB, delete_route.
  destruct (sql_delete _ _ _) as [t n]. rewrite Hf.
  cbn [snd getRouteMarkersFromDB content route_markers tbl_rows].
  set (deleted := filter (id_is (bind_param id)) _).
  apply existsb_exists in Hex as (r & Hin & Hr).
  assert (Hd : In r deleted) by (apply filter_In; split; assumption).
  match goal with
  | |- Resolved (map _ (order_by_desc _ ?l)) = _ =>
      assert (E : l = []); [|rewrite E; reflexivity]
  end.
  apply filter_none. intros m Hm. apply filter_In in Hm as [_ Hm].
  apply negb_true_iff in Hm.
  destruct (sql_eq (row_get m "route_id") (bind_param id)) eqn:Em;
    [|reflexivity].
  rewrite <- Hm. symmetry. apply existsb_exists.
  exists r. split; [exact Hd|]. eapply sql_eq_common; [exact Em | exact Hr].
Qed.

(** No handle the program can hold enforces foreign keys. *)
Lemma opened_unenforced (db : option connection) :
  opened db -> exists conn, db = Some conn /\ foreign_keys conn = false.
Proof.
  assert (K : forall db db',
             same_enforcement db db' ->
             (exists conn, db = Some conn /\ foreign_keys conn = false) ->
             exists conn, db' = Some conn /\ foreign_keys conn = false).
  { intros [c|] [c'|] H (conn & E & F); cbn in H; try contradiction;
      try discriminate E.
    injection E as ->. exists c'. split; [reflexivity | congruence]. }
  induction 1 as [file|now db o _ IH|now db id o _ IH|now db id o _ IH
                  |db id _ IH].
  - apply initDatabase_unenforced.
  - apply (K db); [apply (operations_keep_enforcement now db JNull o) | exact IH].
  - apply (K db); [apply (operations_keep_enforcement now db id o) | exact IH].
  - apply (K db); [apply (operations_keep_enforcement now db id o) | exact IH].
  - apply (K db);
      [apply (operations_keep_enforcement
                {| Date_getTime := 0; CURRENT_TIMESTAMP := EmptyString |}
                db id []) | exact IH].
Qed.

(** C3, what the code does. On every handle the program can hold,
    deleting a route removes none of its markers: listing the markers of
    any route gives after the delete what it gave before. *)
Theorem markers_outlive_route (db : option connection)
  (deleted routeId : JsVal) :
  opened db ->
  getRouteMarkersFromDB (snd (deleteRouteFromDB db deleted)) routeId
  = getRouteMarkersFromDB db routeId.
Proof.
  intros H. destruct (opened_unenforced db H) as (conn & -> & F).
  pose proof (delete_route_keeps_markers conn (bind_param deleted) F) as K.
  unfold deleteRouteFromDB.
  destruct (delete_route conn (bind_param deleted)) as [conn' n].
  cbn [snd fst getRouteMarkersFromDB] in *. rewrite K. reflexivity.
Qed.

(* ================================================================== *)
(** * Properties: updating a route *)
(* ================================================================== *)

Lemma target_allowed (k : string) : allowed k = true -> target k = k.
Proof.
  unfold target. intros H.
  destruct (String.eqb_spec k "description") as [->|_]; [reflexivity|].
  destruct (String.eqb_spec k "creator") as [->|_]; [discriminate H|].
  reflexivity.
Qed.

Lemma push_fields_spec (updates : object) (keys : list string)
  (fields : list (string * rhs)) (params : list JsVal) :
  fold_left (push_field updates) keys (fields, params) =
  (fields ++ map (fun k => (target k, Placeholder)) (filter allowed keys),
   params ++ map (obj_get updates) (filter allowed keys)).
Proof.
  revert fields params.
  induction keys as [|k keys IH]; intros fields params; cbn [fold_left filter].
  - cbn [map]. rewrite !app_nil_r. reflexivity.
  - unfold push_field at 2. fold (allowed k).
    destruct (allowed k); [|apply IH].
    assert (E : (if String.eqb k "description"
                 then (fields ++ [("description", Placeholder)],
                       params ++ [obj_get updates k])
                 else if String.eqb k "creator"
                      then (fields ++ [("created_by", Placeholder)],
                            params ++ [obj_get updates k])
                      else (fields ++ [(k, Placeholder)],
                            params ++ [obj_get updates k]))
                = (fields ++ [(target k, Placeholder)],
                   params ++ [obj_get updates k])).
    { unfold target. destruct (String.eqb k "description"); [reflexivity|].
      destruct (String.eqb k "creator"); reflexivity. }
    rewrite E, IH. cbn [map]. rewrite <- !app_assoc. reflexivity.
Qed.

Lemma updateRouteInDB_unfold (now : clock) (conn : connection) (id : JsVal)
  (updates : object) :
  updateRouteInDB now (Some conn) id updates =
  match allowed_keys updates with
  | [] => (Rejected nothing_to_update, Some conn)
  | keys =>
      match update_route now conn (set_clause keys)
                         (map (obj_get updates) keys ++ [id]) with
      | Throw err => (Rejected err, Some conn)
      | Ok (conn', n) =>
          (Resolved {| changed_id := id; changes := n |}, Some conn')
      end
  end.
Proof.
  unfold updateRouteInDB. rewrite push_fields_spec. cbn [app].
  fold (allowed_keys updates).
  assert (E : map (fun k => (target k, Placeholder)) (allowed_keys updates)
              = map (fun k => (k, Placeholder)) (allowed_keys updates)).
  { apply map_ext_in. intros k Hk. unfold allowed_keys in Hk.
    apply filter_In in Hk as [_ Hk]. rewrite (target_allowed k Hk).
    reflexivity. }
  rewrite E. destruct (allowed_keys updates) as [|k keys]; reflexivity.
Qed.

Lemma keys_filter (updates : object) :
  Object_keys (filter (fun kv => allowed (fst kv)) updates)
  = allowed_keys updates.
Proof.
  unfold allowed_keys, Object_keys.
  induction updates as [|[k v] o IH]; [reflexivity|]. cbn [filter map fst].
  destruct (allowed k); cbn [map fst]; rewrite IH; reflexivity.
Qed.

Lemma obj_get_filter (updates : object) (k : string) :
  allowed k = true ->
  obj_get (filter (fun kv => allowed (fst kv)) updates) k = obj_get updates k.
Proof.
  intros H. induction updates as [|[k' v] o IH]; [reflexivity|].
  cbn [filter fst obj_get].
  destruct (String.eqb_spec k' k) as [->|N].
  - rewrite H. cbn [obj_get]. rewrite String.eqb_refl. reflexivity.
  - destruct (allowed k'); cbn [obj_get]; [|exact IH].
    apply String.eqb_neq in N. rewrite N. exact IH.
Qed.

Lemma filter_idem {A} (f : A -> bool) (l : list A) :
  filter f (filter f l) = filter f l.
Proof.
  induction l as [|x l IH]; [reflexivity|]. cbn.
  destruct (f x) eqn:E; cbn; rewrite ?E, IH; reflexivity.
Qed.

(** Only the allowed keys count: the update is the update by the
    allowed keys alone. *)
Lemma update_ignores_other_keys (now : clock) (db : option connection)
  (id : JsVal) (updates : object) :
  updateRouteInDB now db id updates
  = updateRouteInDB now db id (filter (fun kv => allowed (fst kv)) updates).
Proof.
  destruct db as [conn|]; [|reflexivity].
  rewrite !updateRouteInDB_unfold.
  assert (K : allowed_keys (filter (fun kv => allowed (fst kv)) updates)
              = allowed_keys updates).
  { unfold allowed_keys at 1. rewrite keys_filter. unfold allowed_keys.
    apply filter_idem. }
  rewrite K.
  assert (V : map (obj_get (filter (fun kv => allowed (fst kv)) updates))
                  (allowed_keys updates)
              = map (obj_get updates) (allowed_keys updates)).
  { apply map_ext_in. intros k Hk. apply obj_get_filter.
    unfold allowed_keys in Hk. apply filter_In in Hk as [_ Hk]. exact Hk. }
  destruct (allowed_keys updates) as [|k keys]; [reflexivity|].
  cbv zeta. rewrite V. reflexivity.
Qed.

(** ** The rows after an update *)

Lemma row_get_set_other (r : row) (c c' : string) (v : SqlVal) :
  c <> c' -> row_get (row_set r c' v) c = row_get r c.
Proof.
  intros H. induction r as [|[k w] r IH]; [reflexivity|]. cbn.
  destruct (String.eqb_spec k c') as [->|N]; cbn.
  - destruct (String.eqb_spec c' c); [congruence | reflexivity].
  - destruct (String.eqb_spec k c); [reflexivity | exact IH].
Qed.

Lemma row_get_set_same (r : row) (c : string) (v : SqlVal) :
  In c (map fst r) -> row_get (row_set r c v) c = v.
Proof.
  induction r as [|[k w] r IH]; [intros []|]. cbn. intros H.
  destruct (String.eqb_spec k c) as [->|N]; cbn.
  - rewrite String.eqb_refl. reflexivity.
  - apply String.eqb_neq in N. rewrite N. apply IH.
    destruct H as [H|H]; [|exact H]. apply String.eqb_neq in N. congruence.
Qed.

Lemma row_set_keys (r : row) (c : string) (v : SqlVal) :
  map fst (row_set r c v) = map fst r.
Proof.
  induction r as [|[k w] r IH]; [reflexivity|]. cbn.
  destruct (String.eqb k c); cbn; [reflexivity|]. rewrite IH. reflexivity.
Qed.

Lemma apply_set_keys (now : clock) (sets : list (string * rhs))
  (params : list SqlVal) (r : row) :
  map fst (fst (apply_set now sets params r)) = map fst r.
Proof.
  revert params r.
  induction sets as [|[c []] sets IH]; intros params r; cbn [apply_set].
  - reflexivity.
  - destruct params; rewrite IH; apply row_set_keys.
  - rewrite IH. apply row_set_keys.
Qed.

Lemma apply_set_other (now : clock) (sets : list (string * rhs))
  (params : list SqlVal) (r : row) (c : string) :
  Forall (fun s => fst s <> c) sets ->
  row_get (fst (apply_set now sets params r)) c = row_get r c.
Proof.
  intros H. revert params r.
  induction H as [|[c' k] sets Hc _ IH]; intros params r; cbn [apply_set].
  - reflexivity.
  - cbn in Hc. destruct k; [destruct params|];
      rewrite IH; apply row_get_set_other; congruence.
Qed.

Lemma apply_set_last (now : clock) (sets : list (string * rhs))
  (params : list SqlVal) (r : row) (c : string) :
  In c (map fst r) ->
  row_get (fst (apply_set now (sets ++ [(c, CurrentTimestamp)]) params r)) c
  = SText (CURRENT_TIMESTAMP now).
Proof.
  revert params r.
  induction sets as [|[c' k] sets IH]; intros params r Hc; cbn [apply_set app].
  - cbn. apply row_get_set_same. exact Hc.
  - destruct k; [destruct params|]; apply IH; rewrite row_set_keys; exact Hc.
Qed.

Lemma allowed_has_column (k : string) :
  allowed k = true -> has_column routes_schema k = true.
Proof.
  unfold allowed, includes. intros H.
  apply existsb_exists in H as (x & Hin & E).
  apply String.eqb_eq in E. subst x. cbn in Hin.
  repeat (destruct Hin as [<-|Hin]; [reflexivity|]). contradiction.
Qed.

Lemma allowed_not_stamp (k : string) : allowed k = true -> k <> "updated_at".
Proof. intros H ->. discriminate H. Qed.

Lemma set_clause_columns (keys : list string) :
  Forall (fun k => allowed k = true) keys ->
  forallb (fun s => has_column routes_schema (fst s)) (set_clause keys) = true.
Proof.
  intros H. unfold set_clause. rewrite forallb_app. apply andb_true_intro.
  split; [|reflexivity]. apply forallb_forall. intros s Hs.
  apply in_map_iff in Hs as (k & <- & Hk). apply allowed_has_column.
  rewrite Forall_forall in H. apply H. exact Hk.
Qed.

Lemma set_clause_placeholders (keys : list string) :
  List.length (filter (fun s : string * rhs =>
                         match snd s with
                         | Placeholder => true
                         | CurrentTimestamp => false
                         end) (set_clause keys))
  = List.length keys.
Proof.
  unfold set_clause. rewrite filter_app. cbn [filter snd]. rewrite app_nil_r.
  induction keys as [|k keys IH]; [reflexivity|]. cbn. rewrite IH. reflexivity.
Qed.

Lemma nth_after_map {A B} (f : A -> B) (xs : list A) (x : A) (d : B) :
  nth (List.length xs) (map f (xs ++ [x])) d = f x.
Proof. induction xs as [|y ys IH]; [reflexivity | exact IH]. Qed.

(** What [UPDATE routes SET ... WHERE id = ?] does with the statement
    [updateRouteInDB] builds. *)
Lemma sql_update_built (now : clock) (t : table) (keys : list string)
  (values : list JsVal) (id : JsVal) :
  Forall (fun k => allowed k = true) keys ->
  List.length values = List.length keys ->
  sql_update routes_schema now t (set_clause keys) (values ++ [id]) =
  let rows :=
    map (fun r => if id_is (bind_param id) r
                  then fst (apply_set now (set_clause keys)
                                      (map bind_param (values ++ [id])) r)
                  else r)
        (tbl_rows t) in
  if existsb (fun r => id_is (bind_param id) r
                       && violates_not_null routes_schema r) rows
  then Throw constraint_not_null
  else Ok ({| tbl_rows := rows; tbl_seq := tbl_seq t |},
           Z.of_nat (List.length (filter (id_is (bind_param id))
                                         (tbl_rows t)))).
Proof.
  intros Ha Hl. unfold sql_update.
  rewrite set_clause_placeholders, <- Hl, nth_after_map.
  rewrite (set_clause_columns keys Ha). reflexivity.
Qed.

Lemma allowed_keys_allowed (updates : object) :
  Forall (fun k => allowed k = true) (allowed_keys updates).
Proof.
  apply Forall_forall. intros k Hk. unfold allowed_keys in Hk.
  apply filter_In in Hk as [_ Hk]. exact Hk.
Qed.

(** An update applies the allowed keys only: it is the update by
    the allowed keys alone, and a column that no submitted allowed key
    names keeps its value, [updated_at] apart.  Every row the update
    applies to has [updated_at] stamped.  The update is refused with the
    validation error exactly when no submitted key is allowed.  On an id
    that no row has, an update with an allowed key resolves with zero
    changes and leaves the store as it was. *)
Lemma update_frame (now : clock) (conn : connection) (id : JsVal)
  (updates : object) :
  updateRouteInDB now (Some conn) id updates
  = updateRouteInDB now (Some conn) id
      (filter (fun kv => allowed (fst kv)) updates)
  /\ (forall res conn',
        updateRouteInDB now (Some conn) id updates
        = (Resolved res, Some conn') ->
        (forall c,
           ~ In c (allowed_keys updates) -> c <> "updated_at" ->
           map (fun r => row_get r c) (tbl_rows (routes (content conn')))
           = map (fun r => row_get r c) (tbl_rows (routes (content conn))))
        /\ (conforms (routes (content conn)) ->
            Forall (fun r => id_is (bind_param id) r = true ->
                             row_get r "updated_at"
                             = SText (CURRENT_TIMESTAMP now))
                   (tbl_rows (routes (content conn')))))
  /\ (fst (updateRouteInDB now (Some conn) id updates)
      = Rejected nothing_to_update
      <-> allowed_keys updates = [])
  /\ (allowed_keys updates <> [] ->
      Forall (fun r => id_is (bind_param id) r = false)
             (tbl_rows (routes (content conn))) ->
      updateRouteInDB now (Some conn) id updates
      = (Resolved {| changed_id := id; changes := 0 |}, Some conn)).
Proof.
  split; [apply update_ignores_other_keys|].
  rewrite updateRouteInDB_unfold.
  pose proof (allowed_keys_allowed updates) as Ha.
  destruct (allowed_keys updates) as [|k keys] eqn:Ek.
  { split; [intros res conn' H; discriminate H|].
    split; [split; reflexivity|]. intros H. congruence. }
  cbv zeta. unfold update_route.
  rewrite (sql_update_built now _ (k :: keys) _ id Ha)
    by (rewrite length_map; reflexivity).
  cbv zeta.
  set (idv := bind_param id).
  set (sets := set_clause (k :: keys)).
  set (bound := map bind_param _).
  set (rows := tbl_rows (routes (content conn))).
  set (rows' := map _ rows).
  split; [|split].
  - intros res conn'.
    destruct (existsb _ rows'); cbn [bind]; [intros H; discriminate H|].
    cbn [fst snd]. intros [= _ <-].
    cbn [with_routes content routes tbl_rows]. split.
    + intros c Hc Hu. unfold rows'. rewrite map_map. apply map_ext.
      intros r. destruct (id_is idv r); [|reflexivity].
      apply apply_set_other. unfold sets, set_clause.
      apply Forall_app. split.
      * apply Forall_forall. intros s Hs.
        apply in_map_iff in Hs as (k' & <- & Hk'). cbn. congruence.
      * repeat constructor. cbn. congruence.
    + intros Hconf. unfold rows'. apply Forall_forall. intros r' Hr'.
      apply in_map_iff in Hr' as (r & <- & Hr).
      destruct (id_is idv r) eqn:Er; [|congruence].
      intros _. unfold sets, set_clause. apply apply_set_last.
      unfold conforms in Hconf. rewrite Forall_forall in Hconf.
      rewrite (Hconf r Hr). cbn. tauto.
  - split; [|discriminate].
    destruct (existsb _ rows'); cbn; discriminate.
  - intros _ Hnone.
    assert (E : rows' = rows).
    { unfold rows'. rewrite <- (map_id rows) at 2. apply map_ext_in.
      intros r Hr. rewrite Forall_forall in Hnone.
      fold rows in Hnone. rewrite (Hnone r Hr). reflexivity. }
    rewrite E.
    replace (existsb _ rows) with false.
    2:{ symmetry. apply not_true_iff_false. intros H.
        apply existsb_exists in H as (r & Hr & H).
        rewrite Forall_forall in Hnone. fold rows in Hnone.
        rewrite (Hnone r Hr) in H. discriminate H. }
    cbn [bind fst snd]. rewrite filter_none.
    2:{ rewrite Forall_forall in Hnone. exact Hnone. }
    unfold rows. destruct conn as [fk [[rs sq] mk]]. reflexivity.
Qed.

(* ================================================================== *)
(** * Properties: searching *)
(* ================================================================== *)

Lemma filter_true {A} (l : list A) : filter (fun _ => true) l = l.
Proof. induction l as [|x l IH]; [reflexivity|]. cbn. rewrite IH. reflexivity. Qed.

Lemma as_integer_num (z : Z) : as_integer (bind_param (num_val z)) = z.
Proof.
  unfold num_val, of_Z, bind_param, as_integer, Qfloor, inject_Z.
  cbn [Qnum Qden]. apply Z.div_1_r.
Qed.

(** The search, statement by statement. *)
Lemma searchRoutesFromDB_unfold (conn : connection) (f : filters) :
  searchRoutesFromDB (Some conn) f =
  let kw := keyword_of f in
  let pattern := JStr ("%" ++ kw ++ "%") in
  let patterns := if with_keyword kw
                  then [pattern; pattern; pattern; pattern; pattern] else [] in
  let columns := if with_keyword kw then search_columns else [] in
  let count := ({| q_count := true; q_like := columns; q_page := false |},
                patterns) in
  let data := ({| q_count := false; q_like := columns; q_page := true |},
               patterns ++ [num_val (limit_of f);
                            num_val ((page_of f - 1) * limit_of f)]) in
  let total := Z.of_nat (List.length (matching_routes conn kw)) in
  if total =? 0
  then (Resolved {| found_routes := []; found_total := 0;
                    found_page := page_of f; found_limit := limit_of f |},
        [count])
  else (Resolved {| found_routes :=
                      map found_of_row
                        (map row_object
                           (limit_offset (limit_of f)
                              ((page_of f - 1) * limit_of f)
                              (order_by_desc ["created_at"]
                                 (matching_routes conn kw))));
                    found_total := total;
                    found_page := page_of f; found_limit := limit_of f |},
        [count; data]).
Proof.
  unfold searchRoutesFromDB, matching_routes, keyword_matches.
  fold (keyword_of f) (page_of f) (limit_of f).
  fold (with_keyword (keyword_of f)).
  cbv zeta.
  destruct (with_keyword (keyword_of f)).
  - unfold select_count, select_all, matching, add_where, add_page.
    cbn [q_like q_count q_page search_columns app map zip existsb fst snd
         List.length skipn nth bind_param].
    rewrite !as_integer_num. reflexivity.
  - unfold select_count, select_all, matching, add_where, add_page.
    cbn [q_like q_count q_page app map zip existsb fst snd
         List.length skipn nth bind_param].
    rewrite !as_integer_num, filter_true. reflexivity.
Qed.







(* ================================================================== *)
(** * Further properties: the normaliser *)
(* ================================================================== *)

Lemma after_gt_shorter (s rest : string) :
  after_gt s = Some rest -> (String.length rest < String.length s)%nat.
Proof.
  revert rest. induction s as [|c s IH]; intros rest; cbn; [discriminate|].
  destruct (Ascii.eqb c ">").
  - intros [= <-]. lia.
  - intros H. apply IH in H. lia.
Qed.

Lemma strip_keeps_no_gt (n : nat) (s : string) :
  after_gt s = None -> after_gt (strip_tags_fuel n s) = None.
Proof.
  revert s. induction n as [|n IH]; intros s H; [exact H|].
  destruct s as [|c s]; [reflexivity|]. cbn in H. cbn [strip_tags_fuel].
  destruct (Ascii.eqb c ">") eqn:Eg; [discriminate|].
  destruct (Ascii.eqb c "<").
  - rewrite H. cbn. rewrite Eg. apply IH. exact H.
  - cbn. rewrite Eg. apply IH. exact H.
Qed.

Lemma strip_tags_fuel_no_tag (n : nat) (s : string) :
  (String.length s <= n)%nat -> has_tag (strip_tags_fuel n s) = false.
Proof.
  revert s. induction n as [|n IH]; intros s Hn.
  - destruct s; [reflexivity | cbn in Hn; lia].
  - destruct s as [|c s]; [reflexivity|]. cbn in Hn. cbn [strip_tags_fuel].
    destruct (Ascii.eqb c "<") eqn:El.
    + destruct (after_gt s) as [rest|] eqn:Ea.
      * apply IH. apply after_gt_shorter in Ea. lia.
      * cbn [has_tag]. rewrite (strip_keeps_no_gt n s Ea), andb_false_r.
        apply IH. lia.
    + cbn [has_tag]. rewrite El. apply IH. lia.
Qed.

Lemma strip_tags_fuel_fixed (n : nat) (s : string) :
  has_tag s = false -> strip_tags_fuel n s = s.
Proof.
  revert s. induction n as [|n IH]; intros s H; [reflexivity|].
  destruct s as [|c s]; [reflexivity|]. cbn in H. cbn [strip_tags_fuel].
  apply orb_false_elim in H as [Hc Hs].
  destruct (Ascii.eqb c "<").
  - destruct (after_gt s); [discriminate Hc|]. rewrite (IH s Hs). reflexivity.
  - rewrite (IH s Hs). reflexivity.
Qed.

(** X1. The instruction of a plan step holds no tag, and an instruction
    that held none is returned as it was. *)
Theorem instruction_has_no_tag (st : Step) (ps : PlanStep) :
  parse_step st = Ok ps ->
  has_tag (instruction ps) = false
  /\ (forall text,
        step_instruction st = JStr text -> has_tag text = false ->
        instruction ps = text).
Proof.
  unfold parse_step.
  destruct (step_instruction st) as [| | | |text| |] eqn:E; try discriminate.
  intros [= <-]. cbn [instruction]. unfold strip_tags. split.
  - apply strip_tags_fuel_no_tag. lia.
  - intros t [= <-] H. apply strip_tags_fuel_fixed. exact H.
Qed.

Lemma decodePolyline_empty_iff (v : JsVal) :
  decodePolyline v = [] <-> calculateBounds v = None.
Proof.
  unfold decodePolyline, calculateBounds.
  destruct (no_polyline v); [split; reflexivity|].
  destruct v as [| | | |s| |]; try (split; reflexivity).
  pose proof (split_not_empty ";" s) as N.
  destruct (split ";" s) as [|pt pts]; [congruence|].
  cbn [map]. split; discriminate.
Qed.

(** X2. A plan has bounds exactly when it has geometry: its polyline is
    empty if and only if its bounds are [null]. *)
Theorem bounds_iff_geometry (data : Response) (plan : RoutePlan) :
  parseRealRouteData data = Ok plan ->
  (plan_polyline plan = [] <-> plan_bounds plan = None).
Proof.
  unfold parseRealRouteData.
  destruct (route data) as [r|]; [|discriminate].
  destruct (paths r) as [[|path rest]|]; try discriminate.
  destruct (aggregatePolyline path) as [agg|]; [|discriminate]. cbn [bind].
  destruct (steps_of path) as [raw|]; [|discriminate]. cbn [bind].
  destruct (mapM parse_step raw); [|discriminate]. cbn [bind].
  intros [= <-]. cbn [plan_polyline plan_bounds].
  apply decodePolyline_empty_iff.
Qed.

Lemma fold_min2_nan (xs : list num) : fold_left min2 xs NaN = NaN.
Proof. induction xs as [|x xs IH]; [reflexivity | exact IH]. Qed.

Lemma fold_max2_nan (xs : list num) : fold_left max2 xs NaN = NaN.
Proof. induction xs as [|x xs IH]; [reflexivity | exact IH]. Qed.

Lemma min2_nan (acc : num) : min2 acc NaN = NaN.
Proof. unfold min2. cbn. rewrite orb_true_r. reflexivity. Qed.

Lemma max2_nan (acc : num) : max2 acc NaN = NaN.
Proof. unfold max2. cbn. rewrite orb_true_r. reflexivity. Qed.

Lemma Math_min_max_nan (xs : list num) :
  In NaN xs -> Math_min xs = NaN /\ Math_max xs = NaN.
Proof.
  unfold Math_min, Math_max. generalize (Inf false), (Inf true).
  induction xs as [|x xs IH]; intros a b; [intros []|].
  intros [->|H]; cbn [fold_left].
  - rewrite min2_nan, max2_nan, fold_min2_nan, fold_max2_nan. split; reflexivity.
  - apply IH. exact H.
Qed.

(** X3. One point that does not read as a number spoils the bounds: if
    the longitude of some point of a path is not a number, both
    longitudes of the bounds are [NaN], and likewise for a latitude that
    is not a number or is missing for want of a comma. *)
Theorem bad_point_spoils_bounds (s point : string) :
  s <> EmptyString ->
  In point (split ";" s) ->
  exists b,
    calculateBounds (JStr s) = Some b
    /\ (Number (fst (components point)) = NaN ->
        lng (southwest b) = NaN /\ lng (northeast b) = NaN)
    /\ (Number_opt (snd (components point)) = NaN ->
        lat (southwest b) = NaN /\ lat (northeast b) = NaN)
    /\ (split "," point = [point] ->
        lat (southwest b) = NaN /\ lat (northeast b) = NaN).
Proof.
  intros Hs Hin. rewrite (calculateBounds_text s Hs). cbv zeta.
  eexists. split; [reflexivity|]. cbn [southwest northeast lng lat].
  assert (Hb : In (bounds_point point) (map bounds_point (split ";" s)))
    by (apply in_map; exact Hin).
  assert (Hlat : Number_opt (snd (components point)) = NaN ->
                 Math_min (map lat (map bounds_point (split ";" s))) = NaN
                 /\ Math_max (map lat (map bounds_point (split ";" s))) = NaN).
  { intros E. apply Math_min_max_nan. rewrite <- E.
    replace (Number_opt (snd (components point)))
      with (lat (bounds_point point))
      by (unfold bounds_point; destruct (components point); reflexivity).
    apply in_map. exact Hb. }
  split; [|split; [exact Hlat|]].
  - intros E. apply Math_min_max_nan. rewrite <- E.
    replace (Number (fst (components point)))
      with (lng (bounds_point point))
      by (unfold bounds_point; destruct (components point); reflexivity).
    apply in_map. exact Hb.
  - intros E. apply Hlat. unfold components. rewrite E. reflexivity.
Qed.

(* ================================================================== *)
(** * Further properties: the tables over time *)
(* ================================================================== *)

Lemma distinct_after_filter (keep : row -> bool) (c : string)
  (rows : list row) :
  NoDup (map (fun r => row_get r c) rows) ->
  NoDup (map (fun r => row_get r c) (filter keep rows)).
Proof.
  intros D. induction rows as [|r rows IH]; [constructor|].
  cbn [map] in D. inversion D as [|? ? Hr Hrows]; subst.
  cbn [filter]. destruct (keep r); [|apply IH, Hrows].
  cbn [map]. constructor; [|apply IH, Hrows].
  intros Hin. apply Hr.
  apply in_map_iff in Hin. destruct Hin as [r' [E Hr']].
  apply filter_In in Hr'. apply in_map_iff. exists r'. tauto.
Qed.

Lemma filter_sound (schema : list column) (t : table) (p : row -> bool) :
  table_sound schema t ->
  table_sound schema {| tbl_rows := filter p (tbl_rows t);
                        tbl_seq := tbl_seq t |}.
Proof.
  intros [Hc Hn Hb Hd].
  assert (Hsub : forall (P : row -> Prop),
             Forall P (tbl_rows t) -> Forall P (filter p (tbl_rows t))).
  { intros P HP. apply Forall_forall. intros r Hr.
    apply filter_In in Hr. rewrite Forall_forall in HP. apply HP, Hr. }
  split; cbn.
  - apply Hsub, Hc.
  - apply Hsub, Hn.
  - unfold rowids_bounded in *. cbn. apply Hsub, Hb.
  - apply distinct_after_filter, Hd.
Qed.

Lemma sql_delete_sound (schema : list column) (t : table) (c : string)
  (v : SqlVal) :
  table_sound schema t -> table_sound schema (fst (sql_delete t c v)).
Proof. intros H. unfold sql_delete. cbn. apply filter_sound, H. Qed.

Lemma sql_insert_sound (schema : list column) (now : clock) (t t' : table)
  (columns : list string) (params : list JsVal) (id : Z) :
  table_sound schema t ->
  sql_insert schema now t columns params = Ok (t', id) ->
  table_sound schema t' /\ id = tbl_seq t + 1 /\ tbl_seq t' = id.
Proof.
  intros [Hc Hn Hb Hd]. unfold sql_insert.
  destruct (violates_not_null schema _) eqn:V; [discriminate|].
  intros E. injection E as <- <-. cbn.
  split; [|split; reflexivity].
  split; cbn.
  - apply Forall_app. split; [exact Hc|].
    constructor; [|constructor]. cbn. rewrite map_map. reflexivity.
  - apply Forall_app. split; [exact Hn|].
    constructor; [exact V|constructor].
  - unfold rowids_bounded in *. cbn. apply Forall_app. split.
    + eapply Forall_impl; [|exact Hb]. cbn.
      intros r [i [Hi Hle]]. exists i. split; [exact Hi|lia].
    + constructor; [|constructor].
      exists (tbl_seq t + 1). split; [reflexivity|lia].
  - rewrite map_app. cbn.
    apply NoDup_app; [exact Hd|repeat constructor; intros []|].
    intros v Hv [<-|[]].
    apply in_map_iff in Hv. destruct Hv as [r [E Hr]].
    unfold rowids_bounded in Hb. rewrite Forall_forall in Hb.
    destruct (Hb r Hr) as [i [Hi Hle]].
    rewrite Hi in E. unfold row_get in E. cbn in E.
    injection E as E. lia.
Qed.

Lemma sql_update_sound (schema : list column) (now : clock) (t t' : table)
  (sets : list (string * rhs)) (params : list JsVal) (n : Z) :
  has_column schema "id" = false ->
  table_sound schema t ->
  sql_update schema now t sets params = Ok (t', n) ->
  table_sound schema t' /\ tbl_seq t' = tbl_seq t.
Proof.
  intros Hid [Hc Hn Hb Hd]. unfold sql_update.
  set (id := nth _ (map bind_param params) SNull).
  destruct (forallb _ sets) eqn:Hcols; cbn [negb]; [|discriminate].
  set (rows := map _ (tbl_rows t)).
  destruct (existsb _ rows) eqn:Hnull; [discriminate|].
  intros E. injection E as <- <-. cbn. split; [|reflexivity].
  assert (Hsets : Forall (fun s : string * rhs => fst s <> "id") sets).
  { apply Forall_forall. intros s Hs E.
    rewrite forallb_forall in Hcols. specialize (Hcols s Hs).
    rewrite E in Hcols. congruence. }
  assert (Hids : map (fun r => row_get r "id") rows
                 = map (fun r => row_get r "id") (tbl_rows t)).
  { unfold rows. rewrite map_map. apply map_ext. intros r.
    destruct (id_is id r); [|reflexivity].
    apply apply_set_other, Hsets. }
  split; cbn.
  - unfold rows. apply Forall_forall. intros r' Hr'.
    apply in_map_iff in Hr'. destruct Hr' as [r [<- Hr]].
    rewrite Forall_forall in Hc.
    destruct (id_is id r); [rewrite apply_set_keys|]; apply Hc, Hr.
  - apply Forall_forall. intros r' Hr'.
    assert (Hex := Hnull).
    apply Bool.not_true_iff_false in Hex.
    destruct (id_is id r' && violates_not_null schema r') eqn:Hv.
    { exfalso. apply Hex. apply existsb_exists. exists r'. tauto. }
    apply Bool.andb_false_iff in Hv. destruct Hv as [Hv|Hv]; [|exact Hv].
    unfold rows in Hr'.
    apply in_map_iff in Hr'. destruct Hr' as [r [E Hr]].
    rewrite Forall_forall in Hn.
    destruct (id_is id r) eqn:Hr0.
    + exfalso. subst r'. unfold id_is in Hv, Hr0.
      rewrite apply_set_other in Hv by exact Hsets. congruence.
    + subst r'. apply Hn, Hr.
  - unfold rowids_bounded in *. cbn.
    apply Forall_forall. intros r' Hr'.
    assert (Hin : In (row_get r' "id") (map (fun r => row_get r "id") rows))
      by (apply in_map_iff; eauto).
    rewrite Hids in Hin. apply in_map_iff in Hin.
    destruct Hin as [r [E Hr]]. rewrite <- E.
    rewrite Forall_forall in Hb. apply Hb, Hr.
  - rewrite Hids. exact Hd.
Qed.

Lemma with_routes_sound (conn : connection) (t : table) :
  table_sound routes_schema t -> sound conn -> sound (with_routes conn t).
Proof. intros Ht [_ Hm]. split; [exact Ht|exact Hm]. Qed.

Lemma with_markers_sound (conn : connection) (t : table) :
  table_sound route_markers_schema t -> sound conn ->
  sound (with_markers conn t).
Proof. intros Ht [Hr _]. split; [exact Hr|exact Ht]. Qed.

Lemma carried_refl (db : option connection) : carried db db.
Proof. destruct db as [conn|]; cbn; [split; [tauto|lia]|exact I]. Qed.

Lemma save_route_carried (now : clock) (db : option connection) (o : object) :
  carried db (snd (saveRouteToDB now db o)).
Proof.
  destruct db as [conn|]; [|exact I].
  rewrite saveRouteToDB_unfold.
  destruct (route_accepted now o); [|apply (carried_refl (Some conn))].
  unfold insert_route.
  destruct (sql_insert routes_schema now (routes (content conn)) route_columns
              (route_params now o)) as [[t' id]|e] eqn:E;
    cbn; [|split; [tauto|lia]].
  split.
  - intros S. apply with_routes_sound; [|exact S].
    eapply sql_insert_sound; [apply S|exact E].
  - unfold sql_insert in E.
    destruct (violates_not_null _ _); [discriminate|].
    injection E as <- <-. cbn. lia.
Qed.

Lemma update_route_carried (now : clock) (db : option connection)
  (id : JsVal) (o : object) :
  carried db (snd (updateRouteInDB now db id o)).
Proof.
  destruct db as [conn|]; [|exact I].
  unfold updateRouteInDB.
  destruct (fold_left _ _ _) as [fields params].
  destruct (_ =? _)%nat; [apply (carried_refl (Some conn))|].
  unfold update_route.
  destruct (sql_update routes_schema now (routes (content conn)) _ _)
    as [[t' n]|e] eqn:E; cbn; [|split; [tauto|lia]].
  assert (Hseq : tbl_seq t' = tbl_seq (routes (content conn))).
  { unfold sql_update in E.
    destruct (negb _); [discriminate|].
    destruct (existsb _ _); [discriminate|].
    injection E as <- <-. reflexivity. }
  split; [|lia].
  intros S. apply with_routes_sound; [|exact S].
  eapply sql_update_sound; [reflexivity|apply S|exact E].
Qed.

Lemma delete_route_carried (db : option connection) (id : JsVal) :
  carried db (snd (deleteRouteFromDB db id)).
Proof.
  destruct db as [conn|]; [|exact I].
  unfold deleteRouteFromDB, delete_route, sql_delete. cbn.
  split; [|lia].
  intros [Sr Sm]. split; cbn.
  - apply filter_sound, Sr.
  - destruct (foreign_keys conn); [apply filter_sound, Sm|exact Sm].
Qed.

Lemma save_marker_carried (now : clock) (db : option connection)
  (id : JsVal) (o : object) :
  carried db (snd (saveRouteMarkerToDB now db id o)).
Proof.
  destruct db as [conn|]; [|exact I].
  unfold saveRouteMarkerToDB.
  destruct (_ || _); [apply (carried_refl (Some conn))|].
  unfold insert_marker.
  destruct (sql_insert route_markers_schema now _ _ _) as [[t' n]|e] eqn:E;
    cbn; [|split; [tauto|lia]].
  destruct (_ && _); cbn; [split; [tauto|lia]|].
  split; [|lia].
  intros S. apply with_markers_sound; [|exact S].
  eapply sql_insert_sound; [apply S|exact E].
Qed.

Lemma update_marker_carried (now : clock) (db : option connection)
  (id : JsVal) (o : object) :
  carried db (snd (updateRouteMarkerInDB now db id o)).
Proof.
  destruct db as [conn|]; [|exact I].
  unfold updateRouteMarkerInDB.
  destruct (fold_left _ _ _) as [fields params].
  destruct (_ =? _)%nat; [apply (carried_refl (Some conn))|].
  unfold update_marker.
  destruct (sql_update route_markers_schema now _ _ _)
    as [[t' n]|e] eqn:E; cbn; [|split; [tauto|lia]].
  split; [|lia].
  intros S. apply with_markers_sound; [|exact S].
  eapply sql_update_sound; [reflexivity|apply S|exact E].
Qed.

Lemma delete_marker_carried (db : option connection) (id : JsVal) :
  carried db (snd (deleteRouteMarkerFromDB db id)).
Proof.
  destruct db as [conn|]; [|exact I].
  unfold deleteRouteMarkerFromDB, sql_delete. cbn.
  split; [|lia].
  intros S. apply with_markers_sound; [|exact S].
  apply filter_sound, S.
Qed.

Lemma write_carried (db db' : option connection) :
  write db db' -> carried db db'.
Proof.
  intros [now db0 o|now db0 id o|db0 id|now db0 id o|now db0 id o|db0 id].
  - apply save_route_carried.
  - apply update_route_carried.
  - apply delete_route_carried.
  - apply save_marker_carried.
  - apply update_marker_carried.
  - apply delete_marker_carried.
Qed.

Lemma later_carried (db db' : option connection) :
  later db db' -> carried db db'.
Proof.
  induction 1 as [|db1 db2 _ IH W]; [apply carried_refl|].
  apply write_carried in W.
  destruct db as [c|], db1 as [c1|], db2 as [c2|]; cbn in *;
    try contradiction; try exact I.
  destruct IH as [S1 L1], W as [S2 L2]. split; [tauto|lia].
Qed.

Lemma new_database_sound : sound {| foreign_keys := false;
                                    content := createTables None |}.
Proof.
  split; split; cbn; try constructor.
Qed.

Lemma sound_kept (db db' : option connection) (conn : connection) :
  later db db' -> db = Some conn -> sound conn ->
  exists conn', db' = Some conn' /\ sound conn'.
Proof.
  intros L -> S. apply later_carried in L.
  destruct db' as [conn'|]; cbn in L; [|contradiction].
  exists conn'. split; [reflexivity|]. apply L, S.
Qed.

(** X4.  Every handle the program reaches from a new database file, by
    any sequence of writes of the store module, is a connection whose two
    tables keep what their schemas promise: each row has the schema's
    columns, no [NOT NULL] column holds [NULL], no rowid exceeds the
    table's sequence, and no two rows share a rowid. *)
Theorem reachable_store_sound (db : option connection) :
  later (initDatabase None) db -> exists conn, db = Some conn /\ sound conn.
Proof.
  intros L.
  exact (sound_kept _ _ _ L eq_refl new_database_sound).
Qed.

Lemma hits_at_most_one (schema : list column) (t : table) (v : SqlVal) :
  table_sound schema t ->
  (List.length (filter (id_is v) (tbl_rows t)) <= 1)%nat.
Proof.
  intros [_ _ Hb Hd]. unfold rowids_bounded in Hb.
  induction (tbl_rows t) as [|r l IH]; cbn; [lia|].
  inversion Hb as [|? ? [i [Hi _]] Hb']; subst.
  cbn in Hd. inversion Hd as [|? ? Hr Hd']; subst.
  destruct (id_is v r) eqn:Hv; [|apply IH; assumption].
  rewrite filter_none; [cbn; lia|].
  intros r' Hr'. destruct (id_is v r') eqn:Hv'; [exfalso|reflexivity].
  rewrite Forall_forall in Hb'. destruct (Hb' r' Hr') as [j [Hj _]].
  unfold id_is in Hv, Hv'.
  pose proof (sql_eq_common _ _ _ Hv Hv') as E.
  rewrite Hi, Hj, sql_eq_of_Z in E. apply Z.eqb_eq in E. subst j.
  apply Hr. rewrite Hi, <- Hj. apply in_map_iff. eauto.
Qed.

Lemma sql_update_changes (schema : list column) (now : clock) (t t' : table)
  (sets : list (string * rhs)) (params : list JsVal) (n : Z) :
  table_sound schema t ->
  sql_update schema now t sets params = Ok (t', n) ->
  0 <= n <= 1.
Proof.
  intros S. unfold sql_update.
  destruct (negb _); [discriminate|].
  destruct (existsb _ _); [discriminate|].
  intros E. injection E as _ <-.
  pose proof (hits_at_most_one schema t
                (nth (List.length
                        (filter (fun s : string * rhs =>
                                   match snd s with
                                   | Placeholder => true
                                   | CurrentTimestamp => false
                                   end) sets))
                     (map bind_param params) SNull) S).
  lia.
Qed.

(** X5.  On every handle reached from a new database file, an update or
    a delete of a route or of a marker that resolves reports [changes]
    0 or 1: an id never names two rows. *)
Theorem changes_at_most_one (now : clock) (db db' : option connection)
  (id : JsVal) (updates : object) (res : changed) :
  later (initDatabase None) db ->
  updateRouteInDB now db id updates = (Resolved res, db')
  \/ deleteRouteFromDB db id = (Resolved res, db')
  \/ updateRouteMarkerInDB now db id updates = (Resolved res, db')
  \/ deleteRouteMarkerFromDB db id = (Resolved res, db') ->
  changed_id res = id /\ (changes res = 0 \/ changes res = 1).
Proof.
  intros L.
  destruct (sound_kept _ _ _ L eq_refl new_database_sound)
    as [conn [-> [Sr Sm]]].
  assert (two : forall n, 0 <= n <= 1 -> n = 0 \/ n = 1) by (intros; lia).
  intros [H|[H|[H|H]]].
  - unfold updateRouteInDB in H.
    destruct (fold_left _ _ _) as [fields params].
    destruct (_ =? _)%nat; [discriminate|].
    unfold update_route in H.
    destruct (sql_update routes_schema now _ _ _) as [[t' n]|e] eqn:E;
      cbn in H; [|discriminate].
    injection H as <- _. cbn. split; [reflexivity|].
    apply two. eapply sql_update_changes; [exact Sr|exact E].
  - unfold deleteRouteFromDB, delete_route, sql_delete in H. cbn in H.
    injection H as <- _. cbn. split; [reflexivity|].
    apply two.
    pose proof (hits_at_most_one _ _ (bind_param id) Sr) as B.
    unfold id_is in B. lia.
  - unfold updateRouteMarkerInDB in H.
    destruct (fold_left _ _ _) as [fields params].
    destruct (_ =? _)%nat; [discriminate|].
    unfold update_marker in H.
    destruct (sql_update route_markers_schema now _ _ _) as [[t' n]|e] eqn:E;
      cbn in H; [|discriminate].
    injection H as <- _. cbn. split; [reflexivity|].
    apply two. eapply sql_update_changes; [exact Sm|exact E].
  - unfold deleteRouteMarkerFromDB, sql_delete in H. cbn in H.
    injection H as <- _. cbn. split; [reflexivity|].
    apply two.
    pose proof (hits_at_most_one _ _ (bind_param id) Sm) as B.
    unfold id_is in B. lia.
Qed.

Lemma save_route_id (now : clock) (db db' : option connection)
  (o saved : object) :
  saveRouteToDB now db o = (Resolved saved, db') ->
  includes (Object_keys o) "id" = false ->
  obj_get saved "id" = num_val (last_route_id db + 1)
  /\ last_route_id db' = last_route_id db + 1.
Proof.
  destruct db as [conn|]; [|discriminate].
  rewrite saveRouteToDB_unfold.
  destruct (route_accepted now o); [|discriminate].
  unfold insert_route, sql_insert.
  destruct (violates_not_null _ _); cbn; [discriminate|].
  intros E Hid. injection E as <- <-. cbn.
  split; [|reflexivity].
  rewrite obj_get_spread_other by exact Hid. reflexivity.
Qed.

(** X6.  The ids [saveRouteToDB] gives out only grow: of two routes
    saved one after the other, whatever was written, updated or deleted
    in between, the later one has the larger id, so the id of a deleted
    route is not given out again.  ([routeData] carries no [id] of its
    own, which would replace the one in the answer.) *)
Theorem route_ids_never_reused (now now' : clock)
  (db db1 db2 db3 : option connection) (o o' saved saved' : object) :
  saveRouteToDB now db o = (Resolved saved, db1) ->
  later db1 db2 ->
  saveRouteToDB now' db2 o' = (Resolved saved', db3) ->
  includes (Object_keys o) "id" = false ->
  includes (Object_keys o') "id" = false ->
  exists i j,
    obj_get saved "id" = num_val i /\ obj_get saved' "id" = num_val j
    /\ i < j.
Proof.
  intros S1 L S2 N1 N2.
  destruct (save_route_id _ _ _ _ _ S1 N1) as [E1 Q1].
  destruct (save_route_id _ _ _ _ _ S2 N2) as [E2 _].
  exists (last_route_id db + 1), (last_route_id db2 + 1).
  split; [exact E1|]. split; [exact E2|].
  apply later_carried in L.
  destruct db1 as [c1|], db2 as [c2|]; cbn in *; try contradiction.
  - destruct L as [_ L]. lia.
  - destruct db; discriminate.
Qed.

(* ================================================================== *)
(** * Further properties: ORDER BY *)
(* ================================================================== *)

Lemma ltb_asym (x y : num) : JsNum.ltb x y = true -> JsNum.ltb y x = false.
Proof.
  destruct x as [|[]|p], y as [|[]|q]; cbn; try discriminate;
    try reflexivity.
  intros H. apply negb_true_iff in H. apply negb_false_iff.
  apply (leb_total (Fin q) (Fin p)); [discriminate|discriminate|exact H].
Qed.

Lemma sql_compare_antisym (a b : SqlVal) :
  sql_compare b a = CompOpp (sql_compare a b).
Proof.
  destruct a as [|x|s], b as [|y|t]; cbn; try reflexivity.
  - destruct (JsNum.ltb x y) eqn:L.
    + rewrite (ltb_asym _ _ L). reflexivity.
    + destruct (JsNum.ltb y x); reflexivity.
  - apply String.compare_antisym.
Qed.

Lemma before_desc_total (keys : list string) (a b : row) :
  before_desc keys a b = false -> before_desc keys b a = true.
Proof.
  induction keys as [|k keys IH]; cbn; [discriminate|].
  rewrite (sql_compare_antisym (row_get a k) (row_get b k)).
  destruct (sql_compare (row_get a k) (row_get b k)); cbn;
    [exact IH|reflexivity|discriminate].
Qed.

Lemma insert_sorted_perm (le : row -> row -> bool) (x : row) (l : list row) :
  Permutation (insert_sorted le x l) (x :: l).
Proof.
  induction l as [|y l IH]; cbn; [apply Permutation_refl|].
  destruct (le x y); [apply Permutation_refl|].
  eapply Permutation_trans; [apply perm_skip, IH|apply perm_swap].
Qed.

Lemma order_by_desc_perm (keys : list string) (rows : list row) :
  Permutation (order_by_desc keys rows) rows.
Proof.
  unfold order_by_desc.
  induction rows as [|r rows IH]; cbn; [constructor|].
  eapply Permutation_trans; [apply insert_sorted_perm|].
  apply perm_skip, IH.
Qed.

Lemma insert_sorted_sorted (keys : list string) (x : row) (l : list row) :
  Sorted (in_order keys) l ->
  Sorted (in_order keys) (insert_sorted (before_desc keys) x l).
Proof.
  induction l as [|y l IH]; cbn; intros S.
  - constructor; constructor.
  - destruct (before_desc keys x y) eqn:E.
    + constructor; [exact S|]. constructor. exact E.
    + inversion S as [|? ? S' Hd]; subst.
      constructor; [apply IH, S'|].
      destruct l as [|z l]; cbn.
      * constructor. apply before_desc_total, E.
      * destruct (before_desc keys x z).
        -- constructor. apply before_desc_total, E.
        -- inversion Hd; subst. constructor. assumption.
Qed.

Lemma order_by_desc_sorted (keys : list string) (rows : list row) :
  Sorted (in_order keys) (order_by_desc keys rows).
Proof.
  unfold order_by_desc.
  induction rows as [|r rows IH]; cbn; [constructor|].
  apply insert_sorted_sorted, IH.
Qed.

(** X7.  [getRouteMarkersFromDB] answers with the markers of that route
    and no others, each as often as it is stored, and in the order of the
    statement: of two neighbours the first has the greater importance,
    or the same and a creation time that is not earlier. *)
Theorem markers_listed_in_order (conn : connection) (routeId : JsVal) :
  exists rows,
    getRouteMarkersFromDB (Some conn) routeId = Resolved (map row_object rows)
    /\ Permutation rows
         (filter (fun m => sql_eq (row_get m "route_id") (bind_param routeId))
                 (tbl_rows (route_markers (content conn))))
    /\ Sorted (in_order ["importance"; "created_at"]) rows
    /\ Sorted (fun a b => sql_compare (row_get a "importance")
                                      (row_get b "importance") <> Lt) rows.
Proof.
  eexists. split; [reflexivity|]. split; [apply order_by_desc_perm|].
  assert (S := order_by_desc_sorted ["importance"; "created_at"]
                 (filter (fun m => sql_eq (row_get m "route_id")
                                          (bind_param routeId))
                         (tbl_rows (route_markers (content conn))))).
  split; [exact S|].
  assert (W : forall a b, in_order ["importance"; "created_at"] a b ->
                          sql_compare (row_get a "importance")
                                      (row_get b "importance") <> Lt).
  { unfold in_order. cbn. intros a b H E. rewrite E in H. discriminate. }
  induction S as [|r l S IH Hd]; constructor; [exact IH|].
  destruct Hd; constructor. apply W. assumption.
Qed.

(* ================================================================== *)
(** * Further properties: markers *)
(* ================================================================== *)

Lemma sql_eq_refl (v : JsVal) :
  bind_param v <> SNull -> sql_eq (bind_param v) (bind_param v) = true.
Proof.
  destruct v as [| |[]|[| |q]| | |]; cbn; try congruence; intros _;
    try reflexivity.
  - destruct negative; reflexivity.
  - assert (L : Qle_bool q q = true) by apply Qle_bool_iff, Qle_refl.
    rewrite L. reflexivity.
  - apply String.eqb_refl.
  - apply String.eqb_refl.
  - apply String.eqb_refl.
Qed.

Lemma save_marker_stores (now : clock) (conn : connection) (routeId : JsVal)
  (markerData : object) :
  marker_accepted markerData = true ->
  bind_param routeId <> SNull ->
  foreign_keys conn = false ->
  let id := tbl_seq (route_markers (content conn)) + 1 in
  saveRouteMarkerToDB now (Some conn) routeId markerData =
  (Resolved (spread [("id", num_val id); ("route_id", routeId)] markerData),
   Some (with_markers conn
           {| tbl_rows := tbl_rows (route_markers (content conn))
                          ++ [stored_marker now routeId markerData id];
              tbl_seq := id |})).
Proof.
  intros Ha Hr Hf id. unfold saveRouteMarkerToDB. cbv zeta.
  unfold marker_accepted in Ha.
  apply andb_prop in Ha. destruct Ha as [Ha Hn].
  apply andb_prop in Ha. destruct Ha as [Hlng Hlat].
  rewrite Hlng, Hlat, Hn. cbn [negb orb].
  unfold insert_marker, sql_insert. rewrite Hf. cbn [andb].
  fold (marker_params routeId markerData). fold id.
  fold (stored_marker now routeId markerData id).
  replace (violates_not_null route_markers_schema
             (stored_marker now routeId markerData id))
    with false; [reflexivity|].
  symmetry.
  apply truthy_binds in Hlng, Hlat, Hn.
  unfold violates_not_null, route_markers_schema.
  cbn [existsb col col_name col_not_null andb].
  change (row_get (stored_marker now routeId markerData id) "route_id")
    with (bind_param routeId).
  change (row_get (stored_marker now routeId markerData id) "lng")
    with (bind_param (obj_get markerData "lng")).
  change (row_get (stored_marker now routeId markerData id) "lat")
    with (bind_param (obj_get markerData "lat")).
  change (row_get (stored_marker now routeId markerData id) "name")
    with (bind_param (obj_get markerData "name")).
  destruct (bind_param routeId); try congruence;
    destruct (bind_param (obj_get markerData "lng")); try congruence;
    destruct (bind_param (obj_get markerData "lat")); try congruence;
    destruct (bind_param (obj_get markerData "name")); try congruence;
    reflexivity.
Qed.

Lemma stored_marker_read (now : clock) (routeId : JsVal) (markerData : object)
  (name : string) (lng lat : Q) (id : Z) :
  only_required_marker markerData name lng lat ->
  let m := row_object (stored_marker now routeId markerData id) in
  obj_get m "id" = num_val id
  /\ obj_get m "route_id" = column_value (bind_param routeId)
  /\ obj_get m "name" = JStr name
  /\ obj_get m "lng" = JNum (Fin lng)
  /\ obj_get m "lat" = JNum (Fin lat)
  /\ obj_get m "marker_type" = JStr "important"
  /\ obj_get m "importance" = num_val 1
  /\ obj_get m "category" = JStr "other"
  /\ obj_get m "description" = JStr EmptyString
  /\ obj_get m "created_at" = JStr (CURRENT_TIMESTAMP now).
Proof.
  intros [Hn Hlng Hlat Ho] m. unfold m, stored_marker, marker_params.
  unfold optional_marker_fields in Ho.
  repeat (apply Forall_cons_iff in Ho; destruct Ho as [?E Ho]).
  rewrite ?Hn, ?Hlng, ?Hlat.
  repeat match goal with
         | E : obj_get markerData _ = JUndefined |- _ => rewrite ?E; clear E
         end.
  cbn. repeat split; reflexivity.
Qed.

(** X8.  On every handle the program opens, a marker with a name and
    non-zero coordinates is saved under the route id it is given, whether
    or not [routes] holds a route of that id, and the listing of that id
    then shows it: with the name and the coordinates it came with, and
    with [important], importance 1, category [other] and an empty
    description where it named none. *)
Theorem marker_saved_then_listed (now : clock) (db : option connection)
  (routeId : JsVal) (markerData : object) (name : string) (lng lat : Q) :
  opened db ->
  only_required_marker markerData name lng lat ->
  name <> EmptyString -> is_zero lng = false -> is_zero lat = false ->
  bind_param routeId <> SNull ->
  exists saved db' listed m,
    saveRouteMarkerToDB now db routeId markerData = (Resolved saved, db')
    /\ getRouteMarkersFromDB db' routeId = Resolved listed
    /\ In m listed
    /\ obj_get m "route_id" = column_value (bind_param routeId)
    /\ obj_get m "name" = JStr name
    /\ obj_get m "lng" = JNum (Fin lng)
    /\ obj_get m "lat" = JNum (Fin lat)
    /\ obj_get m "marker_type" = JStr "important"
    /\ obj_get m "importance" = num_val 1
    /\ obj_get m "category" = JStr "other"
    /\ obj_get m "description" = JStr EmptyString
    /\ obj_get m "created_at" = JStr (CURRENT_TIMESTAMP now).
Proof.
  intros Hop Hm Hname Hlng Hlat Hid.
  destruct (opened_unenforced db Hop) as (conn & -> & F).
  assert (Ha : marker_accepted markerData = true).
  { destruct Hm as [Hn Hl Ha _]. unfold marker_accepted.
    rewrite Hn, Hl, Ha. cbn. rewrite Hlng, Hlat. cbn.
    destruct name; [congruence|reflexivity]. }
  pose proof (save_marker_stores now conn routeId markerData Ha Hid F) as S.
  cbv zeta in S.
  set (id := tbl_seq (route_markers (content conn)) + 1) in *.
  destruct (stored_marker_read now routeId markerData name lng lat id Hm)
    as (_ & R).
  do 3 eexists. exists (row_object (stored_marker now routeId markerData id)).
  split; [exact S|].
  split; [reflexivity|].
  split; [|exact R].
  apply in_map.
  apply (Permutation_in _ (Permutation_sym (order_by_desc_perm _ _))).
  apply filter_In. split.
  - cbn. apply in_or_app. right. left. reflexivity.
  - change (row_get (stored_marker now routeId markerData id) "route_id")
      with (bind_param routeId).
    apply sql_eq_refl, Hid.
Qed.

Lemma sql_eq_sym (a b : SqlVal) : sql_eq a b = sql_eq b a.
Proof.
  destruct a as [|x|s], b as [|y|t]; cbn; try reflexivity.
  - apply Bool.andb_comm.
  - apply String.eqb_sym.
Qed.

Lemma find_after_delete (v v' : SqlVal) (rows : list row) :
  sql_eq v' v = false ->
  find (id_is v') (filter (fun r => negb (id_is v r)) rows)
  = find (id_is v') rows.
Proof.
  intros N. induction rows as [|r rows IH]; [reflexivity|]. cbn.
  destruct (id_is v r) eqn:Hv; cbn.
  - destruct (id_is v' r) eqn:Hv'; [exfalso|exact IH].
    unfold id_is in Hv, Hv'.
    rewrite sql_eq_sym in Hv, Hv'.
    pose proof (sql_eq_common _ _ _ Hv' Hv). congruence.
  - destruct (id_is v' r); [reflexivity|exact IH].
Qed.

Lemma find_none_after_delete (v : SqlVal) (rows : list row) :
  find (id_is v) (filter (fun r => negb (id_is v r)) rows) = None.
Proof.
  induction rows as [|r rows IH]; [reflexivity|]. cbn.
  destruct (id_is v r) eqn:Hv; cbn; [exact IH|].
  rewrite Hv. exact IH.
Qed.

Lemma filter_all {A} (f : A -> bool) (l : list A) :
  Forall (fun x => f x = true) l -> filter f l = l.
Proof.
  induction 1 as [|x l Hx _ IH]; [reflexivity|].
  cbn. rewrite Hx, IH. reflexivity.
Qed.

Lemma delete_missing_route (conn : connection) (id : JsVal) :
  Forall (fun r => id_is (bind_param id) r = false)
         (tbl_rows (routes (content conn))) ->
  deleteRouteFromDB (Some conn) id
  = (Resolved {| changed_id := id; changes := 0 |}, Some conn).
Proof.
  intros H. unfold deleteRouteFromDB, delete_route, sql_delete.
  unfold id_is in *.
  assert (Hnone : filter (fun r => sql_eq (row_get r "id") (bind_param id))
                         (tbl_rows (routes (content conn))) = []).
  { apply filter_none. rewrite Forall_forall in H. exact H. }
  assert (Hall : filter (fun r => negb (sql_eq (row_get r "id")
                                               (bind_param id)))
                        (tbl_rows (routes (content conn)))
                 = tbl_rows (routes (content conn))).
  { apply filter_all. eapply Forall_impl; [|exact H].
    cbn. intros r ->. reflexivity. }
  rewrite Hnone, Hall. cbn [existsb negb List.length].
  rewrite filter_true.
  destruct conn as [fk [[rrows rseq] [mrows mseq]]]. cbn.
  destruct fk; reflexivity.
Qed.

(** X9.  After [deleteRouteFromDB] the route is gone and no other is:
    fetching the deleted id is refused with the message of a missing
    route, fetching any other id answers as before.  A delete that names
    no stored route resolves all the same, with [changes] 0, and leaves
    the store as it was. *)
Theorem deleted_route_is_gone (conn : connection) (id : JsVal) :
  let db' := snd (deleteRouteFromDB (Some conn) id) in
  getRouteByIdFromDB db' id = Rejected route_not_found
  /\ (forall other,
        sql_eq (bind_param other) (bind_param id) = false ->
        getRouteByIdFromDB db' other = getRouteByIdFromDB (Some conn) other)
  /\ (Forall (fun r => id_is (bind_param id) r = false)
             (tbl_rows (routes (content conn))) ->
      deleteRouteFromDB (Some conn) id
      = (Resolved {| changed_id := id; changes := 0 |}, Some conn)).
Proof.
  cbv zeta. split; [|split; [|apply delete_missing_route]];
    unfold deleteRouteFromDB, delete_route, sql_delete; cbn [fst snd].
  - unfold getRouteByIdFromDB. cbn [content routes tbl_rows].
    pose proof (find_none_after_delete (bind_param id)
                  (tbl_rows (routes (content conn)))) as E.
    unfold id_is in *. rewrite E. reflexivity.
  - intros other N. unfold getRouteByIdFromDB. cbn [content routes tbl_rows].
    pose proof (find_after_delete _ _ (tbl_rows (routes (content conn))) N)
      as E.
    unfold id_is in *. rewrite E. reflexivity.
Qed.

Lemma push_marker_fields_spec (updates : object) (keys : list string)
  (fields : list (string * rhs)) (params : list JsVal) :
  fold_left (push_marker_field updates) keys (fields, params) =
  (fields ++ map (fun k => (k, Placeholder)) (filter marker_allowed keys),
   params ++ map (obj_get updates) (filter marker_allowed keys)).
Proof.
  revert fields params.
  induction keys as [|k keys IH]; intros fields params; cbn [fold_left filter].
  - cbn [map]. rewrite !app_nil_r. reflexivity.
  - unfold push_marker_field at 2. fold (marker_allowed k).
    destruct (marker_allowed k); [|apply IH].
    rewrite IH. cbn [map]. rewrite <- !app_assoc. reflexivity.
Qed.

Lemma updateRouteMarkerInDB_unfold (now : clock) (conn : connection)
  (markerId : JsVal) (updates : object) :
  updateRouteMarkerInDB now (Some conn) markerId updates =
  match filter marker_allowed (Object_keys updates) with
  | [] => (Rejected nothing_to_update, Some conn)
  | keys =>
      match update_marker now conn (map (fun k => (k, Placeholder)) keys)
                          (map (obj_get updates) keys ++ [markerId]) with
      | Throw err => (Rejected err, Some conn)
      | Ok (conn', n) =>
          (Resolved {| changed_id := markerId; changes := n |}, Some conn')
      end
  end.
Proof.
  unfold updateRouteMarkerInDB. rewrite push_marker_fields_spec.
  cbn [app]. destruct (filter marker_allowed (Object_keys updates));
    reflexivity.
Qed.

Lemma keys_filter_allowed (updates : object) :
  filter marker_allowed
         (Object_keys (filter (fun kv => marker_allowed (fst kv)) updates))
  = filter marker_allowed (Object_keys updates).
Proof.
  unfold Object_keys.
  induction updates as [|[k v] o IH]; [reflexivity|].
  cbn [filter map fst]. destruct (marker_allowed k) eqn:A.
  - cbn [map fst filter]. rewrite A, IH. reflexivity.
  - exact IH.
Qed.

Lemma obj_get_filter_allowed (updates : object) (k : string) :
  marker_allowed k = true ->
  obj_get (filter (fun kv => marker_allowed (fst kv)) updates) k
  = obj_get updates k.
Proof.
  intros A. induction updates as [|[k' v] o IH]; [reflexivity|].
  cbn [filter fst]. destruct (marker_allowed k') eqn:A'; cbn.
  - destruct (String.eqb k' k); [reflexivity|exact IH].
  - destruct (String.eqb_spec k' k) as [->|N]; [congruence|exact IH].
Qed.

Lemma sql_update_untouched (schema : list column) (now : clock)
  (t t' : table) (sets : list (string * rhs)) (params : list JsVal) (n : Z)
  (c : string) :
  sql_update schema now t sets params = Ok (t', n) ->
  Forall (fun s => fst s <> c) sets ->
  map (fun r => row_get r c) (tbl_rows t')
  = map (fun r => row_get r c) (tbl_rows t).
Proof.
  unfold sql_update. set (id := nth _ _ SNull).
  destruct (negb _); [discriminate|].
  destruct (existsb _ _); [discriminate|].
  intros E Hs. injection E as <- _. cbn [tbl_rows].
  rewrite map_map. apply map_ext. intros r.
  destruct (id_is id r); [|reflexivity].
  apply apply_set_other, Hs.
Qed.

(** X10.  [updateRouteMarkerInDB] writes the seven fields it allows and
    nothing else: keys outside the list are dropped, an update with none
    of the seven is refused, and one that resolves leaves every marker's
    id, route, coordinates and creation time, every column the update
    does not name, and the whole of [routes] as they were. *)
Theorem marker_update_contract (now : clock) (conn : connection)
  (markerId : JsVal) (updates : object) :
  updateRouteMarkerInDB now (Some conn) markerId updates
  = updateRouteMarkerInDB now (Some conn) markerId
      (filter (fun kv => marker_allowed (fst kv)) updates)
  /\ (filter marker_allowed (Object_keys updates) = [] ->
      updateRouteMarkerInDB now (Some conn) markerId updates
      = (Rejected nothing_to_update, Some conn))
  /\ (forall res conn',
        updateRouteMarkerInDB now (Some conn) markerId updates
        = (Resolved res, Some conn') ->
        routes (content conn') = routes (content conn)
        /\ foreign_keys conn' = foreign_keys conn
        /\ forall c,
             In c fixed_marker_columns
             \/ ~ In c (filter marker_allowed (Object_keys updates)) ->
             map (fun m => row_get m c)
                 (tbl_rows (route_markers (content conn')))
             = map (fun m => row_get m c)
                   (tbl_rows (route_markers (content conn)))).
Proof.
  split; [|split].
  - rewrite !updateRouteMarkerInDB_unfold, keys_filter_allowed.
    destruct (filter marker_allowed (Object_keys updates)) as [|k ks] eqn:K;
      [reflexivity|].
    cbv zeta.
    replace (map (obj_get (filter (fun kv => marker_allowed (fst kv)) updates))
                 (k :: ks))
      with (map (obj_get updates) (k :: ks)); [reflexivity|].
    apply map_ext_in. intros k' Hk'. symmetry.
    apply obj_get_filter_allowed.
    rewrite <- K in Hk'. apply filter_In in Hk'. apply Hk'.
  - intros E. rewrite updateRouteMarkerInDB_unfold, E. reflexivity.
  - intros res conn'. rewrite updateRouteMarkerInDB_unfold.
    destruct (filter marker_allowed (Object_keys updates)) as [|k ks] eqn:K;
      [discriminate|].
    cbv zeta. unfold update_marker.
    destruct (sql_update route_markers_schema now
                (route_markers (content conn))
                (map (fun k => (k, Placeholder)) (k :: ks))
                (map (obj_get updates) (k :: ks) ++ [markerId]))
      as [[t' n]|e] eqn:U; cbn [bind fst snd]; [|discriminate].
    intros E. injection E as _ <-.
    split; [reflexivity|]. split; [reflexivity|].
    intros c Hc. cbn [content route_markers with_markers].
    apply (sql_update_untouched _ _ _ _ _ _ _ _ U).
    apply Forall_forall. intros s Hs.
    apply in_map_iff in Hs. destruct Hs as [k' [<- Hk']]. cbn [fst].
    intros ->.
    destruct Hc as [Hc|Hc]; [|contradiction].
    rewrite <- K in Hk'. apply filter_In in Hk'. destruct Hk' as [_ A].
    unfold fixed_marker_columns in Hc. cbn in Hc.
    destruct Hc as [<-|[<-|[<-|[<-|[<-|[]]]]]]; discriminate.
Qed.

(** X11.  [deleteRouteMarkerFromDB] takes the marker of that id out of
    every listing and nothing else: a marker is listed afterwards exactly
    when it was listed before and has another id, and [routes] is not
    touched. *)
Theorem deleted_marker_is_gone (conn : connection) (markerId routeId : JsVal) :
  exists res conn' before after,
    deleteRouteMarkerFromDB (Some conn) markerId = (Resolved res, Some conn')
    /\ changed_id res = markerId
    /\ routes (content conn') = routes (content conn)
    /\ getRouteMarkersFromDB (Some conn) routeId
       = Resolved (map row_object before)
    /\ getRouteMarkersFromDB (Some conn') routeId
       = Resolved (map row_object after)
    /\ forall m,
         In m after
         <-> In m before /\ id_is (bind_param markerId) m = false.
Proof.
  do 4 eexists.
  split; [reflexivity|]. split; [reflexivity|]. split; [reflexivity|].
  split; [reflexivity|]. split; [reflexivity|].
  intros m. cbn [content route_markers with_markers fst sql_delete tbl_rows].
  split.
  - intros H.
    apply (Permutation_in _ (order_by_desc_perm _ _)) in H.
    apply filter_In in H. destruct H as [H R].
    apply filter_In in H. destruct H as [H D].
    split.
    + apply (Permutation_in _ (Permutation_sym (order_by_desc_perm _ _))).
      apply filter_In. split; assumption.
    + unfold id_is. apply negb_true_iff in D. exact D.
  - intros [H D].
    apply (Permutation_in _ (order_by_desc_perm _ _)) in H.
    apply filter_In in H. destruct H as [H R].
    apply (Permutation_in _ (Permutation_sym (order_by_desc_perm _ _))).
    apply filter_In. split; [|exact R].
    apply filter_In. split; [exact H|].
    unfold id_is in D. rewrite D. reflexivity.
Qed.

(* ================================================================== *)
(** * Further properties: what an update writes *)
(* ================================================================== *)

Lemma apply_set_written (now : clock) (keys : list string)
  (f : string -> SqlVal) (rest : list SqlVal) (tail : list (string * rhs))
  (r : row) (k : string) :
  In k (map fst r) ->
  In k keys \/ row_get r k = f k ->
  Forall (fun s => fst s <> k) tail ->
  row_get (fst (apply_set now (map (fun k => (k, Placeholder)) keys ++ tail)
                          (map f keys ++ rest) r)) k
  = f k.
Proof.
  intros Hk Hor Htail. revert r Hk Hor.
  induction keys as [|k0 keys IH]; intros r Hk Hor.
  - cbn [map app]. rewrite apply_set_other by exact Htail.
    destruct Hor as [[]|E]. exact E.
  - cbn [map app apply_set]. apply IH.
    + rewrite row_set_keys. exact Hk.
    + destruct (String.eqb_spec k0 k) as [->|N].
      * right. apply row_get_set_same, Hk.
      * destruct Hor as [[E|Hin]|E]; [contradiction|left; exact Hin|].
        right. rewrite row_get_set_other by congruence. exact E.
Qed.

Lemma allowed_not_id (k : string) : allowed k = true -> k <> "id".
Proof. intros A ->. discriminate. Qed.

Lemma allowed_not_updated_at (k : string) :
  allowed k = true -> k <> "updated_at".
Proof. intros A ->. discriminate. Qed.

Lemma set_clause_keeps_id (keys : list string) :
  Forall (fun k => allowed k = true) keys ->
  Forall (fun s : string * rhs => fst s <> "id") (set_clause keys).
Proof.
  intros H. unfold set_clause. apply Forall_app. split.
  - apply Forall_forall. intros s Hs.
    apply in_map_iff in Hs. destruct Hs as [k [<- Hk]].
    rewrite Forall_forall in H. apply allowed_not_id, H, Hk.
  - constructor; [discriminate|constructor].
Qed.

(** The rows an update of [routes] leaves, when it names allowed keys. *)
Lemma update_route_rows (now : clock) (conn : connection) (id : JsVal)
  (updates : object) (k0 : string) (ks : list string) :
  allowed_keys updates = k0 :: ks ->
  let rows :=
    map (fun r => if id_is (bind_param id) r
                  then fst (apply_set now (set_clause (k0 :: ks))
                              (map (fun k => bind_param (obj_get updates k))
                                   (k0 :: ks) ++ [bind_param id]) r)
                  else r)
        (tbl_rows (routes (content conn))) in
  updateRouteInDB now (Some conn) id updates =
  if existsb (fun r => id_is (bind_param id) r
                       && violates_not_null routes_schema r) rows
  then (Rejected constraint_not_null, Some conn)
  else (Resolved {| changed_id := id;
                    changes := Z.of_nat
                                 (List.length
                                    (filter (id_is (bind_param id))
                                       (tbl_rows (routes (content conn))))) |},
        Some (with_routes conn
                {| tbl_rows := rows;
                   tbl_seq := tbl_seq (routes (content conn)) |})).
Proof.
  intros K rows. rewrite updateRouteInDB_unfold, K. cbv zeta.
  unfold update_route.
  pose proof (allowed_keys_allowed updates) as A. rewrite K in A.
  rewrite (sql_update_built now (routes (content conn)) (k0 :: ks)
             (map (obj_get updates) (k0 :: ks)) id A)
    by (rewrite length_map; reflexivity).
  cbv zeta. rewrite map_app, map_map.
  change (map bind_param [id]) with [bind_param id]. fold rows.
  destruct (existsb _ rows); reflexivity.
Qed.

Lemma update_missing_route (now : clock) (conn : connection) (id : JsVal)
  (updates : object) :
  allowed_keys updates <> [] ->
  Forall (fun r => id_is (bind_param id) r = false)
         (tbl_rows (routes (content conn))) ->
  updateRouteInDB now (Some conn) id updates
  = (Resolved {| changed_id := id; changes := 0 |}, Some conn).
Proof.
  intros K H.
  destruct (allowed_keys updates) as [|k0 ks] eqn:E; [congruence|].
  rewrite (update_route_rows now conn id updates k0 ks E). cbv zeta.
  assert (Hrows : map (fun r => if id_is (bind_param id) r
                                then fst (apply_set now (set_clause (k0 :: ks))
                                            (map (fun k =>
                                                    bind_param
                                                      (obj_get updates k))
                                                 (k0 :: ks)
                                             ++ [bind_param id]) r)
                                else r)
                      (tbl_rows (routes (content conn)))
                  = tbl_rows (routes (content conn))).
  { rewrite <- (map_id (tbl_rows (routes (content conn)))) at 2.
    apply map_ext_in. intros r Hr. rewrite Forall_forall in H.
    rewrite (H r Hr). reflexivity. }
  rewrite Hrows.
  replace (existsb (fun r => id_is (bind_param id) r
                             && violates_not_null routes_schema r)
                   (tbl_rows (routes (content conn)))) with false.
  - rewrite filter_none by (rewrite Forall_forall in H; exact H).
    destruct conn as [fk [[rrows rseq] m]]. reflexivity.
  - symmetry. apply Bool.not_true_iff_false. intros X.
    apply existsb_exists in X. destruct X as [r [Hr X]].
    rewrite Forall_forall in H. rewrite (H r Hr) in X. discriminate.
Qed.

Lemma allowed_in_row (r : row) (k : string) :
  map fst r = "id" :: map col_name routes_schema ->
  allowed k = true -> In k (map fst r).
Proof.
  intros -> A. right.
  apply allowed_has_column in A. unfold has_column in A.
  apply existsb_exists in A. destruct A as [c [Hc E]].
  apply String.eqb_eq in E. subst k. apply in_map, Hc.
Qed.

Lemma updated_row_holds (now : clock) (updates : object) (id : SqlVal)
  (keys : list string) (r : row) (k : string) :
  map fst r = "id" :: map col_name routes_schema ->
  Forall (fun k => allowed k = true) keys ->
  In k keys ->
  row_get (fst (apply_set now (set_clause keys)
                  (map (fun k => bind_param (obj_get updates k)) keys ++ [id])
                  r)) k
  = bind_param (obj_get updates k).
Proof.
  intros Hr A Hk. rewrite Forall_forall in A.
  unfold set_clause.
  apply (apply_set_written now keys
           (fun k => bind_param (obj_get updates k))).
  - apply allowed_in_row; [exact Hr|apply A, Hk].
  - left. exact Hk.
  - constructor; [|constructor]. cbn.
    intros E. apply (allowed_not_updated_at k); [apply A, Hk|congruence].
Qed.

(** X12.  An update of a route that resolves has written what it was
    given: in every row of that id, each allowed field the update names
    holds the submitted value, when that is text for a text column or a
    finite number for a numeric one.  (The rows of [routes] have the
    columns of the schema.) *)
Theorem update_writes_values (now : clock) (conn conn' : connection)
  (id : JsVal) (updates : object) (res : changed) :
  conforms (routes (content conn)) ->
  updateRouteInDB now (Some conn) id updates = (Resolved res, Some conn') ->
  Forall (fun r =>
            id_is (bind_param id) r = true ->
            forall k,
              In k (allowed_keys updates) ->
              fits_column k (obj_get updates k) = true ->
              column_value (row_get r k) = obj_get updates k)
         (tbl_rows (routes (content conn'))).
Proof.
  intros C U.
  destruct (allowed_keys updates) as [|k0 ks] eqn:K.
  { rewrite updateRouteInDB_unfold, K in U. discriminate. }
  rewrite (update_route_rows now conn id updates k0 ks K) in U.
  cbv zeta in U.
  match type of U with
  | context [with_routes conn {| tbl_rows := ?l; tbl_seq := _ |}] =>
      set (rows := l) in U
  end.
  destruct (existsb _ rows); [discriminate|].
  assert (E : routes (content conn')
              = {| tbl_rows := rows;
                   tbl_seq := tbl_seq (routes (content conn)) |}).
  { injection U as _ <-. reflexivity. }
  rewrite E. cbn [tbl_rows]. clear U E.
  apply Forall_forall. intros r' Hr'. unfold rows in Hr'.
  apply in_map_iff in Hr'. destruct Hr' as [r [E Hr]].
  unfold conforms in C. rewrite Forall_forall in C. specialize (C r Hr).
  pose proof (allowed_keys_allowed updates) as A. rewrite K in A.
  destruct (id_is (bind_param id) r) eqn:I.
  - intros _ k Hk F. subst r'.
    rewrite (updated_row_holds now updates (bind_param id) (k0 :: ks) r k
               C A Hk).
    destruct (obj_get updates k) as [| | |[| |q]| | |]; try discriminate;
      reflexivity.
  - subst r'. intros I'. congruence.
Qed.

(** X13.  A route cannot lose a required value through an update: when
    the update names one of the columns declared [NOT NULL] with a value
    that binds to [NULL] ([null], [undefined] or [NaN]) and the id names
    a stored route, the update is refused with the constraint error and
    the store is left as it was. *)
Theorem required_column_not_nulled (now : clock) (conn : connection)
  (id : JsVal) (updates : object) (k : string) :
  conforms (routes (content conn)) ->
  In k required_columns ->
  In k (Object_keys updates) ->
  bind_param (obj_get updates k) = SNull ->
  existsb (id_is (bind_param id)) (tbl_rows (routes (content conn))) = true ->
  updateRouteInDB now (Some conn) id updates
  = (Rejected constraint_not_null, Some conn).
Proof.
  intros C Hreq Hin Hnull Hex.
  assert (Ak : allowed k = true).
  { unfold required_columns in Hreq. cbn in Hreq.
    destruct Hreq as [<-|[<-|[<-|[<-|[<-|[]]]]]]; reflexivity. }
  assert (Hk : In k (allowed_keys updates)).
  { unfold allowed_keys. apply filter_In. split; assumption. }
  destruct (allowed_keys updates) as [|k0 ks] eqn:K; [destruct Hk|].
  rewrite (update_route_rows now conn id updates k0 ks K). cbv zeta.
  pose proof (allowed_keys_allowed updates) as A. rewrite K in A.
  apply existsb_exists in Hex. destruct Hex as [r [Hr I]].
  unfold conforms in C. rewrite Forall_forall in C. specialize (C r Hr).
  match goal with
  | |- (if existsb ?f ?l then _ else _) = _ =>
      replace (existsb f l) with true; [reflexivity|]
  end.
  symmetry. apply existsb_exists.
  exists (fst (apply_set now (set_clause (k0 :: ks))
                 (map (fun k => bind_param (obj_get updates k)) (k0 :: ks)
                  ++ [bind_param id]) r)).
  split.
  - apply in_map_iff. exists r. rewrite I. split; [reflexivity|exact Hr].
  - apply andb_true_intro. split.
    + unfold id_is in *.
      rewrite apply_set_other by (apply set_clause_keeps_id, A). exact I.
    + unfold violates_not_null. apply existsb_exists.
      exists (col k true NoDefault). split.
      * unfold required_columns in Hreq. cbn in Hreq.
        unfold routes_schema.
        destruct Hreq as [<-|[<-|[<-|[<-|[<-|[]]]]]];
          repeat (first [left; reflexivity | right]).
      * cbn [col_not_null col_name col andb].
        rewrite (updated_row_holds now updates (bind_param id) (k0 :: ks) r k
                   C A Hk), Hnull.
        reflexivity.
Qed.

(* ================================================================== *)
(** * Further properties: the readers and way points that do not parse *)
(* ================================================================== *)

Lemma getRoutesFromDB_unfold (conn : connection) (f : listing) :
  getRoutesFromDB (Some conn) f =
  match mapM route_of_row (map row_object (listed_rows conn f)) with
  | Ok routes => Resolved routes
  | Throw e => Uncaught e
  end.
Proof.
  unfold getRoutesFromDB, listed_rows, listed.
  fold (listing_page f) (listing_limit f).
  cbv zeta.
  destruct (js_truthy (list_type f)), (js_truthy (list_search f));
    unfold select_routes;
    cbn [app map zip forallb fst snd List.length skipn nth bind_param holds];
    rewrite !as_integer_num;
    (erewrite filter_ext; [reflexivity|]);
    intros r; cbv beta;
    rewrite ?Bool.andb_true_r, ?Bool.andb_true_l; reflexivity.
Qed.

Lemma obj_get_row_object (r : row) (k : string) :
  obj_get (row_object r) k
  = match find (fun cv => String.eqb (fst cv) k) r with
    | Some cv => column_value (snd cv)
    | None => JUndefined
    end.
Proof.
  induction r as [|[c v] r IH]; [reflexivity|].
  cbn. destruct (String.eqb c k); [reflexivity|exact IH].
Qed.

Lemma row_object_text (r : row) (k s : string) :
  row_get r k = SText s -> obj_get (row_object r) k = JStr s.
Proof.
  induction r as [|[c v] r IH]; cbn; [discriminate|].
  destruct (String.eqb c k); [intros ->; reflexivity|exact IH].
Qed.

Lemma unparsable_row_throws (creator : JsVal) (r : row) :
  unparsable_waypoints r ->
  route_object creator (row_object r) = Throw SyntaxError.
Proof.
  intros (w & Hw & Nw & Jw). unfold route_object, parse_or_empty.
  rewrite (row_object_text r "waypoints" w Hw).
  cbn [js_truthy ToString]. apply String.eqb_neq in Nw. rewrite Nw, Jw.
  reflexivity.
Qed.

Lemma route_object_throws (creator : JsVal) (o : object) (e : exn) :
  route_object creator o = Throw e -> e = SyntaxError.
Proof.
  unfold route_object, parse_or_empty.
  destruct (js_truthy (obj_get o "waypoints")).
  - destruct (JSON_parse (ToString (obj_get o "waypoints"))); cbn [bind].
    + destruct (js_truthy (obj_get o "steps")).
      * destruct (JSON_parse (ToString (obj_get o "steps"))); cbn [bind];
          congruence.
      * cbn [bind]. discriminate.
    + congruence.
  - cbn [bind]. destruct (js_truthy (obj_get o "steps")).
    + destruct (JSON_parse (ToString (obj_get o "steps"))); cbn [bind];
        congruence.
    + cbn [bind]. discriminate.
Qed.

Lemma mapM_throws {A B} (f : A -> result B) (xs : list A) (x : A) (e : exn) :
  In x xs -> f x = Throw e ->
  (forall y e', f y = Throw e' -> e' = e) ->
  mapM f xs = Throw e.
Proof.
  intros Hin Hx Hall. induction xs as [|y xs IH]; [destruct Hin|].
  cbn [mapM]. destruct (f y) as [b|e'] eqn:Ey; cbn [bind].
  - destruct Hin as [->|Hin]; [congruence|].
    rewrite (IH Hin). reflexivity.
  - rewrite (Hall y e' Ey). reflexivity.
Qed.

Lemma in_skipn_in {A} (n : nat) (l : list A) (x : A) :
  In x (skipn n l) -> In x l.
Proof.
  revert l. induction n as [|n IH]; intros l H; [exact H|].
  destruct l as [|y l]; [exact H|]. right. apply IH, H.
Qed.

Lemma in_firstn_in {A} (n : nat) (l : list A) (x : A) :
  In x (firstn n l) -> In x l.
Proof.
  revert l. induction n as [|n IH]; intros l H; [destruct H|].
  destruct l as [|y l]; [exact H|].
  destruct H as [->|H]; [left; reflexivity|right; apply IH, H].
Qed.

Lemma limit_offset_subset (size offset : Z) (rows : list row) (r : row) :
  In r (limit_offset size offset rows) -> In r rows.
Proof.
  unfold limit_offset. intros H.
  destruct (size <? 0).
  - eapply in_skipn_in; exact H.
  - apply in_firstn_in in H. eapply in_skipn_in; exact H.
Qed.

Lemma unparsable_fetch (conn : connection) (r : row) (id : JsVal) :
  unparsable_waypoints r ->
  find (id_is (bind_param id)) (tbl_rows (routes (content conn))) = Some r ->
  getRouteByIdFromDB (Some conn) id = Uncaught SyntaxError.
Proof.
  intros U F. unfold getRouteByIdFromDB. rewrite F.
  unfold route_of_row. rewrite (unparsable_row_throws _ r U). reflexivity.
Qed.

(** X14.  A row of [routes] whose stored way points are text that is not
    JSON stops the two readers that parse it: fetching it by id, and any
    listing whose page holds it, throw [SyntaxError] inside the driver's
    callback, so that their promise is never settled.  The search does
    settle, and answers with that row as it is stored. *)
Theorem unparsable_row_blocks_readers (conn : connection) (r : row) :
  unparsable_waypoints r ->
  (forall id,
     find (id_is (bind_param id)) (tbl_rows (routes (content conn))) = Some r ->
     getRouteByIdFromDB (Some conn) id = Uncaught SyntaxError)
  /\ (forall f,
        In r (listed_rows conn f) ->
        getRoutesFromDB (Some conn) f = Uncaught SyntaxError)
  /\ (forall f,
        In r (found_rows conn f) ->
        exists res stmts,
          searchRoutesFromDB (Some conn) f = (Resolved res, stmts)
          /\ In (row_object r) (found_routes res)).
Proof.
  intros U. split; [|split].
  - intros id. apply unparsable_fetch, U.
  - intros f Hin. rewrite getRoutesFromDB_unfold.
    rewrite (mapM_throws route_of_row _ (row_object r) SyntaxError).
    + reflexivity.
    + apply in_map, Hin.
    + apply unparsable_row_throws, U.
    + intros y e'. apply route_object_throws.
  - intros f Hin. rewrite searchRoutesFromDB_unfold. cbv zeta.
    unfold found_rows in Hin.
    assert (Hm : In r (matching_routes conn (keyword_of f))).
    { apply limit_offset_subset in Hin.
      apply (Permutation_in _ (order_by_desc_perm _ _)) in Hin. exact Hin. }
    destruct (Z.eqb_spec
                (Z.of_nat (List.length (matching_routes conn (keyword_of f))))
                0) as [E|E].
    + destruct (matching_routes conn (keyword_of f)); [destruct Hm|].
      cbn in E. lia.
    + do 2 eexists. split; [reflexivity|]. cbn [found_routes].
      apply in_map_iff. exists (row_object r). split.
      * unfold found_of_row. rewrite (unparsable_row_throws _ r U).
        reflexivity.
      * apply in_map, Hin.
Qed.

(** X15.  [saveRouteToDB] stores the way points as they are given: a
    route whose way points are text that is not JSON is saved, and the
    fetch of the id it was saved under then never settles. *)
Theorem unparsable_route_is_saved (now : clock) (conn : connection)
  (routeData : object) (w : string) :
  route_accepted now routeData = true ->
  bind_param (obj_get routeData "start_lat") <> SNull ->
  bind_param (obj_get routeData "end_lat") <> SNull ->
  obj_get routeData "waypoints" = JStr w ->
  JSON_parse w = None ->
  includes (Object_keys routeData) "id" = false ->
  rowids_bounded (routes (content conn)) ->
  exists saved db',
    saveRouteToDB now (Some conn) routeData = (Resolved saved, db')
    /\ getRouteByIdFromDB db' (obj_get saved "id") = Uncaught SyntaxError.
Proof.
  intros Ha Hs He Hw Jw Hi Hb.
  rewrite (save_route_stores now conn routeData Ha Hs He).
  do 2 eexists. split; [reflexivity|].
  rewrite (obj_get_spread_other _ _ "id" Hi).
  cbn [obj_get String.eqb Ascii.eqb Bool.eqb].
  set (id := tbl_seq (routes (content conn)) + 1).
  apply (unparsable_fetch _ (stored_route now routeData id)).
  - exists w. split; [|split; [|exact Jw]].
    + unfold stored_route, route_params. rewrite Hw. reflexivity.
    + unfold route_accepted in Ha. rewrite Hw in Ha.
      cbn [js_truthy] in Ha. intros ->.
      rewrite Bool.andb_false_r in Ha. cbn in Ha.
      rewrite ?Bool.andb_false_r in Ha. discriminate.
  - cbn [content with_routes routes tbl_rows bind_param num_val of_Z].
    apply find_last.
    + apply next_rowid_fresh. exact Hb.
    + unfold id_is.
      change (row_get (stored_route now routeData id) "id")
        with (SNum (of_Z id)).
      rewrite sql_eq_of_Z. apply Z.eqb_refl.
Qed.

(* ================================================================== *)
(** * Further properties: the keyword of a search *)
(* ================================================================== *)

Lemma like_percent (p s : string) :
  like (String "%" p) s
  = like p s || match s with
                | EmptyString => false
                | String _ s' => like (String "%" p) s'
                end.
Proof. destruct s; reflexivity. Qed.

Lemma like_char (c d : ascii) (p s : string) :
  Ascii.eqb c "%" = false -> Ascii.eqb c "_" = false ->
  like (String c p) (String d s) = Ascii.eqb (upper c) (upper d) && like p s.
Proof.
  each_char c; intros H1 H2; try discriminate H1; try discriminate H2;
    reflexivity.
Qed.

Lemma like_percent_here (p s : string) :
  like p s = true -> like (String "%" p) s = true.
Proof. intros H. rewrite like_percent, H. reflexivity. Qed.

Lemma like_percent_skip (p a s : string) :
  like (String "%" p) s = true -> like (String "%" p) (a ++ s) = true.
Proof.
  intros H. induction a as [|c a IH]; [exact H|].
  cbn [String.append]. rewrite like_percent, IH. apply Bool.orb_true_r.
Qed.

Lemma like_percent_all (s : string) : like "%" s = true.
Proof.
  induction s as [|c s IH]; [reflexivity|].
  rewrite like_percent, IH. apply Bool.orb_true_r.
Qed.

Lemma like_letters (kw kw' p s : string) :
  literal kw = true -> same_letters kw kw' = true ->
  like (kw ++ p) (kw' ++ s) = like p s.
Proof.
  revert kw'. induction kw as [|c kw IH]; intros [|d kw'] L S;
    try discriminate S; [reflexivity|].
  cbn [literal] in L. cbn [same_letters] in S.
  apply andb_prop in L. destruct L as [L Lk].
  apply andb_prop in L. destruct L as [L1 L2].
  apply negb_true_iff in L1, L2.
  apply andb_prop in S. destruct S as [S Sk].
  cbn [String.append]. rewrite (like_char c d _ _ L1 L2), S. cbn [andb].
  apply IH; assumption.
Qed.

Lemma like_contains (kw kw' a b : string) :
  literal kw = true -> same_letters kw kw' = true ->
  like ("%" ++ kw ++ "%") (a ++ kw' ++ b) = true.
Proof.
  intros L S. cbn [String.append].
  apply like_percent_skip, like_percent_here.
  rewrite (like_letters kw kw' "%" b L S). apply like_percent_all.
Qed.

(** X16.  The search finds a keyword wherever it occurs and whatever its
    case: a route one of whose five searched columns holds text that
    contains the keyword, up to the case of ASCII letters, is among the
    routes the search counts.  (The keyword is not blank and holds
    neither [%] nor [_].) *)
Theorem keyword_found_anywhere (conn : connection) (kw kw' a b c : string)
  (r : row) :
  with_keyword kw = true ->
  literal kw = true ->
  same_letters kw kw' = true ->
  In c search_columns ->
  row_get r c = SText (a ++ kw' ++ b) ->
  In r (tbl_rows (routes (content conn))) ->
  In r (matching_routes conn kw)
  /\ forall f,
       keyword_of f = kw ->
       exists res stmts,
         searchRoutesFromDB (Some conn) f = (Resolved res, stmts)
         /\ 1 <= found_total res.
Proof.
  intros W L S Hc Hr Hin.
  assert (M : In r (matching_routes conn kw)).
  { unfold matching_routes. apply filter_In. split; [exact Hin|].
    unfold keyword_matches. rewrite W.
    apply existsb_exists. exists c. split; [exact Hc|].
    rewrite Hr. cbn [sql_like]. apply like_contains; assumption. }
  split; [exact M|].
  intros f <-. rewrite searchRoutesFromDB_unfold. cbv zeta.
  destruct (Z.eqb_spec
              (Z.of_nat (List.length (matching_routes conn (keyword_of f))))
              0) as [E|E].
  - destruct (matching_routes conn (keyword_of f)); [destruct M|].
    cbn in E. lia.
  - do 2 eexists. split; [reflexivity|]. cbn [found_total]. lia.
Qed.

(** X17.  The keyword is a pattern and not a literal text: the search
    for [%] counts every route that has a name, whatever the name. *)
Theorem percent_finds_every_route (conn : connection) (f : filters) :
  keyword_of f = "%" ->
  Forall (fun r => row_get r "name" <> SNull)
         (tbl_rows (routes (content conn))) ->
  exists res stmts,
    searchRoutesFromDB (Some conn) f = (Resolved res, stmts)
    /\ found_total res
       = Z.of_nat (List.length (tbl_rows (routes (content conn)))).
Proof.
  intros K H.
  assert (M : matching_routes conn "%" = tbl_rows (routes (content conn))).
  { unfold matching_routes. apply filter_all.
    eapply Forall_impl; [|exact H]. cbn beta. intros r N.
    unfold keyword_matches.
    change (with_keyword "%") with true. cbn [search_columns existsb].
    destruct (row_get r "name") as [|x|s]; [congruence| |].
    - cbn [sql_like String.append].
      rewrite like_percent_here; [reflexivity|].
      rewrite like_percent_here; [reflexivity|]. apply like_percent_all.
    - cbn [sql_like String.append].
      rewrite like_percent_here; [reflexivity|].
      rewrite like_percent_here; [reflexivity|]. apply like_percent_all. }
  rewrite searchRoutesFromDB_unfold. cbv zeta. rewrite K, M.
  destruct (Z.eqb_spec
              (Z.of_nat (List.length (tbl_rows (routes (content conn))))) 0)
    as [E|E].
  - do 2 eexists. split; [reflexivity|]. cbn [found_total]. lia.
  - do 2 eexists. split; [reflexivity|]. reflexivity.
Qed.

(* ================================================================== *)
(** * Further properties: the pages of a search *)
(* ================================================================== *)




(* ================================================================== *)
(** * The pages of a search, the update and the round trip, in full *)
(* ================================================================== *)



Lemma required_of_schema (c : column) :
  In c routes_schema -> col_not_null c = true ->
  In (col_name c) required_columns.
Proof.
  unfold routes_schema. intros H.
  repeat (destruct H as [<-|H]; [cbn; intros N; try discriminate N;
                                 unfold required_columns; cbn; tauto|]).
  destruct H.
Qed.

Lemma kept_value (r : row) (c : column) :
  violates_not_null routes_schema r = false ->
  In c routes_schema -> col_not_null c = true ->
  row_get r (col_name c) <> SNull.
Proof.
  intros V Hc N E. apply Bool.not_true_iff_false in V. apply V.
  unfold violates_not_null. apply existsb_exists. exists c.
  split; [exact Hc|]. rewrite N, E. reflexivity.
Qed.

Lemma update_keeps_required (now : clock) (updates : object) (id : SqlVal)
  (keys : list string) (r : row) :
  map fst r = "id" :: map col_name routes_schema ->
  Forall (fun k => allowed k = true) keys ->
  violates_not_null routes_schema r = false ->
  Forall (fun k => In k keys -> bind_param (obj_get updates k) <> SNull)
         required_columns ->
  violates_not_null routes_schema
    (fst (apply_set now (set_clause keys)
            (map (fun k => bind_param (obj_get updates k)) keys ++ [id]) r))
  = false.
Proof.
  intros Hr A V G. apply Bool.not_true_iff_false. intros X.
  unfold violates_not_null in X. apply existsb_exists in X.
  destruct X as [c [Hc X]]. apply andb_prop in X. destruct X as [N X].
  pose proof (required_of_schema c Hc N) as Q.
  rewrite Forall_forall in G. specialize (G (col_name c) Q).
  destruct (in_dec string_dec (col_name c) keys) as [I|I].
  - rewrite (updated_row_holds now updates id keys r (col_name c) Hr A I) in X.
    specialize (G I).
    destruct (bind_param (obj_get updates (col_name c))); [congruence| |];
      discriminate X.
  - rewrite apply_set_other in X.
    + pose proof (kept_value r c V Hc N) as K.
      destruct (row_get r (col_name c)); [congruence| |]; discriminate X.
    + unfold set_clause. apply Forall_app. split.
      * apply Forall_forall. intros s Hs.
        apply in_map_iff in Hs. destruct Hs as [k [<- Hk]]. cbn.
        intros E. apply I. rewrite <- E. exact Hk.
      * constructor; [|constructor]. cbn. intros E.
        unfold required_columns in Q. rewrite <- E in Q. cbn in Q.
        destruct Q as [Q|[Q|[Q|[Q|[Q|[]]]]]]; discriminate Q.
Qed.

(** C4.  An update applies the allowed keys and those only.  It is the
    update by the allowed keys alone, and a column that no submitted
    allowed key names keeps its value, [updated_at] apart.  Every row the
    update applies to has [updated_at] stamped, and holds in each allowed
    field the update names the value that was submitted: text in a text
    column, a finite number in a numeric one, [NULL] for a value that is
    bound as [NULL].  The update is refused
    with the validation error exactly when no submitted key is allowed.
    On an id that no row has, an update with an allowed key resolves with
    zero changes and leaves the store as it was.  And an update with an
    allowed key that leaves no required column without a value does
    resolve, with the number of rows of that id for [changes]. *)
Theorem update_contract (now : clock) (conn : connection) (id : JsVal)
  (updates : object) :
  updateRouteInDB now (Some conn) id updates
  = updateRouteInDB now (Some conn) id
      (filter (fun kv => allowed (fst kv)) updates)
  /\ (forall res conn',
        updateRouteInDB now (Some conn) id updates
        = (Resolved res, Some conn') ->
        (forall c,
           ~ In c (allowed_keys updates) -> c <> "updated_at" ->
           map (fun r => row_get r c) (tbl_rows (routes (content conn')))
           = map (fun r => row_get r c) (tbl_rows (routes (content conn))))
        /\ (conforms (routes (content conn)) ->
            Forall (fun r => id_is (bind_param id) r = true ->
                             row_get r "updated_at"
                             = SText (CURRENT_TIMESTAMP now))
                   (tbl_rows (routes (content conn'))))
        /\ (conforms (routes (content conn)) ->
            Forall (fun r =>
                      id_is (bind_param id) r = true ->
                      forall k,
                        In k (allowed_keys updates) ->
                        (fits_column k (obj_get updates k) = true ->
                         column_value (row_get r k) = obj_get updates k)
                        /\ (bind_param (obj_get updates k) = SNull ->
                            row_get r k = SNull))
                   (tbl_rows (routes (content conn')))))
  /\ (fst (updateRouteInDB now (Some conn) id updates)
      = Rejected nothing_to_update
      <-> allowed_keys updates = [])
  /\ (allowed_keys updates <> [] ->
      Forall (fun r => id_is (bind_param id) r = false)
             (tbl_rows (routes (content conn))) ->
      updateRouteInDB now (Some conn) id updates
      = (Resolved {| changed_id := id; changes := 0 |}, Some conn))
  /\ (allowed_keys updates <> [] ->
      conforms (routes (content conn)) ->
      Forall (fun r => violates_not_null routes_schema r = false)
             (tbl_rows (routes (content conn))) ->
      Forall (fun k => In k (allowed_keys updates) ->
                       bind_param (obj_get updates k) <> SNull)
             required_columns ->
      exists conn',
        updateRouteInDB now (Some conn) id updates
        = (Resolved
             {| changed_id := id;
                changes :=
                  Z.of_nat
                    (List.length
                       (filter (id_is (bind_param id))
                               (tbl_rows (routes (content conn))))) |},
           Some conn')).
Proof.
  destruct (update_frame now conn id updates) as (F1 & F2 & F3 & F4).
  split; [exact F1|]. split; [|split; [exact F3|split; [exact F4|]]].
  - intros res conn' U. destruct (F2 res conn' U) as [K S].
    split; [exact K|]. split; [exact S|].
    intros C.
    destruct (allowed_keys updates) as [|k0 ks] eqn:E.
    { rewrite updateRouteInDB_unfold, E in U. discriminate. }
    rewrite (update_route_rows now conn id updates k0 ks E) in U.
    cbv zeta in U.
    match type of U with
    | context [with_routes conn {| tbl_rows := ?l; tbl_seq := _ |}] =>
        set (rows := l) in U
    end.
    destruct (existsb _ rows); [discriminate|].
    assert (R : routes (content conn')
                = {| tbl_rows := rows;
                     tbl_seq := tbl_seq (routes (content conn)) |}).
    { injection U as _ <-. reflexivity. }
    rewrite R. cbn [tbl_rows]. clear U R K S.
    apply Forall_forall. intros r' Hr'. unfold rows in Hr'.
    apply in_map_iff in Hr'. destruct Hr' as [r [Er Hr]].
    unfold conforms in C. rewrite Forall_forall in C. specialize (C r Hr).
    pose proof (allowed_keys_allowed updates) as A. rewrite E in A.
    destruct (id_is (bind_param id) r) eqn:I.
    + intros _ k Hk. subst r'.
      rewrite (updated_row_holds now updates (bind_param id) (k0 :: ks) r k
                 C A Hk).
      split; [|intros N; exact N].
      destruct (obj_get updates k) as [| | |[| |q]| | |]; try discriminate;
        reflexivity.
    + subst r'. intros I'. congruence.
  - intros K C V G.
    destruct (allowed_keys updates) as [|k0 ks] eqn:E; [congruence|].
    rewrite (update_route_rows now conn id updates k0 ks E). cbv zeta.
    pose proof (allowed_keys_allowed updates) as A. rewrite E in A.
    match goal with
    | |- context [existsb ?f ?l] => replace (existsb f l) with false
    end.
    + eexists. reflexivity.
    + symmetry. apply Bool.not_true_iff_false. intros X.
      apply existsb_exists in X. destruct X as [r' [Hr' X]].
      apply in_map_iff in Hr'. destruct Hr' as [r [Er Hr]].
      unfold conforms in C. rewrite Forall_forall in C, V.
      apply andb_prop in X. destruct X as [X1 X2].
      destruct (id_is (bind_param id) r) eqn:I; subst r'.
      * rewrite (update_keeps_required now updates (bind_param id) (k0 :: ks)
                   r (C r Hr) A (V r Hr) G) in X2. discriminate.
      * congruence.
Qed.



End Properties.

(* ================================================================== *)
(** * Properties of the endpoints *)
(* ================================================================== *)

Section EndpointProperties.

Context {host : Host} {web : Web}.

(** X19.  Neither geocoding endpoint ever succeeds: without its
    parameters it answers 400, with them 500 and the message of the
    service, which is the message of the provider module under the prefix
    of the service. *)
Theorem geocoding_never_succeeds (address city lng lat : JsVal) :
  GET_geocode address city
  = (if js_truthy address
     then Failed 500
            (Error
               "地址解析失败: Geocode 功能未在此示例中完整实现，请自行检查其健壮性。")
     else Refused 400 "需要提供地址参数")
  /\ GET_reverse_geocode lng lat
     = (if js_truthy lng && js_truthy lat
        then Failed 500
               (Error
                  "坐标解析失败: ReverseGeocode 功能未在此示例中完整实现，请自行检查其健壮性。")
        else Refused 400 "需要提供经纬度参数")
  /\ (forall found, GET_geocode address city <> Success found)
  /\ (forall found, GET_reverse_geocode lng lat <> Success found).
Proof.
  assert (G : GET_geocode address city
              = (if js_truthy address
                 then Failed 500
                        (Error
                           "地址解析失败: Geocode 功能未在此示例中完整实现，请自行检查其健壮性。")
                 else Refused 400 "需要提供地址参数")).
  { unfold GET_geocode. destruct (js_truthy address); reflexivity. }
  assert (R : GET_reverse_geocode lng lat
              = (if js_truthy lng && js_truthy lat
                 then Failed 500
                        (Error
                           "坐标解析失败: ReverseGeocode 功能未在此示例中完整实现，请自行检查其健壮性。")
                 else Refused 400 "需要提供经纬度参数")).
  { unfold GET_reverse_geocode.
    destruct (js_truthy lng), (js_truthy lat); reflexivity. }
  split; [exact G|]. split; [exact R|]. split.
  - intros found. rewrite G. destruct (js_truthy address); discriminate.
  - intros found. rewrite R.
    destruct (js_truthy lng && js_truthy lat); discriminate.
Qed.

Lemma guarded_refused {A S} (auth : JsVal) (db : S) (handler : reply A * S)
  (code : Z) (text : string) :
  adminOnly auth = Some (code, text) ->
  guarded auth db handler = (Refused code text, db).
Proof. intros H. unfold guarded. rewrite H. reflexivity. Qed.

Lemma guarded_admitted {A S} (auth : JsVal) (db : S) (handler : reply A * S) :
  adminOnly auth = None -> guarded auth db handler = handler.
Proof. intros H. unfold guarded. rewrite H. reflexivity. Qed.

(** X20.  No endpoint that writes, and no planning, is reached without
    an administrator's token: a request [adminOnly] refuses is answered
    with its 401 or 403 by each of them, and the store is what it was.
    A request without the header is refused with 401. *)
Theorem refused_requests_change_nothing (now : clock)
  (db : option connection) (auth : JsVal) (id : string) (body : JsVal)
  (asked : option planning) (code : Z) (text : string) :
  adminOnly auth = Some (code, text) ->
  (code = 401 \/ code = 403)
  /\ POST_routes now db auth body = (Refused code text, db)
  /\ PUT_route now db auth id body = (Refused code text, db)
  /\ DELETE_route db auth id = (Refused code text, db)
  /\ POST_marker now db auth id body = (Refused code text, db)
  /\ PUT_marker now db auth id body = (Refused code text, db)
  /\ DELETE_marker db auth id = (Refused code text, db)
  /\ POST_plan_route auth asked = Refused code text
  /\ adminOnly JUndefined = Some (401, "未登录").
Proof.
  intros H. split.
  { unfold adminOnly in H.
    destruct (negb (js_truthy auth)); [injection H as <- _; left; reflexivity|].
    destruct auth; try (injection H as <- _; left; reflexivity).
    destruct (jwt_verify _); [|injection H as <- _; left; reflexivity].
    destruct (member _ _); [|injection H as <- _; left; reflexivity].
    destruct (negb _); [injection H as <- _; right; reflexivity|discriminate]. }
  unfold POST_routes, PUT_route, DELETE_route, POST_marker, PUT_marker,
    DELETE_marker, POST_plan_route.
  rewrite !(guarded_refused auth db _ code text H), H.
  repeat split; reflexivity.
Qed.

Lemma empty_route_refused (now : clock) (db : option connection)
  (saved : object) (db' : option connection) :
  saveRouteToDB now db [] <> (Resolved saved, db').
Proof.
  destruct db as [conn|]; [|discriminate].
  rewrite save_route_refused by reflexivity. discriminate.
Qed.

Lemma save_route_settles (now : clock) (db : option connection)
  (route : object) (e : exn) :
  fst (saveRouteToDB now db route) <> Uncaught e.
Proof.
  destruct db as [conn|]; [|discriminate].
  rewrite saveRouteToDB_unfold.
  destruct (route_accepted now route); [|discriminate].
  destruct (insert_route now conn route_columns (route_params now route))
    as [[conn' n]|err]; discriminate.
Qed.

(** X21.  [POST /api/routes] reads the body before it saves it.  When no
    body reaches the handler – the endpoint is registered without a
    parser – it answers 500 with the [TypeError] and stores nothing; so
    it does when the way points are text that is not JSON, with the
    [SyntaxError].  A route it does save has way points that parse, and
    the handler always answers. *)
Theorem post_routes_contract (now : clock) (db : option connection)
  (auth routeData : JsVal) :
  adminOnly auth = None ->
  (routeData = JUndefined \/ routeData = JNull ->
   POST_routes now db auth routeData = (Failed 500 TypeError, db))
  /\ (forall route w,
        routeData = JObj route ->
        obj_get route "waypoints" = JStr w ->
        w <> EmptyString ->
        JSON_parse w = None ->
        POST_routes now db auth routeData = (Failed 500 SyntaxError, db))
  /\ (forall saved db',
        POST_routes now db auth routeData = (Success saved, db') ->
        exists route parsed,
          routeData = JObj route
          /\ JSON_parse (ToString (obj_get route "waypoints")) = Some parsed
          /\ saveRouteToDB now db route = (Resolved saved, db'))
  /\ (forall e, fst (POST_routes now db auth routeData) <> Pending e).
Proof.
  intros A. unfold POST_routes. rewrite (guarded_admitted _ _ _ A).
  split; [|split; [|split]].
  - intros [->| ->]; reflexivity.
  - intros route w -> Hw Nw Jw. unfold logged, member. cbn [bind].
    rewrite Hw. cbn [js_truthy ToString].
    apply String.eqb_neq in Nw. rewrite Nw, Jw. reflexivity.
  - intros saved db' H.
    destruct (logged routeData) as [l|e] eqn:L; [|discriminate].
    unfold answered, with_properties in H.
    destruct db as [conn|]; [|discriminate].
    destruct routeData as [| |b|x|s|xs|route]; cbn [properties] in H;
      try discriminate;
      try (exfalso;
           destruct (saveRouteToDB now (Some conn) []) as [[o|err|err] d] eqn:S;
           try discriminate;
           exact (empty_route_refused now (Some conn) o d S)).
    exists route.
    destruct (saveRouteToDB now (Some conn) route) as [[o|err|err] d] eqn:S;
      try discriminate.
    cbn in H. injection H as -> ->.
    pose proof (save_route_resolved _ _ _ _ _ S) as Acc.
    unfold route_accepted in Acc.
    apply andb_prop in Acc. destruct Acc as [Acc _].
    apply andb_prop in Acc. destruct Acc as [Acc _].
    apply andb_prop in Acc. destruct Acc as [_ W].
    unfold logged, member in L. cbn [bind] in L. rewrite W in L.
    destruct (JSON_parse (ToString (obj_get route "waypoints"))) as [parsed|];
      [|discriminate].
    exists parsed. repeat split; reflexivity.
  - intros e.
    destruct (logged routeData); [|discriminate].
    unfold answered, with_properties.
    destruct db as [conn|]; [|discriminate].
    destruct (properties routeData) as [props|err]; [|discriminate].
    cbn [fst].
    pose proof (save_route_settles now (Some conn) props) as S.
    destruct (fst (saveRouteToDB now (Some conn) props)) as [o|err|err];
      cbn; try discriminate.
    intros E. injection E as ->. exact (S e eq_refl).
Qed.

(** X22.  [GET /api/routes/:id] answers every failure with 404, not only
    the missing route: a missing database connection and an id that is
    not a number are 404 as well. *)
Theorem route_fetch_failures_are_404 (db : option connection) (id : string) :
  (db = None -> GET_route db id = Failed 404 not_connected)
  /\ (forall conn,
        db = Some conn -> parseInt id = NaN ->
        GET_route db id = Failed 404 route_not_found)
  /\ (forall code e, GET_route db id = Failed code e -> code = 404)
  /\ (forall code text, GET_route db id <> Refused code text).
Proof.
  unfold GET_route. split; [|split; [|split]].
  - intros ->. reflexivity.
  - intros conn -> N. rewrite N. unfold getRouteByIdFromDB.
    cbn [bind_param].
    replace (find (id_is SNull) (tbl_rows (routes (content conn))))
      with (@None row); [reflexivity|].
    symmetry. induction (tbl_rows (routes (content conn))) as [|r l IH];
      [reflexivity|].
    cbn. unfold id_is at 1.
    destruct (row_get r "id"); cbn; exact IH.
  - intros code e.
    destruct (getRouteByIdFromDB db (JNum (parseInt id))); cbn;
      try discriminate.
    intros E. injection E as <- _. reflexivity.
  - intros code text.
    destruct (getRouteByIdFromDB db (JNum (parseInt id))); discriminate.
Qed.

(** X23.  Deleting or updating a route that is not stored is answered as
    a success: [DELETE] and [PUT] on an id that names no route answer
    with [changes] 0, and the store is what it was. *)
Theorem missing_route_answers_success (now : clock) (conn : connection)
  (auth : JsVal) (id : string) (updates : object) :
  adminOnly auth = None ->
  Forall (fun r => id_is (bind_param (JNum (parseInt id))) r = false)
         (tbl_rows (routes (content conn))) ->
  DELETE_route (Some conn) auth id
  = (Success {| changed_id := JNum (parseInt id); changes := 0 |}, Some conn)
  /\ (allowed_keys updates <> [] ->
      PUT_route now (Some conn) auth id (JObj updates)
      = (Success {| changed_id := JNum (parseInt id); changes := 0 |},
         Some conn)).
Proof.
  intros A H. unfold DELETE_route, PUT_route.
  rewrite !(guarded_admitted _ _ _ A). split.
  - rewrite (delete_missing_route conn _ H). reflexivity.
  - intros K. unfold with_properties. cbn [properties].
    rewrite (update_missing_route now conn _ updates K H). reflexivity.
Qed.

Lemma mapM_app {A B} (f : A -> result B) (xs ys : list A)
  (us vs : list B) :
  mapM f xs = Ok us -> mapM f ys = Ok vs -> mapM f (xs ++ ys) = Ok (us ++ vs).
Proof.
  revert us. induction xs as [|x xs IH]; intros us Hx Hy.
  - injection Hx as <-. exact Hy.
  - cbn [mapM app] in *. destruct (f x) as [u|e]; [|discriminate].
    cbn [bind] in *. destruct (mapM f xs) as [us'|e]; [|discriminate].
    cbn [bind] in Hx. injection Hx as <-.
    rewrite (IH us' eq_refl Hy). reflexivity.
Qed.

Lemma mapM_length {A B} (f : A -> result B) (xs : list A) (us : list B) :
  mapM f xs = Ok us -> List.length us = List.length xs.
Proof.
  revert us. induction xs as [|x xs IH]; intros us H.
  - injection H as <-. reflexivity.
  - cbn [mapM] in H. destruct (f x) as [u|e]; [|discriminate].
    cbn [bind] in H. destruct (mapM f xs) as [us'|e]; [|discriminate].
    cbn [bind] in H. injection H as <-. cbn. rewrite (IH us' eq_refl).
    reflexivity.
Qed.

Lemma front_and_last {A} (l : list A) (d : A) :
  l <> [] ->
  l = firstn (List.length l - 1) l ++ [nth (List.length l - 1) l d].
Proof.
  induction l as [|x l IH]; [congruence|]. intros _.
  destruct l as [|y l]; [reflexivity|].
  change (List.length (x :: y :: l) - 1)%nat with (S (List.length l)).
  cbn [firstn nth app]. f_equal.
  replace (List.length l) with (List.length (y :: l) - 1)%nat at 1 2
    by (cbn; lia).
  apply IH. discriminate.
Qed.

Lemma first_middle_last (points : list JsVal) :
  (2 <= List.length points)%nat ->
  points = nth 0 points JUndefined
           :: middle points
           ++ [nth (List.length points - 1) points JUndefined].
Proof.
  destruct points as [|p [|q ps]]; intros H; try (cbn in H; lia).
  pose proof (front_and_last (q :: ps) JUndefined ltac:(discriminate)) as F.
  change (nth 0 (p :: q :: ps) JUndefined) with p. f_equal.
  unfold middle. cbn [skipn].
  replace (List.length (p :: q :: ps) - 2)%nat
    with (List.length (q :: ps) - 1)%nat by (cbn [List.length]; lia).
  replace (nth (List.length (p :: q :: ps) - 1) (p :: q :: ps) JUndefined)
    with (nth (List.length (q :: ps) - 1) (q :: ps) JUndefined);
    [exact F|].
  cbn [List.length].
  replace (S (S (List.length ps)) - 1)%nat with (S (List.length ps)) by lia.
  replace (S (List.length ps) - 1)%nat with (List.length ps) by lia.
  reflexivity.
Qed.

(** X24.  [POST /api/plan-route] reads the length of [points] before it
    asks whether there are any: without a body or without [points] it
    answers 500 with the [TypeError], where the planning of the service
    module throws the message of too few points; fewer than two points
    are answered with 400.  A plan it answers with was made from one
    request to the provider, which named every point once and in order:
    the first as the origin, the last as the destination, the others as
    way points. *)
Theorem plan_route_contract (auth : JsVal) (body : option planning) :
  adminOnly auth = None ->
  (body = None \/ (exists b, body = Some b /\ plan_points b = None) ->
   POST_plan_route auth body = Failed 500 TypeError)
  /\ (forall b points,
        body = Some b -> plan_points b = Some points ->
        (List.length points < 2)%nat ->
        POST_plan_route auth body = Refused 400 too_few_points)
  /\ (forall plan points,
        POST_plan_route auth body = Success (plan, points) ->
        exists b request data texts,
          body = Some b /\ plan_points b = Some points
          /\ axios_get request = Ok data
          /\ planDrivingRoute_response data = Ok plan
          /\ sent_strategy request = default_to (plan_strategy b) (JStr "0")
          /\ mapM point_text points
             = Ok (sent_origin request :: texts ++ [sent_destination request])
          /\ sent_waypoints request
             = match texts with
               | [] => None
               | _ => Some (join ";" texts)
               end)
  /\ (forall strategy,
        planRoute None strategy
        = Throw (Error "路径规划失败: 至少需要起点和终点2个路径点")).
Proof.
  intros A. unfold POST_plan_route. rewrite A.
  split; [|split; [|split]].
  - intros [->|[b [-> Hb]]]; [reflexivity|].
    unfold plan_route. rewrite Hb. reflexivity.
  - intros b points -> Hp Hl. unfold plan_route. rewrite Hp.
    apply Nat.ltb_lt in Hl. rewrite Hl. reflexivity.
  - intros plan points H. unfold plan_route in H.
    destruct body as [b|]; [|discriminate].
    destruct (plan_points b) as [ps|] eqn:Hp; [|discriminate].
    destruct (List.length ps <? 2)%nat eqn:Hl; [discriminate|].
    apply Nat.ltb_ge in Hl.
    unfold legs in H.
    destruct (member (nth 0 ps JUndefined) "lng") as [olng|] eqn:E1;
      cbn [bind] in H; [|discriminate].
    destruct (member (nth 0 ps JUndefined) "lat") as [olat|] eqn:E2;
      cbn [bind] in H; [|discriminate].
    destruct (member (nth (List.length ps - 1) ps JUndefined) "lng")
      as [dlng|] eqn:E3; cbn [bind] in H; [|discriminate].
    destruct (member (nth (List.length ps - 1) ps JUndefined) "lat")
      as [dlat|] eqn:E4; cbn [bind fst snd] in H; [|discriminate].
    unfold planDrivingRoute in H.
    destruct (mapM point_text (middle ps)) as [texts|] eqn:M;
      cbn [bind fst snd] in H; [|discriminate].
    match type of H with
    | context [axios_get ?r] => set (request := r) in H
    end.
    destruct (axios_get request) as [data|] eqn:G;
      cbn [bind] in H; [|discriminate].
    destruct (planDrivingRoute_response data) as [plan'|] eqn:R;
      [|discriminate].
    injection H as <- <-.
    exists b, request, data, texts.
    split; [reflexivity|]. split; [exact Hp|]. split; [exact G|].
    split; [exact R|]. split.
    { unfold request. cbn [sent_strategy].
      destruct (plan_strategy b); reflexivity. }
    split.
    + rewrite (first_middle_last ps Hl) at 1.
      cbn [mapM]. unfold point_text at 1. rewrite E1, E2. cbn [bind].
      rewrite (mapM_app point_text (middle ps)
                 [nth (List.length ps - 1) ps JUndefined] texts
                 [coordinates dlng dlat] M).
      * reflexivity.
      * cbn [mapM]. unfold point_text. rewrite E3, E4. reflexivity.
    + unfold request. cbn [sent_waypoints].
      apply mapM_length in M.
      destruct (middle ps), texts; try discriminate; reflexivity.
  - intros strategy. reflexivity.
Qed.

Lemma markers_number_binds (routeId : string) :
  JsNum.is_nan (Number routeId) = false ->
  bind_param (JNum (Number routeId)) <> SNull.
Proof.
  intros N. cbn [bind_param]. destruct (Number routeId); [discriminate| |];
    discriminate.
Qed.

(** X25.  [POST /api/routes/:routeId/markers] asks of the route id only
    that it reads as a number: an id that is empty or does not is
    answered with 400; without a body the handler answers 500 with the
    [TypeError] and stores nothing; and on every handle the program
    opens a marker with its required fields is stored under the number
    the id reads as, whether or not a route of that id is stored. *)
Theorem post_marker_contract (now : clock) (db : option connection)
  (auth : JsVal) (routeId : string) (markerData : JsVal) :
  adminOnly auth = None ->
  (routeId = EmptyString \/ Number routeId = NaN ->
   POST_marker now db auth routeId markerData = (Refused 400 "routeId 非法", db))
  /\ (routeId <> EmptyString -> JsNum.is_nan (Number routeId) = false ->
      (forall conn,
         db = Some conn ->
         markerData = JUndefined \/ markerData = JNull ->
         POST_marker now db auth routeId markerData
         = (Failed 500 TypeError, db))
      /\ (forall marker,
            opened db ->
            markerData = JObj marker ->
            marker_accepted marker = true ->
            exists conn saved conn',
              db = Some conn
              /\ POST_marker now db auth routeId markerData
                 = (Success saved, Some conn')
              /\ routes (content conn') = routes (content conn)
              /\ tbl_rows (route_markers (content conn'))
                 = tbl_rows (route_markers (content conn))
                   ++ [stored_marker now (JNum (Number routeId)) marker
                         (tbl_seq (route_markers (content conn)) + 1)])).
Proof.
  intros A. unfold POST_marker. rewrite (guarded_admitted _ _ _ A).
  split.
  - intros [->|N]; [reflexivity|]. rewrite N.
    rewrite Bool.orb_true_r. reflexivity.
  - intros Ne Nn. apply String.eqb_neq in Ne. rewrite Ne, Nn. cbn [orb].
    split.
    + intros conn -> [->| ->]; reflexivity.
    + intros marker Hop -> Acc.
      destruct (opened_unenforced db Hop) as (conn & -> & F).
      exists conn. unfold answered, with_properties. cbn [properties].
      rewrite (save_marker_stores now conn (JNum (Number routeId)) marker Acc
                 (markers_number_binds routeId Nn) F).
      do 2 eexists. split; [reflexivity|]. split; [reflexivity|].
      split; reflexivity.
Qed.

End EndpointProperties.

(* ================================================================== *)
(** * Worked examples *)
(* ================================================================== *)

#[local] Existing Instance sample_host.

Example fixed1_digits_examples :
  fixed1_digits 123 = "12.3" /\ fixed1_digits 5 = "0.5"
  /\ fixed1_digits 0 = "0.0" /\ fixed1_digits 1000 = "100.0".
Proof. repeat split. Qed.

Example toFixed1_midpoints :
  toFixed1 (JsNum.div (of_Z 1150) (of_Z 1000)) = "1.1"
  /\ toFixed1 (JsNum.div (of_Z 1050) (of_Z 1000)) = "1.1"
  /\ toFixed1 (JsNum.div (of_Z 250) (of_Z 1000)) = "0.3"
  /\ toFixed1 (JsNum.div (of_Z 12345) (of_Z 1000)) = "12.3".
Proof. repeat split; vm_compute; reflexivity. Qed.

Example sixty_one_seconds :
  Math_ceil (JsNum.div (of_Z 61) (of_Z 60)) = of_Z 2.
Proof. vm_compute. reflexivity. Qed.

Example parseFloat_and_Number_differ :
  parseFloat "12px" = Fin 12 /\ Number "12px" = NaN
  /\ parseFloat "0x10" = Fin 0 /\ Number "0x10" = Fin 16
  /\ parseFloat EmptyString = NaN /\ Number EmptyString = Fin 0.
Proof. repeat split; vm_compute; reflexivity. Qed.

Example like_examples :
  like "%ab%" "xxABxx" = true /\ like "%a_c%" "abc" = true
  /\ like "%ab%" "a" = false /\ like "%%" EmptyString = true.
Proof. repeat split. Qed.

(* ================================================================== *)
(** * The theorems at concrete inputs *)
(* ================================================================== *)



Lemma no_path_witness :
  candidate_paths ok_without_paths = []
  /\ parseRealRouteData ok_without_paths = Throw NoPathFoundError.
Proof.
  split; [reflexivity|].
  apply (proj1 (no_path_is_an_error ok_without_paths eq_refl)).
Defined.

Example success_without_paths :
  status ok_without_paths = JStr "1"
  /\ planDrivingRoute_response ok_without_paths = Throw NoPathFoundError.
Proof. split; reflexivity. Qed.

Example single_point_bounds :
  calculateBounds (JStr "116.1,39.1")
  = Some {| southwest := {| lng := Fin (4084905599513395 # 35184372088832);
                            lat := Fin (5502835794693325 # 140737488355328) |};
            northeast := {| lng := Fin (4084905599513395 # 35184372088832);
                            lat := Fin (5502835794693325 # 140737488355328) |}
         |}.
Proof. vm_compute. reflexivity. Qed.

Lemma markers_outlive_route_witness :
  opened (Some conn_M)
  /\ getRouteMarkersFromDB
       (snd (deleteRouteFromDB (Some conn_M) (num_val 1))) (num_val 1)
     = getRouteMarkersFromDB (Some conn_M) (num_val 1).
Proof.
  assert (H : opened (Some conn_M)).
  { change (Some conn_M)
      with (snd (saveRouteMarkerToDB noon
                   (snd (saveRouteToDB noon (initDatabase None) route_A))
                   (num_val 1) marker_M)).
    apply opened_marker, opened_route, opened_init. }
  split; [exact H|].
  apply (markers_outlive_route (Some conn_M) (num_val 1) (num_val 1) H).
Defined.

Lemma update_contract_witness :
  updateRouteInDB noon (Some conn_A) (num_val 7) [("name", JStr "x")]
  = (Resolved {| changed_id := num_val 7; changes := 0 |}, Some conn_A)
  /\ exists conn',
       updateRouteInDB noon (Some conn_A) (num_val 1)
         [("name", JStr "B"); ("id", num_val 9); ("distance", num_val 5)]
       = (Resolved {| changed_id := num_val 1; changes := 1 |}, Some conn')
       /\ Forall (fun r =>
                    row_get r "id" = SNum (of_Z 1)
                    /\ column_value (row_get r "name") = JStr "B"
                    /\ column_value (row_get r "distance") = num_val 5
                    /\ row_get r "updated_at"
                       = SText (CURRENT_TIMESTAMP noon))
                 (tbl_rows (routes (content conn'))).
Proof.
  split.
  - apply (proj1 (proj2 (proj2 (proj2
             (update_contract noon conn_A (num_val 7)
                [("name", JStr "x")]))))).
    + vm_compute. discriminate.
    + vm_compute. repeat constructor.
  - destruct (proj2 (proj2 (proj2 (proj2
                (update_contract noon conn_A (num_val 1)
                   [("name", JStr "B"); ("id", num_val 9);
                    ("distance", num_val 5)])))))
      as [conn' U].
    + vm_compute. discriminate.
    + repeat constructor.
    + repeat constructor.
    + unfold required_columns.
      repeat (apply Forall_cons;
              [intros H; vm_compute in H |- *; intuition discriminate|]).
      apply Forall_nil.
    + exists conn'. split; [exact U|].
      destruct (proj1 (proj2
                  (update_contract noon conn_A (num_val 1)
                     [("name", JStr "B"); ("id", num_val 9);
                      ("distance", num_val 5)])) _ conn' U)
        as (K & S & W).
      specialize (S ltac:(repeat constructor)).
      specialize (W ltac:(repeat constructor)).
      specialize (K "id" ltac:(vm_compute; intuition discriminate)
                    ltac:(discriminate)).
      destruct (tbl_rows (routes (content conn'))) as [|r [|r' rows]];
        try discriminate K.
      injection K as K.
      inversion S as [|? ? S1 _]; subst. inversion W as [|? ? W1 _]; subst.
      assert (I : id_is (bind_param (num_val 1)) r = true)
        by (unfold id_is; rewrite K; reflexivity).
      constructor; [|constructor].
      split; [exact K|]. split; [|split].
      * apply (proj1 (W1 I "name" ltac:(left; reflexivity))). reflexivity.
      * apply (proj1 (W1 I "distance" ltac:(right; left; reflexivity))).
        reflexivity.
      * exact (S1 I).
Defined.

Lemma create_requires_fields_witness :
  saveRouteToDB noon (Some conn_new) [("name", JStr "A")]
  = (Rejected route_required, Some conn_new).
Proof.
  apply (proj1 (create_requires_fields noon conn_new [("name", JStr "A")])).
  left. reflexivity.
Defined.



Lemma decode_and_bounds_witness :
  exists b,
    calculateBounds (JStr "116.1,39.1;116.2,39.3") = Some b
    /\ least (lng (southwest b))
             (map fst (decodePolyline (JStr "116.1,39.1;116.2,39.3")))
    /\ least (lat (southwest b))
             (map snd (decodePolyline (JStr "116.1,39.1;116.2,39.3")))
    /\ greatest (lng (northeast b))
                (map fst (decodePolyline (JStr "116.1,39.1;116.2,39.3")))
    /\ greatest (lat (northeast b))
                (map snd (decodePolyline (JStr "116.1,39.1;116.2,39.3"))).
Proof.
  apply (proj1 (proj2 (proj2 (proj2 decode_and_bounds)))).
  - discriminate.
  - unfold decodable. vm_compute split.
    repeat constructor; eexists; eexists; eexists; eexists; eexists;
      (split; [reflexivity | split; vm_compute; reflexivity]).
Defined.


Lemma zero_coordinate_witness :
  saveRouteToDB noon (Some conn_new)
    (obj_set route_A "start_lng" (num_val 0))
  = (Rejected route_required, Some conn_new)
  /\ saveRouteMarkerToDB noon (Some conn_A) (num_val 1)
       (obj_set marker_M "lat" (num_val 0))
     = (Rejected marker_required, Some conn_A).
Proof.
  split.
  - apply (proj1 (zero_coordinate_refused noon conn_new)).
    left. reflexivity.
  - apply (proj2 (zero_coordinate_refused noon conn_A)).
    right. reflexivity.
Defined.

(** C5, where the code departs from the specification. A route with
    no [name] and the other required fields is not refused: it is
    stored, under a name made from the clock. *)
Lemma unnamed_route_is_created :
  obj_get route_unnamed "name" = JUndefined
  /\ saveRouteToDB noon (Some conn_new) route_unnamed
     <> (Rejected route_required, Some conn_new)
  /\ exists saved conn' r,
       saveRouteToDB noon (Some conn_new) route_unnamed
       = (Resolved saved, Some conn')
       /\ tbl_rows (routes (content conn')) = [r]
       /\ row_get r "name" = SText "路线_1700000000000".
Proof.
  split; [reflexivity|]. split; [vm_compute; discriminate|].
  eexists. eexists. eexists. vm_compute. repeat split.
Qed.


(** C3 at a concrete store: the route that has one marker is deleted,
    it is no longer found, and its marker is still listed. *)
Example route_deleted_marker_listed :
  fst (deleteRouteFromDB (Some conn_M) (num_val 1))
  = Resolved {| changed_id := num_val 1; changes := 1 |}
  /\ getRouteByIdFromDB (snd (deleteRouteFromDB (Some conn_M) (num_val 1)))
                        (num_val 1)
     = Rejected route_not_found
  /\ exists m,
       getRouteMarkersFromDB
         (snd (deleteRouteFromDB (Some conn_M) (num_val 1))) (num_val 1)
       = Resolved [m]
       /\ obj_get m "name" = JStr "M".
Proof.
  split; [vm_compute; reflexivity|]. split; [vm_compute; reflexivity|].
  eexists. vm_compute. split; reflexivity.
Qed.

(** The same delete on a connection that enforces foreign keys. *)
Example route_deleted_marker_gone :
  getRouteMarkersFromDB
    (snd (deleteRouteFromDB
            (Some {| foreign_keys := true; content := content conn_M |})
            (num_val 1)))
    (num_val 1)
  = Resolved [].
Proof. vm_compute. reflexivity. Qed.

Example update_examples :
  fst (updateRouteInDB noon (Some conn_A) (num_val 1)
         [("bogusField", num_val 1)])
  = Rejected nothing_to_update
  /\ fst (updateRouteInDB noon (Some conn_A) (num_val 1)
            [("name", JStr "x"); ("id", num_val 9)])
     = Resolved {| changed_id := num_val 1; changes := 1 |}
  /\ fst (updateRouteInDB noon (Some conn_A) (num_val 7) [("name", JStr "x")])
     = Resolved {| changed_id := num_val 7; changes := 0 |}.
Proof. repeat split; vm_compute; reflexivity. Qed.

Example plan_of_sample_response :
  exists plan,
    parseRealRouteData ok_with_path = Ok plan
    /\ plan_distance plan = "12.3"
    /\ plan_time plan = of_Z 61
    /\ map distance (plan_steps plan) = ["1.1"; "0.3"]
    /\ map time (plan_steps plan) = [of_Z 2; of_Z 1]
    /\ map instruction (plan_steps plan) = ["go north"; "arrive"]
    /\ List.length (plan_polyline plan) = 2%nat.
Proof. eexists. vm_compute. repeat split. Qed.

Example search_of_three_routes :
  exists res,
    searchRoutesFromDB (Some conn_three)
      {| keyword := Some "ALPHA"; page := None; limit := None |}
    = (Resolved res,
       [ ({| q_count := true; q_like := search_columns; q_page := false |},
          [JStr "%ALPHA%"; JStr "%ALPHA%"; JStr "%ALPHA%"; JStr "%ALPHA%";
           JStr "%ALPHA%"]);
         ({| q_count := false; q_like := search_columns; q_page := true |},
          [JStr "%ALPHA%"; JStr "%ALPHA%"; JStr "%ALPHA%"; JStr "%ALPHA%";
           JStr "%ALPHA%"; num_val 20; num_val 0]) ])
    /\ found_total res = 1
    /\ map (fun r => obj_get r "name") (found_routes res) = [JStr "Alpha"].
Proof. eexists. vm_compute. repeat split. Qed.

Example search_without_match :
  searchRoutesFromDB (Some conn_three)
    {| keyword := Some "zzz"; page := Some 1; limit := Some 20 |}
  = (Resolved {| found_routes := []; found_total := 0;
                 found_page := 1; found_limit := 20 |},
     [ ({| q_count := true; q_like := search_columns; q_page := false |},
        [JStr "%zzz%"; JStr "%zzz%"; JStr "%zzz%"; JStr "%zzz%";
         JStr "%zzz%"]) ]).
Proof. vm_compute. reflexivity. Qed.

(* ================================================================== *)
(** * The further theorems at concrete inputs *)
(* ================================================================== *)

#[local] Existing Instance sample_web.

Lemma later_conn_A : later (initDatabase None) (Some conn_A).
Proof.
  change (Some conn_A)
    with (snd (saveRouteToDB noon (initDatabase None) route_A)).
  eapply later_write; [apply later_now|apply write_route].
Qed.

Lemma opened_conn_A : opened (Some conn_A).
Proof.
  change (Some conn_A)
    with (snd (saveRouteToDB noon (initDatabase None) route_A)).
  apply opened_route, opened_init.
Qed.

Lemma conforms_conn_A : conforms (routes (content conn_A)).
Proof. repeat constructor. Qed.

Lemma instruction_has_no_tag_witness :
  exists ps,
    parse_step (step_of "go <b>north</b>" "1150" "61" "116.1,39.1") = Ok ps
    /\ instruction ps = "go north"
    /\ has_tag (instruction ps) = false.
Proof.
  destruct (parse_step (step_of "go <b>north</b>" "1150" "61" "116.1,39.1"))
    as [ps|e] eqn:E.
  - exists ps. split; [reflexivity|]. split.
    + vm_compute in E. injection E as <-. reflexivity.
    + apply (proj1 (instruction_has_no_tag _ ps E)).
  - vm_compute in E. discriminate.
Defined.

Lemma bounds_iff_geometry_witness :
  exists plan,
    parseRealRouteData ok_with_path = Ok plan
    /\ (plan_polyline plan = [] <-> plan_bounds plan = None).
Proof.
  destruct (parseRealRouteData ok_with_path) as [plan|e] eqn:E.
  - exists plan. split; [reflexivity|].
    apply (bounds_iff_geometry ok_with_path plan E).
  - vm_compute in E. discriminate.
Defined.

Lemma bad_point_spoils_bounds_witness :
  exists b,
    calculateBounds (JStr "116.1,39.1;x,39.2") = Some b
    /\ lng (southwest b) = NaN /\ lng (northeast b) = NaN.
Proof.
  destruct (bad_point_spoils_bounds "116.1,39.1;x,39.2" "x,39.2")
    as [b [E [H _]]].
  - discriminate.
  - right. left. reflexivity.
  - exists b. split; [exact E|]. apply H. reflexivity.
Defined.

Lemma reachable_store_sound_witness :
  exists conn, Some conn_A = Some conn /\ sound conn.
Proof. apply (reachable_store_sound (Some conn_A) later_conn_A). Defined.

Lemma changes_at_most_one_witness :
  exists res db',
    deleteRouteFromDB (Some conn_A) (num_val 1) = (Resolved res, db')
    /\ changed_id res = num_val 1
    /\ (changes res = 0 \/ changes res = 1).
Proof.
  destruct (deleteRouteFromDB (Some conn_A) (num_val 1)) as [[res|e|e] db']
    eqn:E; try (vm_compute in E; discriminate).
  exists res, db'. split; [reflexivity|].
  apply (changes_at_most_one noon (Some conn_A) db' (num_val 1) [] res
           later_conn_A).
  right. left. exact E.
Defined.

Lemma route_ids_never_reused_witness :
  exists saved saved' db1 db3,
    saveRouteToDB noon (initDatabase None) route_A = (Resolved saved, db1)
    /\ saveRouteToDB noon (snd (deleteRouteFromDB db1 (num_val 1))) route_A
       = (Resolved saved', db3)
    /\ exists i j,
         obj_get saved "id" = num_val i /\ obj_get saved' "id" = num_val j
         /\ i < j.
Proof.
  destruct (saveRouteToDB noon (initDatabase None) route_A)
    as [[saved|e|e] db1] eqn:E1; try (vm_compute in E1; discriminate).
  destruct (saveRouteToDB noon (snd (deleteRouteFromDB db1 (num_val 1)))
              route_A) as [[saved'|e|e] db3] eqn:E2.
  - exists saved, saved', db1, db3.
    split; [reflexivity|]. split; [exact E2|].
    apply (route_ids_never_reused noon noon (initDatabase None) db1
             (snd (deleteRouteFromDB db1 (num_val 1))) db3
             route_A route_A saved saved' E1).
    + eapply later_write; [apply later_now|apply write_route_delete].
    + exact E2.
    + reflexivity.
    + reflexivity.
  - vm_compute in E1. injection E1 as <- <-. vm_compute in E2. discriminate.
  - vm_compute in E1. injection E1 as <- <-. vm_compute in E2. discriminate.
Defined.

Lemma marker_saved_then_listed_witness :
  existsb (id_is (SNum (of_Z 7))) (tbl_rows (routes (content conn_A))) = false
  /\ exists listed m,
       getRouteMarkersFromDB
         (snd (saveRouteMarkerToDB noon (Some conn_A) (num_val 7) marker_M))
         (num_val 7)
       = Resolved listed
       /\ In m listed
       /\ obj_get m "name" = JStr "M"
       /\ obj_get m "marker_type" = JStr "important"
       /\ obj_get m "importance" = num_val 1.
Proof.
  split; [reflexivity|].
  destruct (marker_saved_then_listed noon (Some conn_A) (num_val 7) marker_M
              "M" lng_a lat_a opened_conn_A)
    as (saved & db' & listed & m & S & L & Hin & _ & Hn & _ & _ & Ht & Hi & _).
  - split; [reflexivity|reflexivity|reflexivity|repeat constructor].
  - discriminate.
  - reflexivity.
  - reflexivity.
  - discriminate.
  - exists listed, m. rewrite S. cbn [snd].
    split; [exact L|]. split; [exact Hin|]. split; [exact Hn|].
    split; [exact Ht|exact Hi].
Defined.

Lemma deleted_route_is_gone_witness :
  getRouteByIdFromDB (snd (deleteRouteFromDB (Some conn_three) (num_val 2)))
                     (num_val 2)
  = Rejected route_not_found
  /\ getRouteByIdFromDB (snd (deleteRouteFromDB (Some conn_three) (num_val 2)))
                        (num_val 3)
     = getRouteByIdFromDB (Some conn_three) (num_val 3)
  /\ deleteRouteFromDB (Some conn_three) (num_val 9)
     = (Resolved {| changed_id := num_val 9; changes := 0 |}, Some conn_three).
Proof.
  split; [|split].
  - apply (proj1 (deleted_route_is_gone conn_three (num_val 2))).
  - apply (proj1 (proj2 (deleted_route_is_gone conn_three (num_val 2)))).
    reflexivity.
  - apply (proj2 (proj2 (deleted_route_is_gone conn_three (num_val 9)))).
    repeat constructor.
Defined.

Lemma marker_update_contract_witness :
  exists res conn',
    updateRouteMarkerInDB noon (Some conn_M) (num_val 1)
      [("name", JStr "N"); ("lng", num_val 0)]
    = (Resolved res, Some conn')
    /\ changes res = 1
    /\ map (fun m => row_get m "lng")
           (tbl_rows (route_markers (content conn')))
       = map (fun m => row_get m "lng")
             (tbl_rows (route_markers (content conn_M)))
    /\ map (fun m => row_get m "name")
           (tbl_rows (route_markers (content conn')))
       = [SText "N"].
Proof.
  destruct (updateRouteMarkerInDB noon (Some conn_M) (num_val 1)
              [("name", JStr "N"); ("lng", num_val 0)])
    as [[res|e|e] [conn'|]] eqn:E; try (vm_compute in E; discriminate).
  exists res, conn'. split; [reflexivity|].
  destruct (proj2 (proj2 (marker_update_contract noon conn_M (num_val 1)
                            [("name", JStr "N"); ("lng", num_val 0)]))
              res conn' E) as (_ & _ & K).
  split; [|split].
  - vm_compute in E. injection E as <- _. reflexivity.
  - apply K. left. right. right. left. reflexivity.
  - vm_compute in E. injection E as _ <-. reflexivity.
Defined.

Lemma update_writes_values_witness :
  exists res conn',
    updateRouteInDB noon (Some conn_A) (num_val 1)
      [("name", JStr "B"); ("distance", num_val 5)]
    = (Resolved res, Some conn')
    /\ Forall (fun r =>
                 id_is (SNum (of_Z 1)) r = true ->
                 column_value (row_get r "name") = JStr "B"
                 /\ column_value (row_get r "distance") = num_val 5)
              (tbl_rows (routes (content conn'))).
Proof.
  destruct (updateRouteInDB noon (Some conn_A) (num_val 1)
              [("name", JStr "B"); ("distance", num_val 5)])
    as [[res|e|e] [conn'|]] eqn:E; try (vm_compute in E; discriminate).
  exists res, conn'. split; [reflexivity|].
  pose proof (update_writes_values noon conn_A conn' (num_val 1)
                [("name", JStr "B"); ("distance", num_val 5)] res
                conforms_conn_A E) as W.
  eapply Forall_impl; [|exact W]. cbn beta. intros r H I. split.
  - apply (H I "name"); [left; reflexivity|reflexivity].
  - apply (H I "distance"); [right; left; reflexivity|reflexivity].
Defined.

Lemma required_column_not_nulled_witness :
  updateRouteInDB noon (Some conn_A) (num_val 1)
    [("name", JNull); ("city", JStr "Beijing")]
  = (Rejected constraint_not_null, Some conn_A).
Proof.
  apply (required_column_not_nulled noon conn_A (num_val 1)
           [("name", JNull); ("city", JStr "Beijing")] "name"
           conforms_conn_A).
  - left. reflexivity.
  - left. reflexivity.
  - reflexivity.
  - reflexivity.
Defined.

Lemma unparsable_first_route : unparsable_waypoints (first_route conn_bad).
Proof.
  exists "116.397,39.909". split; [reflexivity|].
  split; [discriminate|reflexivity].
Qed.

Lemma unparsable_row_blocks_readers_witness :
  getRouteByIdFromDB (Some conn_bad) (num_val 1) = Uncaught SyntaxError
  /\ getRoutesFromDB (Some conn_bad)
       {| list_page := None; list_limit := None;
          list_type := JNull; list_search := JNull |}
     = Uncaught SyntaxError
  /\ exists res stmts,
       searchRoutesFromDB (Some conn_bad)
         {| keyword := None; page := None; limit := None |}
       = (Resolved res, stmts)
       /\ In (row_object (first_route conn_bad)) (found_routes res).
Proof.
  destruct (unparsable_row_blocks_readers conn_bad (first_route conn_bad)
              unparsable_first_route) as (F & L & S).
  split; [|split].
  - apply F. reflexivity.
  - apply L. left. reflexivity.
  - apply S. left. reflexivity.
Defined.

Lemma unparsable_route_is_saved_witness :
  exists saved db',
    saveRouteToDB noon (Some conn_new) route_bad = (Resolved saved, db')
    /\ getRouteByIdFromDB db' (obj_get saved "id") = Uncaught SyntaxError.
Proof.
  apply (unparsable_route_is_saved noon conn_new route_bad "116.397,39.909").
  - reflexivity.
  - discriminate.
  - discriminate.
  - reflexivity.
  - reflexivity.
  - reflexivity.
  - constructor.
Defined.

Lemma keyword_found_anywhere_witness :
  In (first_route conn_three) (matching_routes conn_three "LPH")
  /\ exists res stmts,
       searchRoutesFromDB (Some conn_three)
         {| keyword := Some "LPH"; page := None; limit := None |}
       = (Resolved res, stmts)
       /\ 1 <= found_total res.
Proof.
  destruct (keyword_found_anywhere conn_three "LPH" "lph" "A" "a" "name"
              (first_route conn_three)) as [M S].
  - reflexivity.
  - reflexivity.
  - reflexivity.
  - left. reflexivity.
  - reflexivity.
  - left. reflexivity.
  - split; [exact M|]. apply S. reflexivity.
Defined.

Lemma percent_finds_every_route_witness :
  exists res stmts,
    searchRoutesFromDB (Some conn_three)
      {| keyword := Some "%"; page := None; limit := None |}
    = (Resolved res, stmts)
    /\ found_total res = 3.
Proof.
  apply (percent_finds_every_route conn_three
           {| keyword := Some "%"; page := None; limit := None |}).
  - reflexivity.
  - repeat constructor; discriminate.
Defined.


Example admin_tokens :
  adminOnly (JStr "Bearer admin") = None
  /\ adminOnly (JStr "admin") = None
  /\ adminOnly (JStr "Bearer reader") = Some (403, "仅管理员可操作")
  /\ adminOnly (JStr "Bearer other") = Some (401, "登录失效")
  /\ adminOnly (JStr EmptyString) = Some (401, "未登录").
Proof. repeat split. Qed.

Lemma admin_admitted : adminOnly (JStr "Bearer admin") = None.
Proof. reflexivity. Qed.

Lemma reader_refused :
  adminOnly (JStr "Bearer reader") = Some (403, "仅管理员可操作").
Proof. reflexivity. Qed.

Lemma refused_requests_change_nothing_witness :
  POST_routes noon (Some conn_A) (JStr "Bearer reader") (JObj route_A)
  = (Refused 403 "仅管理员可操作", Some conn_A)
  /\ DELETE_route (Some conn_A) (JStr "Bearer reader") "1"
     = (Refused 403 "仅管理员可操作", Some conn_A).
Proof.
  destruct (refused_requests_change_nothing noon (Some conn_A)
              (JStr "Bearer reader") "1" (JObj route_A) None
              403 "仅管理员可操作" reader_refused)
    as (_ & P & _ & D & _).
  split; [exact P|exact D].
Defined.

Lemma post_routes_contract_witness :
  POST_routes noon (Some conn_A) (JStr "Bearer admin") JUndefined
  = (Failed 500 TypeError, Some conn_A)
  /\ POST_routes noon (Some conn_A) (JStr "Bearer admin") (JObj route_bad)
     = (Failed 500 SyntaxError, Some conn_A)
  /\ exists saved db',
       POST_routes noon (Some conn_A) (JStr "Bearer admin") (JObj route_A)
       = (Success saved, db')
       /\ exists parsed, JSON_parse two_points = Some parsed.
Proof.
  split; [|split].
  - apply (proj1 (post_routes_contract noon (Some conn_A)
                    (JStr "Bearer admin") JUndefined admin_admitted)).
    left. reflexivity.
  - apply (proj1 (proj2 (post_routes_contract noon (Some conn_A)
                           (JStr "Bearer admin") (JObj route_bad)
                           admin_admitted))
             route_bad "116.397,39.909");
      [reflexivity|reflexivity|discriminate|reflexivity].
  - destruct (POST_routes noon (Some conn_A) (JStr "Bearer admin")
                (JObj route_A)) as [[saved|code text|code e|e] db'] eqn:E;
      try (vm_compute in E; discriminate).
    exists saved, db'. split; [reflexivity|].
    destruct (proj1 (proj2 (proj2 (post_routes_contract noon (Some conn_A)
                                     (JStr "Bearer admin") (JObj route_A)
                                     admin_admitted))) saved db' E)
      as (route & parsed & R & J & _).
    injection R as <-. exists parsed. exact J.
Defined.

Lemma route_fetch_failures_are_404_witness :
  GET_route None "1" = Failed 404 not_connected
  /\ GET_route (Some conn_A) "abc" = Failed 404 route_not_found.
Proof.
  split.
  - apply (proj1 (route_fetch_failures_are_404 None "1")). reflexivity.
  - apply (proj1 (proj2 (route_fetch_failures_are_404 (Some conn_A) "abc"))
             conn_A); reflexivity.
Defined.

Lemma missing_route_answers_success_witness :
  DELETE_route (Some conn_A) (JStr "Bearer admin") "9"
  = (Success {| changed_id := num_val 9; changes := 0 |}, Some conn_A)
  /\ PUT_route noon (Some conn_A) (JStr "Bearer admin") "9"
       (JObj [("name", JStr "B")])
     = (Success {| changed_id := num_val 9; changes := 0 |}, Some conn_A).
Proof.
  destruct (missing_route_answers_success noon conn_A (JStr "Bearer admin")
              "9" [("name", JStr "B")] admin_admitted) as [D P].
  - repeat constructor.
  - split; [exact D|]. apply P. discriminate.
Defined.

Lemma plan_route_contract_witness :
  POST_plan_route (JStr "Bearer admin")
    (Some {| plan_points := None; plan_strategy := JUndefined |})
  = Failed 500 TypeError
  /\ POST_plan_route (JStr "Bearer admin")
       (Some {| plan_points := Some [point_of "116.1" "39.1"];
                plan_strategy := JUndefined |})
     = Refused 400 too_few_points
  /\ exists plan request texts,
       POST_plan_route (JStr "Bearer admin")
         (Some {| plan_points := Some three_points;
                  plan_strategy := JUndefined |})
       = Success (plan, three_points)
       /\ mapM point_text three_points
          = Ok (sent_origin request :: texts ++ [sent_destination request])
       /\ sent_origin request = "116.1,39.1"
       /\ texts = ["116.2,39.2"]
       /\ sent_destination request = "116.3,39.3"
       /\ sent_strategy request = JStr "0".
Proof.
  split; [|split].
  - apply (proj1 (plan_route_contract (JStr "Bearer admin")
                    (Some {| plan_points := None;
                             plan_strategy := JUndefined |})
                    admin_admitted)).
    right. eexists. split; reflexivity.
  - apply (proj1 (proj2 (plan_route_contract (JStr "Bearer admin")
                           (Some {| plan_points :=
                                      Some [point_of "116.1" "39.1"];
                                    plan_strategy := JUndefined |})
                           admin_admitted))
             {| plan_points := Some [point_of "116.1" "39.1"];
                plan_strategy := JUndefined |}
             [point_of "116.1" "39.1"]); [reflexivity|reflexivity|].
    cbn. lia.
  - destruct (POST_plan_route (JStr "Bearer admin")
                (Some {| plan_points := Some three_points;
                         plan_strategy := JUndefined |}))
      as [[plan points]|code text|code e|e] eqn:E;
      try (vm_compute in E; discriminate).
    assert (P : points = three_points).
    { vm_compute in E. injection E as _ <-. reflexivity. }
    subst points.
    destruct (proj1 (proj2 (proj2 (plan_route_contract (JStr "Bearer admin")
                                     (Some {| plan_points := Some three_points;
                                              plan_strategy := JUndefined |})
                                     admin_admitted))) plan three_points E)
      as (b & request & data & texts & B & _ & _ & _ & S & M & _).
    injection B as <-.
    exists plan, request, texts. split; [reflexivity|]. split; [exact M|].
    change (mapM point_text three_points)
      with (Ok ["116.1,39.1"; "116.2,39.2"; "116.3,39.3"]) in M.
    injection M as M1 M2.
    destruct texts as [|t [|t' texts]]; cbn [app] in M2.
    + injection M2 as _ M2. discriminate M2.
    + injection M2 as <- M3.
      split; [symmetry; exact M1|]. split; [reflexivity|].
      split; [symmetry; exact M3|exact S].
    + injection M2 as _ _ M2. destruct texts; discriminate M2.
Defined.

Lemma post_marker_contract_witness :
  POST_marker noon (Some conn_A) (JStr "Bearer admin") "abc" (JObj marker_M)
  = (Refused 400 "routeId 非法", Some conn_A)
  /\ POST_marker noon (Some conn_A) (JStr "Bearer admin") "7" JUndefined
     = (Failed 500 TypeError, Some conn_A)
  /\ existsb (id_is (SNum (of_Z 7))) (tbl_rows (routes (content conn_A)))
     = false
  /\ exists saved conn',
       POST_marker noon (Some conn_A) (JStr "Bearer admin") "7"
         (JObj marker_M)
       = (Success saved, Some conn')
       /\ List.length (tbl_rows (route_markers (content conn'))) = 1%nat.
Proof.
  split; [|split; [|split]].
  - apply (proj1 (post_marker_contract noon (Some conn_A)
                    (JStr "Bearer admin") "abc" (JObj marker_M)
                    admin_admitted)).
    right. reflexivity.
  - apply (proj1 (proj2 (post_marker_contract noon (Some conn_A)
                           (JStr "Bearer admin") "7" JUndefined
                           admin_admitted)
                    ltac:(discriminate) ltac:(reflexivity)) conn_A);
      [reflexivity|left; reflexivity].
  - reflexivity.
  - destruct (proj2 (proj2 (post_marker_contract noon (Some conn_A)
                              (JStr "Bearer admin") "7" (JObj marker_M)
                              admin_admitted)
                       ltac:(discriminate) ltac:(reflexivity)) marker_M
                opened_conn_A ltac:(reflexivity) ltac:(reflexivity))
      as (conn & saved & conn' & C & P & _ & R).
    injection C as <-.
    exists saved, conn'. split; [exact P|]. rewrite R. reflexivity.
Defined.
